(** * Flappy Bird clone: a shallow embedding of [flappy_bird.py]

    The simulation core of the game (avatar physics, pipes, coins, shop
    transaction, per-tick update) is embedded as executable Rocq functions
    and the properties of the specification are stated over them.

    Conventions of the embedding.
    - Python [float] is IEEE 754 binary64, modelled by [spec_float] of the
      Standard Library at precision 53 and exponent bound 1024, every
      operation rounded to nearest-even as the hardware does.
    - Python [int] is [Z].  Fields that only ever hold integers in the
      source ([x] coordinates, [angle], [score], coins, ...) are [Z]; fields
      that hold floats after the first tick ([Bird.y], [Bird.velocity],
      [Coin.y], [Coin.time]) are floats, their integer initial values being
      converted exactly.
    - The objects are mutated in place in the source; here every method
      returns the new object.  The module-level [persistence] handle is
      threaded through explicitly.
    - The clock, the random draws and [math.sin] come from outside the
      program and are inputs of the tick. *)

From Stdlib Require Import ZArith Lia Bool List Ascii Sorted.
From Stdlib Require Import SpecFloat.
From stdpp Require Import base gmap sets strings pretty.
Import ListNotations.

Local Open Scope Z_scope.

(** ** Python floats *)

Module F.

Definition prec : Z := 53.
Definition emax : Z := 1024.

Definition float : Type := spec_float.

(** [float(n)] for an integer [n]: rounded to nearest-even.  (Python raises
    OverflowError from [2^1024] on, where this gives an infinity; the
    integers of the game are far smaller.) *)
Definition of_Z (n : Z) : float := binary_normalize prec emax n 0 false.

Definition add : float -> float -> float := SFadd prec emax.
Definition sub : float -> float -> float := SFsub prec emax.
Definition mul : float -> float -> float := SFmul prec emax.
Definition div : float -> float -> float := SFdiv prec emax.
Definition sqrt : float -> float := SFsqrt prec emax.

Definition ltb : float -> float -> bool := SFltb.
Definition leb : float -> float -> bool := SFleb.
Definition eqb : float -> float -> bool := SFeqb.

(** A decimal literal [n / d] ([d] a power of ten) denotes the double
    nearest to the quotient; a single correctly rounded division of two
    exactly representable integers computes it. *)
Definition decimal (n d : Z) : float := div (of_Z n) (of_Z d).

(** [x ** 2] and [x ** 0.5] on floats, taken correctly rounded. *)
Definition sqr (a : float) : float := mul a a.
Definition pow_half (a : float) : float := sqrt a.

(** Conversion of a float to a C [int] as pygame does it for the
    coordinates of a [Rect]: truncation toward zero.  (Infinities and NaN
    have no defined conversion in C; they get 0 here.) *)
Definition trunc (a : float) : Z :=
  match a with
  | S754_finite s m e =>
      cond_Zopp s
        (match e with
         | Z0 => Zpos m
         | Zpos k => Zpos m * 2 ^ Zpos k
         | Zneg k => Zpos m / 2 ^ Zpos k
         end)
  | _ => 0
  end.

(** Python's builtin [min(a, b)]: [b] when [b < a], else [a]. *)
Definition py_min (a b : float) : float := if ltb b a then b else a.

End F.

Declare Scope float_scope.
Delimit Scope float_scope with F.
Bind Scope float_scope with F.float.
Infix "+" := F.add : float_scope.
Infix "-" := F.sub : float_scope.
Infix "*" := F.mul : float_scope.
Infix "<?" := F.ltb : float_scope.
Infix "<=?" := F.leb : float_scope.
Abbreviation float := F.float.

(** ** Constants *)

Definition WINDOW_WIDTH : Z := 400.
Definition WINDOW_HEIGHT : Z := 600.
Definition GRAVITY : float := Eval vm_compute in F.decimal 5 10.
Definition FLAP_STRENGTH : Z := -6.
Definition MAX_VELOCITY : Z := 10.
Definition ACCELERATION : float := Eval vm_compute in F.decimal 105 100.
Definition PIPE_SPEED : Z := 3.
Definition PIPE_GAP : Z := 150.
Definition PIPE_FREQUENCY : Z := 1500.
Definition COIN_FREQUENCY : Z := 2000.
Definition COIN_VALUE : Z := 5.

(** ** Persistence: the SQLite store

    Two tables: [state] (key to text value) and [owned_skins] (a set of skin
    names).  A call into sqlite3 can raise; every caller in the game wraps
    its calls in [try]/[except].  [faults] lists, for the calls to come,
    whether each one raises; when the list is exhausted the store is
    healthy.  A raising call changes nothing in the tables. *)

Module Persistence.

Record t := mk {
  state : gmap string string;
  owned_skins : gset string;
  faults : list bool
}.

(** Outcome of one database call: [None] when it raises. *)
Definition call {A : Type} (run : t -> A * t) (p : t) : option A * t :=
  match faults p with
  | [] => let '(a, p') := run p in (Some a, p')
  | false :: fs =>
      let '(a, p') := run (mk (state p) (owned_skins p) fs) in (Some a, p')
  | true :: fs => (None, mk (state p) (owned_skins p) fs)
  end.

(** [get_state(key, None)]: the stored text, or the default [None]. *)
Definition get_state (key : string) : t -> option (option string) * t :=
  call (fun p => (state p !! key, p)).

(** [set_state(key, value)]: INSERT OR REPLACE of [str(value)]; the
    caller passes the text. *)
Definition set_state (key value : string) : t -> option unit * t :=
  call (fun p => (tt, mk (<[key := value]> (state p)) (owned_skins p) (faults p))).

(** [add_owned_skin(skin_name)]: INSERT OR IGNORE. *)
Definition add_owned_skin (skin_name : string) : t -> option unit * t :=
  call (fun p => (tt, mk (state p) ({[skin_name]} ∪ owned_skins p) (faults p))).

Definition get_owned_skins : t -> option (gset string) * t :=
  call (fun p => (owned_skins p, p)).

End Persistence.

(** [str(n)] of a Python integer. *)
Definition py_str (n : Z) : string := pretty n.

(** ** Bird *)

Module Bird.

(** The catalogue [SKINS], in the order of the dictionary literal, with
    the price of each skin (the colour entries only feed the drawing). *)
Definition SKINS : list (string * Z) :=
  [ ("default", 0); ("blue_jay", 50); ("cardinal", 100); ("rainbow", 200);
    ("ninja", 150); ("ghost", 175); ("phoenix", 250); ("emerald", 150);
    ("robot", 300) ]%string.

(** [SKINS[skin_name]['price']], when [skin_name in SKINS]. *)
Fixpoint lookup_price (catalogue : list (string * Z)) (skin_name : string) : option Z :=
  match catalogue with
  | [] => None
  | (name, price) :: rest =>
      if String.eqb name skin_name then Some price else lookup_price rest skin_name
  end.

Definition price (skin_name : string) : option Z := lookup_price SKINS skin_name.

Definition in_SKINS (skin_name : string) : bool :=
  match price skin_name with Some _ => true | None => false end.

Record t := mk {
  x : Z;
  y : float;
  velocity : float;
  size : Z;
  angle : Z;
  current_skin : string;
  owned_skins : gset string
}.

Definition with_skins (b : t) (cur : string) (owned : gset string) : t :=
  mk (x b) (y b) (velocity b) (size b) (angle b) cur owned.

Definition load_owned_skins (b : t) (p : Persistence.t) : t * Persistence.t :=
  match Persistence.get_owned_skins p with
  | (Some skins, p') =>
      let owned := if decide (skins = ∅) then owned_skins b else skins in
      (with_skins b (current_skin b) (owned ∪ {["default"%string]}), p')
  | (None, p') => (with_skins b (current_skin b) {["default"%string]}, p')
  end.

Definition save_current_skin (b : t) (p : Persistence.t) : Persistence.t :=
  snd (Persistence.set_state "current_skin" (current_skin b) p).

Definition load_current_skin (b : t) (p : Persistence.t) : t * Persistence.t :=
  match Persistence.get_state "current_skin" p with
  | (Some (Some skin), p') =>
      if negb (String.eqb skin EmptyString) && in_SKINS skin
         && bool_decide (skin ∈ owned_skins b)
      then (with_skins b skin (owned_skins b), p')
      else (b, p')
  | (Some None, p') => (b, p')
  | (None, p') => (with_skins b "default" (owned_skins b), p')
  end.

(** [apply_skin] only refreshes the colours used for drawing, which the
    embedding does not carry. *)
Definition apply_skin (b : t) (skin_name : string) : t := b.

Definition init (p : Persistence.t) : t * Persistence.t :=
  let b := mk (WINDOW_WIDTH / 3) (F.of_Z (WINDOW_HEIGHT / 2)) (F.of_Z 0) 30 0
              "default" {["default"%string]} in
  let '(b, p) := load_owned_skins b p in
  let '(b, p) := load_current_skin b p in
  (apply_skin b (current_skin b), p).

Definition set_skin (skin_name : string) (b : t) (p : Persistence.t) : t * Persistence.t :=
  if in_SKINS skin_name && bool_decide (skin_name ∈ owned_skins b) then
    let b := with_skins b skin_name (owned_skins b) in
    let b := apply_skin b skin_name in
    (b, save_current_skin b p)
  else (b, p).

Definition purchase_skin (skin_name : string) (coins : Z) (b : t) (p : Persistence.t)
  : bool * t * Persistence.t :=
  match price skin_name with
  | Some cost =>
      if negb (bool_decide (skin_name ∈ owned_skins b)) && (cost <=? coins) then
        let b := with_skins b (current_skin b) ({[skin_name]} ∪ owned_skins b) in
        (true, b, snd (Persistence.add_owned_skin skin_name p))
      else (false, b, p)
  | None => (false, b, p)
  end.

Definition flap (b : t) : t :=
  mk (x b) (y b) (F.of_Z FLAP_STRENGTH) (size b) 20 (current_skin b) (owned_skins b).

Definition update (b : t) : t :=
  let velocity :=
    if (F.of_Z 0 <? velocity b)%F
    then F.py_min (velocity b * ACCELERATION + GRAVITY)%F (F.of_Z MAX_VELOCITY)
    else (velocity b + GRAVITY)%F in
  let y := (y b + velocity)%F in
  let angle :=
    if (velocity <? F.of_Z 0)%F then 20 else Z.max (-70) (angle b - 4) in
  mk (x b) y velocity (size b) angle (current_skin b) (owned_skins b).

End Bird.

(** ** pygame rectangles

    [pygame.Rect(left, top, width, height)] stores C integers, a float
    argument being truncated; [colliderect] is pygame's overlap test, in
    which a rectangle of zero width or height overlaps nothing and edges
    that merely touch do not count. *)

Module pygame.

Record Rect := mkRect { left : Z; top : Z; width : Z; height : Z }.

Definition colliderect (a b : Rect) : bool :=
  if (width a =? 0) || (height a =? 0) || (width b =? 0) || (height b =? 0)
  then false
  else
    (Z.min (left a) (left a + width a) <? Z.max (left b) (left b + width b))
    && (Z.min (top a) (top a + height a) <? Z.max (top b) (top b + height b))
    && (Z.min (left b) (left b + width b) <? Z.max (left a) (left a + width a))
    && (Z.min (top b) (top b + height b) <? Z.max (top a) (top a + height a)).

Definition collidepoint (r : Rect) (pos : Z * Z) : bool :=
  (left r <=? fst pos) && (fst pos <? left r + width r)
  && (top r <=? snd pos) && (snd pos <? top r + height r).

(** The events the game looks at: [event.type], with [event.key] of a key
    press and [event.button], [event.pos] of a mouse button press; the
    mouse wheel is button 4 (up) or 5 (down).  Keys and event types the
    game does not test for are [K_other] and [OTHER]. *)
Inductive Key := K_SPACE | K_q | K_s | K_other.

Inductive Event :=
| QUIT
| KEYDOWN (key : Key)
| MOUSEBUTTONDOWN (button : Z) (pos : Z * Z)
| MOUSEWHEEL
| OTHER.

End pygame.

(** ** Pipe *)

Module Pipe.

Record t := mk {
  gap_y : Z;
  x : Z;
  width : Z;
  passed : bool
}.

(** [Pipe()]; the argument is the value of [random.randint(150,
    WINDOW_HEIGHT - 150)]. *)
Definition init (gap_y_draw : Z) : t := mk gap_y_draw WINDOW_WIDTH 80 false.

Definition set_passed (p : t) (flag : bool) : t := mk (gap_y p) (x p) (width p) flag.

(** Moves the pipe and tells whether it is still on screen. *)
Definition update (p : t) : t * bool :=
  let p := mk (gap_y p) (x p - PIPE_SPEED) (width p) (passed p) in
  (p, - width p <? x p).

Definition check_collision (p : t) (bird : Bird.t) : bool :=
  let bird_rect :=
    pygame.mkRect (Bird.x bird) (F.trunc (Bird.y bird)) (Bird.size bird) (Bird.size bird) in
  let top_pipe := pygame.mkRect (x p) 0 (width p) (gap_y p - PIPE_GAP / 2) in
  let bottom_pipe :=
    pygame.mkRect (x p) (gap_y p + PIPE_GAP / 2) (width p)
                  (WINDOW_HEIGHT - (gap_y p + PIPE_GAP / 2)) in
  pygame.colliderect bird_rect top_pipe || pygame.colliderect bird_rect bottom_pipe.

End Pipe.

(** ** Coin *)

Module Coin.

Record t := mk {
  x : Z;
  y : float;
  radius : Z;
  is_special : bool;
  value : Z;
  collected : bool;
  bob_range : Z;
  bob_speed : float;
  start_y : Z;
  time : float
}.

(** [Coin(x, y)]; [special_draw] and [phase_draw] are the values of the
    two calls of [random.random()], in that order. *)
Definition init (x y : Z) (special_draw phase_draw : float) : t :=
  let is_special := (special_draw <? F.decimal 1 10)%F in
  mk x (F.of_Z y) 10 is_special (if is_special then 10 else 5) false
     20 (F.decimal 5 100) y (phase_draw * F.decimal 628 100)%F.

Definition set_collected (c : t) (flag : bool) : t :=
  mk (x c) (y c) (radius c) (is_special c) (value c) flag
     (bob_range c) (bob_speed c) (start_y c) (time c).

(** Moves and bobs the coin and tells whether it is still on screen;
    [sin] is [math.sin]. *)
Definition update (sin : float -> float) (c : t) : t * bool :=
  let x := x c - PIPE_SPEED in
  let time := (time c + bob_speed c)%F in
  let y := (F.of_Z (start_y c) + sin time * F.of_Z (bob_range c))%F in
  (mk x y (radius c) (is_special c) (value c) (collected c)
      (bob_range c) (bob_speed c) (start_y c) time,
   - radius c * 2 <? x).

Definition check_collision (c : t) (bird : Bird.t) : bool :=
  let bird_center :=
    (Bird.x bird + Bird.size bird / 2,
     (Bird.y bird + F.of_Z (Bird.size bird / 2))%F) in
  let distance :=
    F.pow_half (F.of_Z ((fst bird_center - x c) ^ 2)
                + F.sqr (snd bird_center - y c))%F in
  (distance <? F.of_Z (radius c + Bird.size bird / 2))%F.

End Coin.

(** ** Shop

    The shop keeps a reference to the game's bird ([self.bird]); the
    functions below take that bird and return it.  Fonts and the drawing are
    left out; [click_rect], the rectangle of the exit button, is computed by
    pygame from the rendered text and is an input of [handle_click]. *)

Module Shop.

Record t := mk {
  active : bool;
  coins : Z;
  scroll_offset : Z
}.

Definition button_height : Z := 50.
Definition button_width : Z := 200.
Definition margin : Z := 10.

Definition save_coins (s : t) (p : Persistence.t) : Persistence.t :=
  snd (Persistence.set_state "coins" (py_str (coins s)) p).

(** The body run for the catalogue entry [(skin_name, skin_data)] whose
    button contains the click. *)
Definition click_button (item : string * Z) (s : t) (bird : Bird.t)
           (p : Persistence.t) : t * Bird.t * Persistence.t :=
  let '(skin_name, skin_price) := item in
  if bool_decide (skin_name ∈ Bird.owned_skins bird) then
    let '(bird, p) := Bird.set_skin skin_name bird p in
    (s, bird, p)
  else if skin_price <=? coins s then
    match Bird.purchase_skin skin_name (coins s) bird p with
    | (true, bird, p) =>
        let s := mk (active s) (coins s - skin_price) (scroll_offset s) in
        let '(bird, p) := Bird.set_skin skin_name bird p in
        (s, bird, save_coins s p)
    | (false, bird, p) => (s, bird, p)
    end
  else (s, bird, p).

(** The loop over [SKINS.items()]; [Some] when a button took the click. *)
Fixpoint click_buttons (items : list (string * Z)) (y_pos : Z) (pos : Z * Z)
         (s : t) (bird : Bird.t) (p : Persistence.t)
  : option (t * Bird.t * Persistence.t) :=
  match items with
  | [] => None
  | item :: rest =>
      let button_rect :=
        pygame.mkRect ((WINDOW_WIDTH - button_width) / 2) y_pos
                      button_width button_height in
      let screen_rect :=
        pygame.mkRect (pygame.left button_rect)
                      (pygame.top button_rect - scroll_offset s + 100)
                      (pygame.width button_rect) (pygame.height button_rect) in
      if pygame.collidepoint screen_rect pos
      then Some (click_button item s bird p)
      else click_buttons rest (y_pos + (button_height + margin)) pos s bird p
  end.

(** The result flag says whether the click was consumed. *)
Definition handle_click (pos : Z * Z) (click_rect : pygame.Rect) (s : t)
           (bird : Bird.t) (p : Persistence.t)
  : bool * (t * Bird.t * Persistence.t) :=
  if negb (active s) then (false, (s, bird, p))
  else
    match click_buttons Bird.SKINS 0 pos s bird p with
    | Some r => (true, r)
    | None =>
        if pygame.collidepoint click_rect pos
        then (true, (mk false (coins s) (scroll_offset s), bird, p))
        else (false, (s, bird, p))
    end.

Definition scroll_speed : Z := 20.

(** [py_int] is the builtin [int] on the stored text; [None] when it
    raises, which the bare [except] turns into a balance of 0. *)
Definition load_coins (py_int : string -> option Z) (s : t) (p : Persistence.t)
  : t * Persistence.t :=
  match Persistence.get_state "coins" p with
  | (Some (Some text), p') =>
      match py_int text with
      | Some n => (mk (active s) n (scroll_offset s), p')
      | None => (mk (active s) 0 (scroll_offset s), p')
      end
  | (Some None, p') => (mk (active s) 0 (scroll_offset s), p')
  | (None, p') => (mk (active s) 0 (scroll_offset s), p')
  end.

(** [Shop(bird)]. *)
Definition init (py_int : string -> option Z) (p : Persistence.t) : t * Persistence.t :=
  load_coins py_int (mk false 0 0) p.

(** The result flag says whether the event was consumed. *)
Definition handle_events (event : pygame.Event) (click_rect : pygame.Rect) (s : t)
           (bird : Bird.t) (p : Persistence.t)
  : bool * (t * Bird.t * Persistence.t) :=
  if negb (active s) then (false, (s, bird, p))
  else
    match event with
    | pygame.MOUSEBUTTONDOWN button pos =>
        if button =? 4 then
          (true, (mk (active s) (coins s) (Z.max 0 (scroll_offset s - scroll_speed)),
                  bird, p))
        else if button =? 5 then
          let max_scroll :=
            Z.of_nat (length Bird.SKINS) * (button_height + margin)
            - (WINDOW_HEIGHT - 150) in
          (true, (mk (active s) (coins s)
                     (Z.min max_scroll (scroll_offset s + scroll_speed)),
                  bird, p))
        else if button =? 1 then handle_click pos click_rect s bird p
        else (false, (s, bird, p))
    | _ => (false, (s, bird, p))
    end.

End Shop.

(** ** Game *)

(** What one tick reads from outside the program: the clock and the random
    draws a spawn would consume. *)
Record Env := mkEnv {
  get_ticks : Z;            (* pygame.time.get_ticks() *)
  gap_y_draw : Z;           (* random.randint(150, WINDOW_HEIGHT - 150) *)
  near_gap_draw : Z;        (* random.randint(-PIPE_GAP//4, PIPE_GAP//4) *)
  safe_area_draw : Z;       (* random.randint(WINDOW_HEIGHT//3, WINDOW_HEIGHT*2//3) *)
  special_draw : float;     (* random.random(), first call of Coin() *)
  phase_draw : float        (* random.random(), second call of Coin() *)
}.

Module Game.

Record t := mk {
  bird : Bird.t;
  pipes : list Pipe.t;
  coins : list Coin.t;
  score : Z;
  high_score : Z;
  last_pipe : Z;
  last_coin : Z;
  game_over : bool;
  shop : Shop.t
}.

Definition set_bird (g : t) (b : Bird.t) : t :=
  mk b (pipes g) (coins g) (score g) (high_score g) (last_pipe g) (last_coin g)
     (game_over g) (shop g).
Definition set_pipes (g : t) (ps : list Pipe.t) : t :=
  mk (bird g) ps (coins g) (score g) (high_score g) (last_pipe g) (last_coin g)
     (game_over g) (shop g).
Definition set_coins (g : t) (cs : list Coin.t) : t :=
  mk (bird g) (pipes g) cs (score g) (high_score g) (last_pipe g) (last_coin g)
     (game_over g) (shop g).
Definition set_score (g : t) (n : Z) : t :=
  mk (bird g) (pipes g) (coins g) n (high_score g) (last_pipe g) (last_coin g)
     (game_over g) (shop g).
Definition set_high_score (g : t) (n : Z) : t :=
  mk (bird g) (pipes g) (coins g) (score g) n (last_pipe g) (last_coin g)
     (game_over g) (shop g).
Definition set_last_pipe (g : t) (now : Z) : t :=
  mk (bird g) (pipes g) (coins g) (score g) (high_score g) now (last_coin g)
     (game_over g) (shop g).
Definition set_last_coin (g : t) (now : Z) : t :=
  mk (bird g) (pipes g) (coins g) (score g) (high_score g) (last_pipe g) now
     (game_over g) (shop g).
Definition set_game_over (g : t) (flag : bool) : t :=
  mk (bird g) (pipes g) (coins g) (score g) (high_score g) (last_pipe g) (last_coin g)
     flag (shop g).
Definition set_shop (g : t) (s : Shop.t) : t :=
  mk (bird g) (pipes g) (coins g) (score g) (high_score g) (last_pipe g) (last_coin g)
     (game_over g) s.

Definition save_high_score (g : t) (p : Persistence.t) : t * Persistence.t :=
  if high_score g <? score g then
    let g := set_high_score g (score g) in
    (g, snd (Persistence.set_state "high_score" (py_str (high_score g)) p))
  else (g, p).

Definition save_coins (g : t) (p : Persistence.t) : Persistence.t :=
  snd (Persistence.set_state "coins" (py_str (Shop.coins (shop g))) p).

(** *** The steps of [update], in the order of the source *)

(** Collision with the top or the bottom of the screen. *)
Definition hits_screen_edge (b : Bird.t) : bool :=
  (Bird.y b <=? F.of_Z 0)%F
  || (F.of_Z WINDOW_HEIGHT <=? Bird.y b + F.of_Z (Bird.size b))%F.

Definition check_screen_edges (g : t) (p : Persistence.t) : t * Persistence.t :=
  if hits_screen_edge (bird g)
  then save_high_score (set_game_over g true) p
  else (g, p).

(** "Create new pipes". *)
Definition create_pipes (e : Env) (g : t) : t :=
  if PIPE_FREQUENCY <? get_ticks e - last_pipe g
  then set_last_pipe (set_pipes g (pipes g ++ [Pipe.init (gap_y_draw e)])) (get_ticks e)
  else g.

(** "Find the rightmost pipe": the first pipe of greatest [x]. *)
Definition rightmost_pipe (ps : list Pipe.t) : option Pipe.t :=
  fold_left
    (fun rightmost pipe =>
       match rightmost with
       | None => Some pipe
       | Some r => if Pipe.x r <? Pipe.x pipe then Some pipe else Some r
       end)
    ps None.

(** "Create new coins". *)
Definition create_coins (e : Env) (g : t) : t :=
  if COIN_FREQUENCY <? get_ticks e - last_coin g then
    let '(coin_x, coin_y) :=
      match rightmost_pipe (pipes g) with
      | Some r =>
          if Pipe.x r <? WINDOW_WIDTH - 100
          then (Pipe.x r + Pipe.width r + 50, Pipe.gap_y r + near_gap_draw e)
          else (WINDOW_WIDTH, safe_area_draw e)
      | None => (WINDOW_WIDTH, safe_area_draw e)
      end in
    set_last_coin
      (set_coins g (coins g ++ [Coin.init coin_x coin_y (special_draw e) (phase_draw e)]))
      (get_ticks e)
  else g.

(** The pass-scoring of one surviving pipe. *)
Definition score_pass (pipe : Pipe.t) (g : t) : Pipe.t * t :=
  if negb (Pipe.passed pipe) && (Pipe.x pipe <? Bird.x (bird g))
  then (Pipe.set_passed pipe true, set_score g (score g + 1))
  else (pipe, g).

(** Body of the loop over [self.pipes]; the accumulator carries
    [surviving_pipes].  The pipe object appended to [surviving_pipes] is
    the one whose [passed] flag is set afterwards, so the list sees the
    flag. *)
Definition pipe_step (acc : list Pipe.t * t * Persistence.t) (pipe : Pipe.t)
  : list Pipe.t * t * Persistence.t :=
  let '(surviving_pipes, g, p) := acc in
  let '(pipe, on_screen) := Pipe.update pipe in
  if on_screen then
    let '(pipe, g) := score_pass pipe g in
    let '(g, p) :=
      if Pipe.check_collision pipe (bird g)
      then save_high_score (set_game_over g true) p
      else (g, p) in
    (surviving_pipes ++ [pipe], g, p)
  else (surviving_pipes, g, p).

(** "Update pipes and check collisions". *)
Definition update_pipes (g : t) (p : Persistence.t) : t * Persistence.t :=
  let '(surviving_pipes, g, p) := fold_left pipe_step (pipes g) ([], g, p) in
  (set_pipes g surviving_pipes, p).

(** Body of the loop over [self.coins]; the first component of the result
    is the coin object as the iteration leaves it. *)
Definition coin_step (sin : float -> float)
           (acc : list Coin.t * t * Persistence.t) (coin : Coin.t)
  : Coin.t * (list Coin.t * t * Persistence.t) :=
  let '(surviving_coins, g, p) := acc in
  if Coin.collected coin then (coin, (surviving_coins, g, p))
  else
    let '(coin, on_screen) := Coin.update sin coin in
    if on_screen then
      if Coin.check_collision coin (bird g) then
        let coin := Coin.set_collected coin true in
        let s := shop g in
        let g := set_shop g (Shop.mk (Shop.active s) (Shop.coins s + Coin.value coin)
                                     (Shop.scroll_offset s)) in
        (coin, (surviving_coins, g, save_coins g p))
      else (coin, (surviving_coins ++ [coin], g, p))
    else (coin, (surviving_coins, g, p)).

(** "Update coins and check collections". *)
Definition update_coins (sin : float -> float) (g : t) (p : Persistence.t)
  : t * Persistence.t :=
  let '(surviving_coins, g, p) :=
    fold_left (fun acc coin => snd (coin_step sin acc coin)) (coins g) ([], g, p) in
  (set_coins g surviving_coins, p).

(** The steps that follow the screen-edge check. *)
Definition spawn_and_move (sin : float -> float) (e : Env) (g : t) (p : Persistence.t)
  : t * Persistence.t :=
  let g := create_pipes e g in
  let g := create_coins e g in
  let '(g, p) := update_pipes g p in
  update_coins sin g p.

Definition update (sin : float -> float) (e : Env) (g : t) (p : Persistence.t)
  : t * Persistence.t :=
  if negb (game_over g) && negb (Shop.active (shop g)) then
    let g := set_bird g (Bird.update (bird g)) in
    let '(g, p) := check_screen_edges g p in
    spawn_and_move sin e g p
  else (g, p).

(** *** Construction and input *)

Definition load_high_score (py_int : string -> option Z) (p : Persistence.t)
  : Z * Persistence.t :=
  match Persistence.get_state "high_score" p with
  | (Some (Some text), p') =>
      match py_int text with
      | Some n => (n, p')
      | None => (0, p')
      end
  | (Some None, p') => (0, p')
  | (None, p') => (0, p')
  end.

Definition load_saved_coins (py_int : string -> option Z) (g : t) (p : Persistence.t)
  : t * Persistence.t :=
  let s := shop g in
  match Persistence.get_state "coins" p with
  | (Some (Some text), p') =>
      match py_int text with
      | Some n => (set_shop g (Shop.mk (Shop.active s) n (Shop.scroll_offset s)), p')
      | None => (set_shop g (Shop.mk (Shop.active s) 0 (Shop.scroll_offset s)), p')
      end
  | (Some None, p') => (set_shop g (Shop.mk (Shop.active s) 0 (Shop.scroll_offset s)), p')
  | (None, p') => (set_shop g (Shop.mk (Shop.active s) 0 (Shop.scroll_offset s)), p')
  end.

(** [Game()]; [ticks] holds the values of the two calls of
    [pygame.time.get_ticks()]. *)
Definition init (py_int : string -> option Z) (ticks : Z * Z) (p : Persistence.t)
  : t * Persistence.t :=
  let '(bird, p) := Bird.init p in
  let '(high_score, p) := load_high_score py_int p in
  let '(shop, p) := Shop.init py_int p in
  load_saved_coins py_int (mk bird [] [] 0 high_score (fst ticks) (snd ticks) false shop) p.

(** One event of the loop of [handle_events]; the flag is [false] when the
    loop returns [False] at this event.  [ticks] is what the clock would
    answer to a reset, [click_rect] the rectangle of the shop's exit
    button. *)
Definition handle_event (py_int : string -> option Z) (ticks : Z * Z)
           (click_rect : pygame.Rect) (event : pygame.Event) (g : t) (p : Persistence.t)
  : bool * t * Persistence.t :=
  match event with
  | pygame.QUIT => (false, g, save_coins g p)
  | pygame.KEYDOWN key =>
      match key with
      | pygame.K_SPACE =>
          if game_over g then
            let '(g, p) := init py_int ticks p in (true, g, p)
          else if negb (Shop.active (shop g)) then
            (true, set_bird g (Bird.flap (bird g)), p)
          else (true, g, p)
      | pygame.K_q => (false, g, save_coins g p)
      | pygame.K_s =>
          if negb (game_over g) then
            let s := shop g in
            (true,
             set_shop g (Shop.mk (negb (Shop.active s)) (Shop.coins s) (Shop.scroll_offset s)),
             p)
          else (true, g, p)
      | pygame.K_other => (true, g, p)
      end
  | pygame.MOUSEBUTTONDOWN _ _ | pygame.MOUSEWHEEL =>
      if Shop.active (shop g) then
        let '(_, (s, b, p)) := Shop.handle_events event click_rect (shop g) (bird g) p in
        (true, set_shop (set_bird g b) s, p)
      else (true, g, p)
  | pygame.OTHER => (true, g, p)
  end.

(** The loop over [pygame.event.get()]; the flag is the value returned. *)
Fixpoint handle_events (py_int : string -> option Z) (ticks : Z * Z)
         (click_rect : pygame.Rect) (events : list pygame.Event) (g : t)
         (p : Persistence.t) : bool * t * Persistence.t :=
  match events with
  | [] => (true, g, p)
  | event :: rest =>
      match handle_event py_int ticks click_rect event g p with
      | (true, g, p) => handle_events py_int ticks click_rect rest g p
      | (false, g, p) => (false, g, p)
      end
  end.

End Game.

(** ** The main loop *)

(** What one pass of the loop of [main] reads from outside: the pending
    events, the clock and the draws of the tick, and the clock answers a
    reset would get. *)
Record Frame := mkFrame {
  events : list pygame.Event;
  reset_ticks : Z * Z;
  frame_env : Env
}.

(** One pass: [handle_events], then [update] (which runs even when
    [handle_events] has returned [False]); the drawing is left out.  The
    flag is the new value of [running]. *)
Definition main_pass (py_int : string -> option Z) (sin : float -> float)
           (click_rect : pygame.Rect) (f : Frame) (g : Game.t) (p : Persistence.t)
  : bool * Game.t * Persistence.t :=
  let '(running, g, p) :=
    Game.handle_events py_int (reset_ticks f) click_rect (events f) g p in
  let '(g, p) := Game.update sin (frame_env f) g p in
  (running, g, p).

(** The loop of [main] over the frames given: it stops at the first pass
    that clears [running], or when the frames run out. *)
Fixpoint main_loop (py_int : string -> option Z) (sin : float -> float)
         (click_rect : pygame.Rect) (frames : list Frame) (g : Game.t)
         (p : Persistence.t) : bool * Game.t * Persistence.t :=
  match frames with
  | [] => (true, g, p)
  | f :: rest =>
      match main_pass py_int sin click_rect f g p with
      | (true, g, p) => main_loop py_int sin click_rect rest g p
      | (false, g, p) => (false, g, p)
      end
  end.

(** * Notions used by the statements *)

(** ** Numbers *)

(** A number (not NaN) of sign [s]. *)
Definition signed (s : bool) (a : float) : Prop :=
  match a with
  | S754_nan => False
  | S754_zero s' | S754_infinity s' | S754_finite s' _ _ => s' = s
  end.

(** ** Runs of the bird *)

Inductive bird_op :=
| Flap
| Update
| SetSkin (skin_name : string)
| PurchaseSkin (skin_name : string) (coins : Z).

Definition bird_step (bp : Bird.t * Persistence.t) (op : bird_op) : Bird.t * Persistence.t :=
  let '(b, p) := bp in
  match op with
  | Flap => (Bird.flap b, p)
  | Update => (Bird.update b, p)
  | SetSkin skin_name => Bird.set_skin skin_name b p
  | PurchaseSkin skin_name coins =>
      let '(_, b, p) := Bird.purchase_skin skin_name coins b p in (b, p)
  end.

(** The bird after construction followed by the operations [ops]. *)
Definition bird_run (p : Persistence.t) (ops : list bird_op) : Bird.t * Persistence.t :=
  fold_left bird_step ops (Bird.init p).

(** What the specification says of one integration step: the new velocity
    and the new position. *)
Definition integrate_spec (velocity y : float) : float * float :=
  let velocity' :=
    if (F.of_Z 0 <? velocity)%F
    then F.py_min (velocity * ACCELERATION + GRAVITY)%F (F.of_Z MAX_VELOCITY)
    else (velocity + GRAVITY)%F in
  (velocity', (y + velocity')%F).

Definition angle_ok (b : Bird.t) : Prop := -70 <= Bird.angle b <= 20.

(** [b'] has the position, velocity and angle of [b]. *)
Definition same_physics (b b' : Bird.t) : Prop :=
  Bird.x b' = Bird.x b /\ Bird.y b' = Bird.y b
  /\ Bird.velocity b' = Bird.velocity b /\ Bird.angle b' = Bird.angle b.

Definition skins_ok (b : Bird.t) : Prop :=
  "default"%string ∈ Bird.owned_skins b /\ Bird.current_skin b ∈ Bird.owned_skins b.

(** ** The tick *)

(** What a step of the tick may change besides the lists: the relation
    keeps the bird and the shop mode and never clears the game-over
    flag. *)
Definition keeps_mode (g g' : Game.t) : Prop :=
  Game.bird g' = Game.bird g
  /\ Shop.active (Game.shop g') = Shop.active (Game.shop g)
  /\ (Game.game_over g = true -> Game.game_over g' = true).

(** The score one pipe earns over its life: [gs] lists the game states in
    which the loop of successive ticks finds the pipe; the loop moves the
    pipe and, while it stays on screen, runs the pass-scoring on it.  The
    first component adds up the score increments of these ticks. *)
Fixpoint pipe_life (gs : list Game.t) (pipe : Pipe.t) : Z * Pipe.t :=
  match gs with
  | [] => (0, pipe)
  | g :: gs' =>
      let '(pipe, on_screen) := Pipe.update pipe in
      if on_screen then
        let '(pipe, g') := Game.score_pass pipe g in
        let '(awarded, pipe) := pipe_life gs' pipe in
        (Game.score g' - Game.score g + awarded, pipe)
      else (0, pipe)
  end.

(** The loop over the coins of a tick. *)
Definition coin_loop (sin : float -> float) (cs : list Coin.t)
           (acc : list Coin.t * Game.t * Persistence.t) :=
  fold_left (fun acc coin => snd (Game.coin_step sin acc coin)) cs acc.

(** Distance between the centre of the bird's box and the centre of the
    coin. *)
Definition bird_center (b : Bird.t) : Z * float :=
  (Bird.x b + Bird.size b / 2, (Bird.y b + F.of_Z (Bird.size b / 2))%F).

Definition center_distance (c : Coin.t) (b : Bird.t) : float :=
  F.sqrt (F.of_Z ((fst (bird_center b) - Coin.x c) ^ 2)
          + F.sqr (snd (bird_center b) - Coin.y c))%F.

(** ** Concrete states *)

(** An empty, healthy store and the bird constructed over it. *)
Definition fresh_store : Persistence.t := Persistence.mk ∅ ∅ [].
Definition fresh_bird : Bird.t := fst (Bird.init fresh_store).

(** A bird falling at 9.9: the step caps the velocity at 10. *)
Definition falling_bird : Bird.t :=
  Bird.mk 133 (F.of_Z 300) (F.decimal 99 10) 30 0 "default" {["default"%string]}.

(** A tick on which the bird leaves through the top of the screen just as
    the first pipe is due: the bird, at y = 3 with velocity -6 after a
    flap, rises to y = -2.5; no pipe and no coin is alive (so [math.sin] is
    never called); 1600 ms have passed since the game started. *)
Definition edge_game : Game.t :=
  Game.mk (Bird.mk 133 (F.of_Z 3) (F.of_Z (-6)) 30 20 "default" {["default"%string]})
          [] [] 0 0 0 0 false (Shop.mk false 0 0).
Definition edge_env : Env := mkEnv 1600 250 0 300 (F.of_Z 0) (F.of_Z 0).
Definition no_sin : float -> float := fun _ => F.of_Z 0.

(** A bird whose centre is at (148, 295) and a coin at height 315: at
    [x = 133] the centres are exactly 25 apart (15 across, 20 down). *)
Definition bird_at_280 : Bird.t :=
  Bird.mk 133 (F.of_Z 280) (F.of_Z 0) 30 0 "default" {["default"%string]}.
Definition coin_at (x : Z) : Coin.t :=
  Coin.mk x (F.of_Z 315) 10 false 5 false 20 (F.decimal 5 100) 315 (F.of_Z 0).

(** A game with that bird, 7 coins in the shop and one coin about to move
    under the bird. *)
Definition coin_game : Game.t :=
  Game.mk bird_at_280 [] [coin_at 151] 0 0 0 0 false (Shop.mk false 7 0).

(** * Notions used by the further properties *)

(** ** The store, seen from a new session *)

(** No call to come raises. *)
Definition healthy (p : Persistence.t) : Prop := Persistence.faults p = [].

(** The store after a call that changes no table. *)
Definition after_call (p : Persistence.t) : Persistence.t :=
  Persistence.mk (Persistence.state p) (Persistence.owned_skins p) (tl (Persistence.faults p)).

(** What [load_coins], [load_saved_coins] and [load_high_score] make of the
    text under [key]. *)
Definition stored_int (py_int : string -> option Z) (key : string) (p : Persistence.t) : Z :=
  match Persistence.state p !! key with
  | Some text => match py_int text with Some n => n | None => 0 end
  | None => 0
  end.

(** The skin [load_current_skin] equips over the owned set [owned]. *)
Definition stored_skin (p : Persistence.t) (owned : gset string) : string :=
  match Persistence.state p !! "current_skin"%string with
  | Some skin =>
      if negb (String.eqb skin EmptyString) && Bird.in_SKINS skin
         && bool_decide (skin ∈ owned)
      then skin else "default"%string
  | None => "default"%string
  end.

(** ** Reading decimal text

    [int] is Python's; the statements take it as a parameter.  This reader
    of plain decimal text, which reads back what [py_str] writes, stands for
    it in the examples. *)

Definition digit_of (c : Ascii.ascii) : option N :=
  let n := Ascii.N_of_ascii c in
  if ((48 <=? n) && (n <=? 57))%N then Some (n - 48)%N else None.

Fixpoint parse_digits (s : string) (acc : N) : option N :=
  match s with
  | EmptyString => Some acc
  | String c s' =>
      match digit_of c with
      | Some d => parse_digits s' (acc * 10 + d)%N
      | None => None
      end
  end.

Definition parse_natural (s : string) : option N :=
  match s with
  | EmptyString => None
  | _ => parse_digits s 0%N
  end.

Definition parse_decimal (s : string) : option Z :=
  match s with
  | String "-"%char s' => option_map (fun n => - Z.of_N n) (parse_natural s')
  | _ => option_map Z.of_N (parse_natural s)
  end.

(** ** Pipes *)

(** A pipe after its move of the tick, whether it is then on screen, and
    the pass-scoring mark for a bird at [bird_x]. *)
Definition moved (q : Pipe.t) : Pipe.t := fst (Pipe.update q).
Definition on_screen (q : Pipe.t) : bool := - Pipe.width q <? Pipe.x q.
Definition newly_passed (bird_x : Z) (q : Pipe.t) : bool :=
  negb (Pipe.passed q) && (Pipe.x q <? bird_x).
Definition mark (bird_x : Z) (q : Pipe.t) : Pipe.t :=
  if newly_passed bird_x q then Pipe.set_passed q true else q.

(** The pipes a tick keeps, in their order. *)
Definition surviving_pipes (bird_x : Z) (ps : list Pipe.t) : list Pipe.t :=
  map (mark bird_x) (List.filter on_screen (map moved ps)).

(** [n] moves of a pipe. *)
Definition moved_times (n : nat) (q : Pipe.t) : Pipe.t := Nat.iter n moved q.

(** ** The loop over the pipes *)

(** What the pipe loop may change in the game besides the list it builds:
    the score goes up by [n], the flag may be set, the high score may rise
    up to the score. *)
Definition pipe_loop_changes (n : Z) (hit : bool) (g g' : Game.t) : Prop :=
  Game.bird g' = Game.bird g /\ Game.pipes g' = Game.pipes g
  /\ Game.coins g' = Game.coins g /\ Game.shop g' = Game.shop g
  /\ Game.last_pipe g' = Game.last_pipe g /\ Game.last_coin g' = Game.last_coin g
  /\ Game.score g' = Game.score g + n
  /\ Game.game_over g' = Game.game_over g || hit
  /\ Game.high_score g <= Game.high_score g' <= Z.max (Game.high_score g) (Game.score g').

(** The points and the collisions of the pipes of a tick. *)
Definition points (bx : Z) (ps : list Pipe.t) : Z :=
  Z.of_nat (length (List.filter (newly_passed bx) (List.filter on_screen (map moved ps)))).

(** ** The loop over the coins *)

Definition coin_moved (sin : float -> float) (c : Coin.t) : Coin.t := fst (Coin.update sin c).
Definition coin_on_screen (c : Coin.t) : bool := - Coin.radius c * 2 <? Coin.x c.

(** The coins of the list that are not collected yet, moved, and still on
    screen; those among them the bird [b] touches, and the others. *)
Definition live_coins (sin : float -> float) (cs : list Coin.t) : list Coin.t :=
  List.filter coin_on_screen
    (map (coin_moved sin) (List.filter (fun c => negb (Coin.collected c)) cs)).
Definition touched_coins (sin : float -> float) (b : Bird.t) (cs : list Coin.t) :=
  List.filter (fun c => Coin.check_collision c b) (live_coins sin cs).
Definition surviving_coins (sin : float -> float) (b : Bird.t) (cs : list Coin.t) :=
  List.filter (fun c => negb (Coin.check_collision c b)) (live_coins sin cs).

Definition total_value (cs : list Coin.t) : Z := fold_right Z.add 0 (map Coin.value cs).

(** What the coin loop may change in the game besides the list it builds:
    the balance of the shop goes up by [n]. *)
Definition coin_loop_changes (n : Z) (g g' : Game.t) : Prop :=
  Game.bird g' = Game.bird g /\ Game.pipes g' = Game.pipes g
  /\ Game.coins g' = Game.coins g
  /\ Game.score g' = Game.score g /\ Game.high_score g' = Game.high_score g
  /\ Game.last_pipe g' = Game.last_pipe g /\ Game.last_coin g' = Game.last_coin g
  /\ Game.game_over g' = Game.game_over g
  /\ Shop.active (Game.shop g') = Shop.active (Game.shop g)
  /\ Shop.scroll_offset (Game.shop g') = Shop.scroll_offset (Game.shop g)
  /\ Shop.coins (Game.shop g') = Shop.coins (Game.shop g) + n.

(** ** The whole program *)

(** [main()]: the game is constructed, then the loop runs over the frames
    given. *)
Definition main (py_int : string -> option Z) (sin : float -> float)
           (click_rect : pygame.Rect) (ticks : Z * Z) (frames : list Frame)
           (p : Persistence.t) : bool * Game.t * Persistence.t :=
  let '(g, p) := Game.init py_int ticks p in
  main_loop py_int sin click_rect frames g p.

(** ** What holds between two passes of the loop *)

(** The velocity is one of the thirteen values -6, -5.5, ..., 0 of a
    rise, or a number of positive sign that is at most [MAX_VELOCITY]. *)
Definition velocity_ok (v : float) : Prop :=
  (exists k : Z, -12 <= k <= 0 /\ v = F.decimal k 2)
  \/ (signed false v /\ (v <=? F.of_Z MAX_VELOCITY)%F = true).

(** [b'] is [b] but for the skins. *)
Definition same_body (b b' : Bird.t) : Prop :=
  Bird.x b' = Bird.x b /\ Bird.y b' = Bird.y b /\ Bird.velocity b' = Bird.velocity b
  /\ Bird.size b' = Bird.size b /\ Bird.angle b' = Bird.angle b.

(** [b'] occupies the box of [b]. *)
Definition same_box (b b' : Bird.t) : Prop :=
  Bird.x b' = Bird.x b /\ Bird.y b' = Bird.y b /\ Bird.size b' = Bird.size b.

(** The bird between two passes: at its place, with an angle and a
    velocity within their bounds, wearing a skin of the catalogue that it
    owns. *)
Definition bird_ok (b : Bird.t) : Prop :=
  Bird.x b = WINDOW_WIDTH / 3 /\ Bird.size b = 30 /\ angle_ok b /\ skins_ok b
  /\ Bird.in_SKINS (Bird.current_skin b) = true /\ velocity_ok (Bird.velocity b).

(** A pipe between two passes: it has moved at least once and is on
    screen, and it is marked as passed exactly when its left edge is left
    of the bird's. *)
Definition pipe_ok (bird_x : Z) (q : Pipe.t) : Prop :=
  Pipe.width q = 80 /\ - 80 < Pipe.x q <= WINDOW_WIDTH - PIPE_SPEED
  /\ Pipe.passed q = (Pipe.x q <? bird_x).

Definition left_of (a b : Pipe.t) : Prop := Pipe.x a < Pipe.x b.

(** A coin between two passes: not collected, on screen, not touching the
    bird [b]. *)
Definition coin_ok (b : Bird.t) (c : Coin.t) : Prop :=
  Coin.collected c = false /\ Coin.radius c = 10
  /\ Coin.value c = (if Coin.is_special c then 10 else 5)
  /\ - 20 < Coin.x c < WINDOW_WIDTH + 30
  /\ Coin.check_collision c b = false.

(** While the game is not over, the bird is inside the screen and clear
    of every pipe. *)
Definition in_play (g : Game.t) : Prop :=
  Game.game_over g = false ->
  Game.hits_screen_edge (Game.bird g) = false
  /\ Forall (fun q => Pipe.check_collision q (Game.bird g) = false) (Game.pipes g).

(** What holds of the game between two passes of the loop: the game is
    not over with the shop open; the bird, the pipes and the coins are
    well formed, the pipes listed from left to right; the scroll offset
    is within its bounds and the score not negative. *)
Definition sound (g : Game.t) : Prop :=
  Game.game_over g && Shop.active (Game.shop g) = false
  /\ bird_ok (Game.bird g)
  /\ Forall (pipe_ok (Bird.x (Game.bird g))) (Game.pipes g)
  /\ StronglySorted left_of (Game.pipes g)
  /\ Forall (coin_ok (Game.bird g)) (Game.coins g)
  /\ 0 <= Shop.scroll_offset (Game.shop g) <= 90
  /\ 0 <= Game.score g
  /\ in_play g.

(** The pipes and the coins a tick may add. *)
Definition new_pipes (e : Env) (g : Game.t) : list Pipe.t :=
  if PIPE_FREQUENCY <? get_ticks e - Game.last_pipe g then [Pipe.init (gap_y_draw e)] else [].

(** Where a new coin goes, given the pipes. *)
Definition coin_spot (e : Env) (ps : list Pipe.t) : Z * Z :=
  match Game.rightmost_pipe ps with
  | Some r =>
      if Pipe.x r <? WINDOW_WIDTH - 100
      then (Pipe.x r + Pipe.width r + 50, Pipe.gap_y r + near_gap_draw e)
      else (WINDOW_WIDTH, safe_area_draw e)
  | None => (WINDOW_WIDTH, safe_area_draw e)
  end.

Definition coins_due (e : Env) (last_coin : Z) (ps : list Pipe.t) : list Coin.t :=
  if COIN_FREQUENCY <? get_ticks e - last_coin
  then [Coin.init (fst (coin_spot e ps)) (snd (coin_spot e ps))
                  (special_draw e) (phase_draw e)]
  else [].

Definition new_coins (e : Env) (g : Game.t) : list Coin.t :=
  coins_due e (Game.last_coin g) (Game.pipes g ++ new_pipes e g).

(** What the shop may do to itself and to the bird: the bird changes
    skins only, the shop may close but never opens, and the scroll offset
    stays within its bounds. *)
Definition shop_changes (s : Shop.t) (b : Bird.t) (s' : Shop.t) (b' : Bird.t) : Prop :=
  same_body b b'
  /\ (skins_ok b -> skins_ok b')
  /\ (Bird.in_SKINS (Bird.current_skin b) = true ->
      Bird.in_SKINS (Bird.current_skin b') = true)
  /\ (Shop.active s' = true -> Shop.active s = true)
  /\ (0 <= Shop.scroll_offset s <= 90 -> 0 <= Shop.scroll_offset s' <= 90).

(** ** The store mirrors the session *)

(** The balance, the high score and the skins of the session are what a
    new session would load from the store, and no call to come raises. *)
Definition mirrors_of (py_int : string -> option Z) (coins high_score : Z) (b : Bird.t)
           (p : Persistence.t) : Prop :=
  healthy p
  /\ coins = stored_int py_int "coins" p
  /\ high_score = stored_int py_int "high_score" p
  /\ Bird.owned_skins b = Persistence.owned_skins p ∪ {["default"%string]}
  /\ Bird.current_skin b = stored_skin p (Bird.owned_skins b).

Definition mirrors (py_int : string -> option Z) (g : Game.t) (p : Persistence.t) : Prop :=
  mirrors_of py_int (Shop.coins (Game.shop g)) (Game.high_score g) (Game.bird g) p.

(** ** Clicks in the shop *)

(** The click [pos] falls on the [k]-th button as the shop [s] shows
    it. *)
Definition in_button (s : Shop.t) (k : nat) (pos : Z * Z) : Prop :=
  100 <= fst pos < 300
  /\ 60 * Z.of_nat k - Shop.scroll_offset s + 100 <= snd pos
     < 60 * Z.of_nat k - Shop.scroll_offset s + 150.

(** What the skins of the catalogue that are in [owned] have cost. *)
Definition worth_of (items : list (string * Z)) (owned : gset string) : Z :=
  fold_right (fun item acc => (if bool_decide (fst item ∈ owned) then snd item else 0) + acc)
             0 items.

Definition worth (owned : gset string) : Z := worth_of Bird.SKINS owned.

(** The money before and after: the balance and the worth of the owned
    skins add up as before, the balance does not grow and does not fall
    below zero (or below what it was, if that was negative), and no skin
    is lost. *)
Definition money_kept (s : Shop.t) (b : Bird.t) (s' : Shop.t) (b' : Bird.t) : Prop :=
  Shop.coins s' + worth (Bird.owned_skins b') = Shop.coins s + worth (Bird.owned_skins b)
  /\ Z.min 0 (Shop.coins s) <= Shop.coins s' <= Shop.coins s
  /\ Bird.owned_skins b ⊆ Bird.owned_skins b'.

(** ** Quitting and pausing *)

Definition is_quit (event : pygame.Event) : bool :=
  match event with
  | pygame.QUIT | pygame.KEYDOWN pygame.K_q => true
  | _ => false
  end.

(** [g'] shows the world of [g]: the same pipes, coins, score and flags,
    and a bird that differs by its skins at most. *)
Definition same_world (g g' : Game.t) : Prop :=
  same_body (Game.bird g) (Game.bird g')
  /\ Game.pipes g' = Game.pipes g /\ Game.coins g' = Game.coins g
  /\ Game.score g' = Game.score g /\ Game.high_score g' = Game.high_score g
  /\ Game.game_over g' = Game.game_over g
  /\ Game.last_pipe g' = Game.last_pipe g /\ Game.last_coin g' = Game.last_coin g.

(** ** Concrete sessions *)

(** A healthy store with a balance of 500; a rectangle for the exit
    button, around (200, 550) where its text is centred; and a short
    session: open the shop and click the second button, close the shop
    and flap, quit. *)
Definition rich_store : Persistence.t :=
  Persistence.mk {["coins"%string := "500"%string]} ∅ [].

Definition exit_rect : pygame.Rect := pygame.mkRect 110 532 180 36.

Definition shopping_frames : list Frame :=
  [ mkFrame [pygame.KEYDOWN pygame.K_s; pygame.MOUSEBUTTONDOWN 1 (150, 170)] (0, 0) edge_env;
    mkFrame [pygame.KEYDOWN pygame.K_s; pygame.KEYDOWN pygame.K_SPACE] (0, 0) edge_env;
    mkFrame [pygame.QUIT] (0, 0) edge_env ].


(** A new game over an empty store, and a game paused in the shop with
    a balance of 500. *)
Definition new_game : Game.t :=
  Game.mk fresh_bird [] [] 0 0 0 0 false (Shop.mk false 0 0).

Definition paused_game : Game.t :=
  Game.mk fresh_bird [] [] 0 0 0 0 false (Shop.mk true 500 0).

(** A frame in which the window is closed between two key presses. *)
Definition quit_frame : Frame :=
  mkFrame [pygame.KEYDOWN pygame.K_SPACE; pygame.QUIT; pygame.KEYDOWN pygame.K_s]
          (0, 0) edge_env.

(** [n] moves of a coin. *)
Definition coin_moved_times (sin : float -> float) (n : nat) (c : Coin.t) : Coin.t :=
  Nat.iter n (coin_moved sin) c.

(** Two pipes, the second one further right. *)
Definition two_pipes : list Pipe.t := [Pipe.mk 300 100 80 true; Pipe.mk 250 370 80 false].

(** * Facts on binary64 arithmetic *)

Section Binary64.

Lemma iter_xO_value (p d : positive) :
  Zpos (Pos.iter xO p d) = Zpos p * 2 ^ Zpos d.
Proof.
  induction d as [|d IH] using Pos.peano_ind.
  - simpl. lia.
  - rewrite Pos.iter_succ, Pos2Z.inj_succ, Z.pow_succ_r by lia.
    rewrite Pos2Z.inj_xO, IH. lia.
Qed.

Lemma iter_xO_digits (p d : positive) :
  digits2_pos (Pos.iter xO p d) = (digits2_pos p + d)%positive.
Proof.
  induction d as [|d IH] using Pos.peano_ind.
  - simpl. lia.
  - rewrite Pos.iter_succ. simpl. rewrite IH. lia.
Qed.

Lemma digits2_pos_le (p : positive) : forall k, Zpos p < 2 ^ k -> 0 <= k -> Zpos (digits2_pos p) <= k.
Proof.
  induction p as [p IH|p IH|]; intros k Hk Hk0; simpl.
  - assert (k <> 0) by (intros ->; simpl in Hk; lia).
    assert (Hp : Zpos p < 2 ^ (k - 1)).
    { replace k with (Z.succ (k - 1)) in Hk by lia. rewrite Z.pow_succ_r in Hk by lia. lia. }
    specialize (IH (k - 1) Hp). lia.
  - assert (k <> 0) by (intros ->; simpl in Hk; lia).
    assert (Hp : Zpos p < 2 ^ (k - 1)).
    { replace k with (Z.succ (k - 1)) in Hk by lia. rewrite Z.pow_succ_r in Hk by lia. lia. }
    specialize (IH (k - 1) Hp). lia.
  - assert (k <> 0) by (intros ->; simpl in Hk; lia). lia.
Qed.

Lemma digits2_pos_gt (p : positive) : Zpos p < 2 ^ Zpos (digits2_pos p).
Proof.
  induction p as [p IH|p IH|]; simpl digits2_pos;
    rewrite ?Pos2Z.inj_succ, ?Z.pow_succ_r by lia; lia.
Qed.

Lemma Zdigits2_le (m k : Z) : 0 <= m < 2 ^ k -> 0 <= k -> Zdigits2 m <= k.
Proof.
  intros [Hm Hk] Hk0. destruct m as [|p|p]; simpl; try lia.
  now apply digits2_pos_le.
Qed.

Lemma Zdigits2_gt (m : Z) : 0 <= m -> m < 2 ^ Zdigits2 m.
Proof.
  intros Hm. destruct m as [|p|p]; simpl; try lia. apply digits2_pos_gt.
Qed.

Lemma Zdigits2_nonneg (m : Z) : 0 <= Zdigits2 m.
Proof. destruct m; simpl; lia. Qed.

(** *** Right shifts *)

Lemma shr_1_bound (r : shr_record) (k : Z) :
  0 <= shr_m r < 2 ^ k -> 0 <= k ->
  0 <= shr_m (shr_1 r) < 2 ^ Z.max 0 (k - 1).
Proof.
  intros [Hm Hk] Hk0. destruct r as [m rr ss]. simpl in *.
  destruct (Z.eq_dec k 0) as [->|Hne].
  - simpl in Hk. assert (m = 0) by lia. subst m. simpl. lia.
  - replace (Z.max 0 (k - 1)) with (k - 1) by lia.
    replace k with (Z.succ (k - 1)) in Hk by lia.
    rewrite Z.pow_succ_r in Hk by lia.
    destruct m as [|[p|p|]|p]; simpl; lia.
Qed.

Lemma iter_shr_1_bound (n : positive) :
  forall (r : shr_record) (k : Z),
    0 <= shr_m r < 2 ^ k -> 0 <= k ->
    0 <= shr_m (SpecFloat.iter_pos shr_1 n r) < 2 ^ Z.max 0 (k - Zpos n).
Proof.
  induction n as [n IH|n IH|]; intros r k Hr Hk; simpl.
  - replace (Z.max 0 (k - Zpos n~1))
      with (Z.max 0 (Z.max 0 (Z.max 0 (k - 1) - Zpos n) - Zpos n)) by lia.
    apply IH; [|lia]. apply IH; [|lia]. now apply shr_1_bound.
  - replace (Z.max 0 (k - Zpos n~0))
      with (Z.max 0 (Z.max 0 (k - Zpos n) - Zpos n)) by lia.
    apply IH; [|lia]. now apply IH.
  - now apply shr_1_bound.
Qed.

Lemma shr_m_of_loc (m : Z) (l : location) : shr_m (shr_record_of_loc m l) = m.
Proof. destruct l as [|[| |]]; reflexivity. Qed.

(** The first result of [shr_fexp] has at most [prec] digits and the
    exponent is the larger of the given one and the canonical one. *)
Lemma shr_fexp_bound (m e : Z) (l : location) :
  0 <= m ->
  let '(r, e') := shr_fexp F.prec F.emax m e l in
  0 <= shr_m r < 2 ^ F.prec
  /\ e' = Z.max e (fexp F.prec F.emax (Zdigits2 m + e)).
Proof.
  intros Hm. unfold shr_fexp, shr.
  pose proof (Zdigits2_gt m Hm) as Hd.
  pose proof (Zdigits2_nonneg m) as Hd0.
  set (d := Zdigits2 m) in *.
  assert (Hf : d + e - F.prec <= fexp F.prec F.emax (d + e)) by (unfold fexp; lia).
  destruct (fexp F.prec F.emax (d + e) - e) as [|n|n] eqn:Hn.
  - rewrite shr_m_of_loc. split; [|lia]. split; [lia|].
    eapply Z.lt_le_trans; [exact Hd|]. apply Z.pow_le_mono_r; unfold F.prec in *; lia.
  - split; [|lia].
    pose proof (iter_shr_1_bound n (shr_record_of_loc m l) d) as Hb.
    rewrite shr_m_of_loc in Hb. destruct Hb as [Hb1 Hb2]; [lia|lia|].
    split; [lia|]. eapply Z.lt_le_trans; [exact Hb2|].
    apply Z.pow_le_mono_r; unfold F.prec in *; lia.
  - rewrite shr_m_of_loc. split; [|lia]. split; [lia|].
    eapply Z.lt_le_trans; [exact Hd|]. apply Z.pow_le_mono_r; unfold F.prec in *; lia.
Qed.

Lemma round_nearest_even_bound (m : Z) (l : location) :
  m <= round_nearest_even m l <= m + 1.
Proof.
  destruct l as [|[| |]]; simpl; try lia. destruct (Z.even m); lia.
Qed.

(** Rounding a non-negative mantissa never makes a NaN and keeps the
    sign. *)
Lemma binary_round_aux_signed (s : bool) (m e : Z) (l : location) :
  0 <= m -> signed s (binary_round_aux F.prec F.emax s m e l).
Proof.
  intros Hm. unfold binary_round_aux.
  pose proof (shr_fexp_bound m e l Hm) as H1.
  destruct (shr_fexp F.prec F.emax m e l) as [r1 e1]. destruct H1 as [[H1 _] _].
  pose proof (round_nearest_even_bound (shr_m r1) (loc_of_shr_record r1)) as Hr.
  set (m2 := round_nearest_even (shr_m r1) (loc_of_shr_record r1)) in *.
  pose proof (shr_fexp_bound m2 e1 loc_Exact ltac:(lia)) as H2.
  destruct (shr_fexp F.prec F.emax m2 e1 loc_Exact) as [r2 e2].
  destruct H2 as [[H2 _] _].
  destruct (shr_m r2) as [|q|q]; simpl; try lia; try reflexivity.
  destruct (e2 <=? F.emax - F.prec); reflexivity.
Qed.

(** Rounding a value below one half gives zero or a finite number of
    exponent at most [-53]. *)
Lemma binary_round_aux_small (s : bool) (m e : Z) (l : location) :
  0 <= m -> e <= -54 -> Zdigits2 m + e <= -1 ->
  match binary_round_aux F.prec F.emax s m e l with
  | S754_zero _ => True
  | S754_finite _ _ e' => e' <= -53
  | _ => False
  end.
Proof.
  intros Hm He Hd. unfold binary_round_aux.
  pose proof (shr_fexp_bound m e l Hm) as H1.
  destruct (shr_fexp F.prec F.emax m e l) as [r1 e1]. destruct H1 as [[H1 H1'] He1].
  pose proof (round_nearest_even_bound (shr_m r1) (loc_of_shr_record r1)) as Hr.
  set (m2 := round_nearest_even (shr_m r1) (loc_of_shr_record r1)) in *.
  assert (Hm2 : Zdigits2 m2 <= 54).
  { apply Zdigits2_le; [|lia]. split; [lia|].
    unfold F.prec in *. change (2 ^ 54) with (2 * 2 ^ 53). lia. }
  pose proof (shr_fexp_bound m2 e1 loc_Exact ltac:(lia)) as H2.
  destruct (shr_fexp F.prec F.emax m2 e1 loc_Exact) as [r2 e2].
  destruct H2 as [[H2 _] He2].
  assert (e2 <= -53).
  { subst e1 e2. unfold fexp, emin, F.prec, F.emax in *. lia. }
  destruct (shr_m r2) as [|q|q]; simpl; try lia.
  destruct (e2 <=? F.emax - F.prec) eqn:Hle; [lia|].
  unfold F.prec, F.emax in Hle. lia.
Qed.

Lemma shl_align_spec (p : positive) (e e' : Z) :
  let '(q, f) := shl_align p e e' in
  f = Z.min e e' /\ Zpos q = Zpos p * 2 ^ (e - f)
  /\ Zpos (digits2_pos q) = Zpos (digits2_pos p) + (e - f).
Proof.
  unfold shl_align. destruct (e' - e) as [|d|d] eqn:Hd.
  - replace (e - e) with 0 by lia. simpl. lia.
  - replace (e - e) with 0 by lia. simpl. lia.
  - replace (e - e') with (Zpos d) by lia.
    rewrite iter_xO_value, iter_xO_digits. lia.
Qed.

End Binary64.

Section Binary64Order.

Lemma binary_round_signed (s : bool) (p : positive) (e : Z) :
  signed s (binary_round F.prec F.emax s p e).
Proof.
  unfold binary_round. destruct (shl_align _ _ _) as [q f].
  now apply binary_round_aux_signed.
Qed.

Lemma binary_normalize_pos (m e : Z) (sz : bool) :
  0 < m -> signed false (binary_normalize F.prec F.emax m e sz).
Proof.
  intros Hm. destruct m as [|p|p]; try lia. apply binary_round_signed.
Qed.

Lemma signed_not_nan (s : bool) (a : float) : signed s a -> a <> S754_nan.
Proof. intros H ->. exact H. Qed.

Lemma SFcompare_antisym (a b : float) (c : comparison) :
  SFcompare a b = Some c -> SFcompare b a = Some (CompOpp c).
Proof.
  destruct a as [sa|sa| |sa ma ea], b as [sb|sb| |sb mb eb]; simpl;
    try discriminate;
    try (destruct sa); try (destruct sb);
    intros [= <-]; try reflexivity.
  all: rewrite (Z.compare_antisym ea eb);
    pose proof (Pos.compare_cont_antisym ma mb Eq) as H; simpl in H;
    destruct (ea ?= eb); simpl; try reflexivity; now rewrite <- H.
Qed.

Lemma SFcompare_total (a b : float) :
  a <> S754_nan -> b <> S754_nan -> exists c, SFcompare a b = Some c.
Proof.
  destruct a, b; simpl; try congruence; eauto.
Qed.

Lemma leb_of_not_ltb (a b : float) :
  a <> S754_nan -> b <> S754_nan -> (b <? a)%F = false -> (a <=? b)%F = true.
Proof.
  intros Ha Hb. unfold F.ltb, F.leb, SFltb, SFleb.
  destruct (SFcompare_total b a Hb Ha) as [c Hc].
  rewrite Hc, (SFcompare_antisym _ _ _ Hc). now destruct c.
Qed.

(** A number of negative sign is below every positive finite number. *)
Lemma signed_true_leb (a : float) (m : positive) (e : Z) :
  signed true a -> (a <=? S754_finite false m e)%F = true.
Proof. destruct a as [s|s| |s q f]; simpl; try easy; intros ->; reflexivity. Qed.

End Binary64Order.

(** * Bird physics *)

Section BirdPhysics.

Lemma positive_cases (v : float) :
  (F.of_Z 0 <? v)%F = true ->
  v = S754_infinity false \/ exists m e, v = S754_finite false m e.
Proof.
  destruct v as [s|[|]| |[|] m e]; simpl; try discriminate; eauto.
Qed.

Lemma not_positive_cases (v : float) :
  (F.of_Z 0 <? v)%F = false -> v <> S754_nan ->
  (exists s, v = S754_zero s) \/ v = S754_infinity true
  \/ exists m e, v = S754_finite true m e.
Proof.
  destruct v as [s|[|]| |[|] m e]; simpl; try discriminate; try congruence; eauto.
Qed.

Lemma falling_velocity_signed (v : float) :
  (F.of_Z 0 <? v)%F = true -> signed false (v * ACCELERATION + GRAVITY)%F.
Proof.
  intros Hv. assert (Hm : signed false (v * ACCELERATION)%F).
  { destruct (positive_cases v Hv) as [->|(m & e & ->)]; [reflexivity|].
    unfold ACCELERATION, F.mul, SFmul. now apply binary_round_aux_signed. }
  destruct (v * ACCELERATION)%F as [s|s| |s m e]; simpl in Hm; try easy; subst s;
    try reflexivity.
  unfold GRAVITY, F.add, SFadd.
  apply binary_normalize_pos. simpl. lia.
Qed.

Lemma rising_velocity_bound (v : float) :
  (F.of_Z 0 <? v)%F = false -> v <> S754_nan ->
  (v + GRAVITY)%F <> S754_nan
  /\ (v + GRAVITY <=? F.of_Z MAX_VELOCITY)%F = true.
Proof.
  intros Hv Hn.
  destruct (not_positive_cases v Hv Hn) as [[s ->]|[->|(m & e & ->)]];
    [split; [discriminate | reflexivity] ..|].
  unfold GRAVITY, F.add, SFadd.
  set (ez := Z.min e (-53)).
  pose proof (shl_align_spec m e ez) as Hm.
  pose proof (shl_align_spec 4503599627370496 (-53) ez) as Hg.
  destruct (shl_align m e ez) as [m1 f1], (shl_align 4503599627370496 (-53) ez) as [g1 f2].
  destruct Hm as (_ & _ & _), Hg as (-> & Hg & _).
  replace (Z.min (-53) ez) with ez in Hg by lia.
  assert (Hg1 : Zpos g1 = 2 ^ (-1 - ez)).
  { rewrite Hg. change 4503599627370496 with (2 ^ 52).
    rewrite <- Z.pow_add_r by lia. f_equal. lia. }
  cbn [fst cond_Zopp].
  destruct (- Zpos m1 + Zpos g1) as [|q|q] eqn:Hsum.
  - split; [discriminate | reflexivity].
  - cbn [binary_normalize].
    pose proof (binary_round_signed false q ez) as Hs.
    assert (Hsmall : match binary_round F.prec F.emax false q ez with
                     | S754_zero _ => True
                     | S754_finite _ _ e' => e' <= -53
                     | _ => False
                     end).
    { unfold binary_round.
      pose proof (shl_align_spec q ez (fexp F.prec F.emax (Zpos (digits2_pos q) + ez))) as Hq.
      destruct (shl_align q ez _) as [q' f'].
      destruct Hq as (Hf & _ & Hd).
      assert (Zpos (digits2_pos q) <= -1 - ez).
      { apply digits2_pos_le; lia. }
      apply binary_round_aux_small; [lia| |cbn [Zdigits2]];
        unfold fexp, emin, F.prec, F.emax in *; lia. }
    destruct (binary_round F.prec F.emax false q ez) as [s|s| |s q' e'];
      try contradiction; simpl in Hs; subst s.
    + split; [discriminate | reflexivity].
    + split; [discriminate|].
      change (F.of_Z MAX_VELOCITY) with (S754_finite false 5629499534213120 (-49)).
      unfold F.leb, SFleb, SFcompare.
      destruct (Z.compare_spec e' (-49)); first [reflexivity | lia].
  - cbn [binary_normalize].
    pose proof (binary_round_signed true q ez) as Hs.
    split; [now apply (signed_not_nan true)|].
    now apply signed_true_leb.
Qed.

Lemma MAX_VELOCITY_not_nan : F.of_Z MAX_VELOCITY <> S754_nan.
Proof. vm_compute. discriminate. Qed.

(** The velocity stays a number. *)
Lemma update_velocity_not_nan (b : Bird.t) :
  Bird.velocity b <> S754_nan -> Bird.velocity (Bird.update b) <> S754_nan.
Proof.
  intros Hn. unfold Bird.update. cbn [Bird.velocity].
  destruct (F.of_Z 0 <? Bird.velocity b)%F eqn:Hv.
  - unfold F.py_min.
    destruct (F.of_Z MAX_VELOCITY <? _)%F; [apply MAX_VELOCITY_not_nan|].
    apply (signed_not_nan false). now apply falling_velocity_signed.
  - now apply rising_velocity_bound.
Qed.

Lemma update_velocity_le (b : Bird.t) :
  Bird.velocity b <> S754_nan ->
  (Bird.velocity (Bird.update b) <=? F.of_Z MAX_VELOCITY)%F = true.
Proof.
  intros Hn. unfold Bird.update. cbn [Bird.velocity].
  destruct (F.of_Z 0 <? Bird.velocity b)%F eqn:Hv.
  - unfold F.py_min.
    destruct (F.of_Z MAX_VELOCITY <? _)%F eqn:Hlt; [reflexivity|].
    apply leb_of_not_ltb; [|apply MAX_VELOCITY_not_nan|exact Hlt].
    apply (signed_not_nan false). now apply falling_velocity_signed.
  - now apply rising_velocity_bound.
Qed.

End BirdPhysics.

(** * Runs of the bird *)

Section BirdRuns.

Lemma bird_run_snoc (p : Persistence.t) (ops : list bird_op) (op : bird_op) :
  bird_run p (ops ++ [op]) = bird_step (bird_run p ops) op.
Proof. unfold bird_run. now rewrite fold_left_app. Qed.

Lemma init_physics (p : Persistence.t) :
  Bird.velocity (fst (Bird.init p)) = F.of_Z 0
  /\ Bird.y (fst (Bird.init p)) = F.of_Z 300
  /\ Bird.angle (fst (Bird.init p)) = 0.
Proof.
  unfold Bird.init, Bird.load_owned_skins, Bird.load_current_skin, Bird.apply_skin.
  destruct (Persistence.get_owned_skins p) as [[skins|] p1];
    destruct (Persistence.get_state _ p1) as [[[skin|]|] p2];
    try destruct (_ && _); simpl; auto.
Qed.

Lemma init_x (p : Persistence.t) : Bird.x (fst (Bird.init p)) = WINDOW_WIDTH / 3.
Proof.
  unfold Bird.init, Bird.load_owned_skins, Bird.load_current_skin, Bird.apply_skin.
  destruct (Persistence.get_owned_skins p) as [[skins|] p1];
    destruct (Persistence.get_state _ p1) as [[[skin|]|] p2];
    try destruct (_ && _); reflexivity.
Qed.

(** The skin operations leave position, velocity and angle alone. *)
Ltac skin_op_cases :=
  unfold Bird.set_skin, Bird.purchase_skin;
  try (destruct (Bird.price _));
  try (destruct (_ && _));
  cbn [fst snd].

Lemma set_skin_physics (skin_name : string) (b : Bird.t) (p : Persistence.t) :
  same_physics b (fst (Bird.set_skin skin_name b p)).
Proof. skin_op_cases; repeat split. Qed.

Lemma purchase_skin_physics (skin_name : string) (coins : Z) (b : Bird.t)
      (p : Persistence.t) :
  same_physics b (snd (fst (Bird.purchase_skin skin_name coins b p))).
Proof. skin_op_cases; repeat split. Qed.

Lemma skin_step_physics (bp : Bird.t * Persistence.t) (op : bird_op) :
  op <> Flap -> op <> Update -> same_physics (fst bp) (fst (bird_step bp op)).
Proof.
  destruct bp as [b p]. destruct op as [| |name|name coins]; try congruence; intros _ _;
    cbn [bird_step fst].
  - apply set_skin_physics.
  - pose proof (purchase_skin_physics name coins b p) as H.
    now destruct (Bird.purchase_skin name coins b p) as [[ok b'] p'].
Qed.

Lemma step_x (bp : Bird.t * Persistence.t) (op : bird_op) :
  Bird.x (fst (bird_step bp op)) = Bird.x (fst bp).
Proof.
  destruct op as [| |name|name coins]; try (now destruct bp).
  - now destruct (skin_step_physics bp (SetSkin name) ltac:(discriminate) ltac:(discriminate))
      as (-> & _).
  - now destruct (skin_step_physics bp (PurchaseSkin name coins)
                    ltac:(discriminate) ltac:(discriminate)) as (-> & _).
Qed.

(** The bird never moves sideways. *)
Lemma run_x (p : Persistence.t) (ops : list bird_op) :
  Bird.x (fst (bird_run p ops)) = WINDOW_WIDTH / 3.
Proof.
  induction ops as [|op ops IH] using rev_ind.
  - apply init_x.
  - rewrite bird_run_snoc, step_x. exact IH.
Qed.

Lemma step_velocity_not_nan (bp : Bird.t * Persistence.t) (op : bird_op) :
  Bird.velocity (fst bp) <> S754_nan ->
  Bird.velocity (fst (bird_step bp op)) <> S754_nan.
Proof.
  intros Hn. destruct op as [| |name|name coins].
  - destruct bp as [b p]. vm_compute. discriminate.
  - destruct bp as [b p]. now apply update_velocity_not_nan.
  - now destruct (skin_step_physics bp (SetSkin name) ltac:(discriminate) ltac:(discriminate))
      as (_ & _ & -> & _).
  - now destruct (skin_step_physics bp (PurchaseSkin name coins)
                    ltac:(discriminate) ltac:(discriminate)) as (_ & _ & -> & _).
Qed.

(** On every reachable bird the velocity is a number. *)
Lemma run_velocity_not_nan (p : Persistence.t) (ops : list bird_op) :
  Bird.velocity (fst (bird_run p ops)) <> S754_nan.
Proof.
  induction ops as [|op ops IH] using rev_ind.
  - unfold bird_run. simpl. destruct (init_physics p) as [-> _].
    vm_compute. discriminate.
  - rewrite bird_run_snoc. now apply step_velocity_not_nan.
Qed.

(** C6.  Whatever number the velocity is before the step (finite or
    infinite, of either sign), the velocity after [Bird.update] is at
    most [MAX_VELOCITY]; hence on every tick of every run of the bird the
    velocity after integration is at most [MAX_VELOCITY]. *)
Theorem velocity_le_MAX_VELOCITY (b : Bird.t) :
  (Bird.velocity b <> S754_nan ->
   (Bird.velocity (Bird.update b) <=? F.of_Z MAX_VELOCITY)%F = true)
  /\ (forall (p : Persistence.t) (ops : list bird_op),
        (Bird.velocity (Bird.update (fst (bird_run p ops))) <=? F.of_Z MAX_VELOCITY)%F
        = true).
Proof.
  split; [apply update_velocity_le|].
  intros p ops. apply update_velocity_le, run_velocity_not_nan.
Qed.

Lemma step_angle_ok (bp : Bird.t * Persistence.t) (op : bird_op) :
  angle_ok (fst bp) -> angle_ok (fst (bird_step bp op)).
Proof.
  unfold angle_ok. intros Hb. destruct op as [| |name|name coins].
  - destruct bp as [b p]. simpl. lia.
  - destruct bp as [b p]. cbn [bird_step fst] in *.
    unfold Bird.update. cbn [Bird.angle]. destruct (_ <? F.of_Z 0)%F; lia.
  - now destruct (skin_step_physics bp (SetSkin name) ltac:(discriminate) ltac:(discriminate))
      as (_ & _ & _ & ->).
  - now destruct (skin_step_physics bp (PurchaseSkin name coins)
                    ltac:(discriminate) ltac:(discriminate)) as (_ & _ & _ & ->).
Qed.

(** C10.  From the freshly constructed bird (angle 0), after any sequence
    of [flap] and [update] calls (and of skin operations, which do not
    touch it) the rotation angle lies in [[-70, 20]]. *)
Theorem angle_in_range (p : Persistence.t) (ops : list bird_op) :
  -70 <= Bird.angle (fst (bird_run p ops)) <= 20.
Proof.
  induction ops as [|op ops IH] using rev_ind.
  - unfold bird_run. simpl. destruct (init_physics p) as (_ & _ & ->). lia.
  - rewrite bird_run_snoc. now apply step_angle_ok.
Qed.

(** C5.  [Bird.update] computes the velocity and the position exactly as
    the specification of the integration step says; from velocity 0 and
    y = 300 it yields velocity 0.5 (velocity 0 is not positive, so plain
    gravity applies) and y = 300.5. *)
Theorem update_integrates (b : Bird.t) :
  (Bird.velocity (Bird.update b), Bird.y (Bird.update b))
  = integrate_spec (Bird.velocity b) (Bird.y b)
  /\ GRAVITY = F.decimal 5 10
  /\ (Bird.velocity b = F.of_Z 0 -> Bird.y b = F.of_Z 300 ->
      Bird.velocity (Bird.update b) = F.decimal 5 10
      /\ Bird.y (Bird.update b) = F.decimal 3005 10).
Proof.
  split; [reflexivity|]. split; [reflexivity|].
  intros Hv Hy. unfold Bird.update. cbn [Bird.velocity Bird.y].
  rewrite Hv, Hy. split; reflexivity.
Qed.

Lemma update_integrates_witness :
  Bird.velocity (Bird.update fresh_bird) = F.decimal 5 10
  /\ Bird.y (Bird.update fresh_bird) = F.decimal 3005 10.
Proof.
  exact (proj2 (proj2 (update_integrates fresh_bird)) eq_refl eq_refl).
Defined.

End BirdRuns.

Lemma velocity_le_MAX_VELOCITY_witness :
  (Bird.velocity (Bird.update falling_bird) <=? F.of_Z MAX_VELOCITY)%F = true.
Proof.
  assert (H : Bird.velocity falling_bird <> S754_nan) by (vm_compute; discriminate).
  exact (proj1 (velocity_le_MAX_VELOCITY falling_bird) H).
Defined.

Example falling_bird_capped :
  Bird.velocity (Bird.update falling_bird) = F.of_Z 10.
Proof. vm_compute. reflexivity. Qed.

(** * Skins: ownership and the shop transaction *)

Section Skins.

Implicit Types (b : Bird.t) (p : Persistence.t) (skin_name : string).

Lemma load_owned_skins_default b p :
  "default"%string ∈ Bird.owned_skins (fst (Bird.load_owned_skins b p))
  /\ Bird.current_skin (fst (Bird.load_owned_skins b p)) = Bird.current_skin b.
Proof.
  unfold Bird.load_owned_skins.
  destruct (Persistence.get_owned_skins p) as [[skins|] p']; simpl;
    split; try reflexivity; set_solver.
Qed.

(** Loading the equipped skin accepts only an owned skin of the
    catalogue, and falls back to the default one when the store fails. *)
Lemma load_current_skin_ok b p : skins_ok b -> skins_ok (fst (Bird.load_current_skin b p)).
Proof.
  intros [Hd Hc]. unfold Bird.load_current_skin.
  destruct (Persistence.get_state _ p) as [[[skin|]|] p']; simpl;
    try (split; assumption).
  destruct (negb (String.eqb skin EmptyString) && Bird.in_SKINS skin
            && bool_decide (skin ∈ Bird.owned_skins b)) eqn:Hok; simpl;
    [|split; assumption].
  apply andb_prop in Hok as [_ Hin]. apply bool_decide_eq_true in Hin.
  split; assumption.
Qed.

Lemma init_skins_ok p : skins_ok (fst (Bird.init p)).
Proof.
  unfold Bird.init.
  pose proof (load_owned_skins_default
                (Bird.mk (WINDOW_WIDTH / 3) (F.of_Z (WINDOW_HEIGHT / 2)) (F.of_Z 0)
                         30 0 "default" {["default"%string]}) p) as [Hd Hc].
  destruct (Bird.load_owned_skins _ p) as [b1 p1]. simpl in Hd, Hc.
  pose proof (load_current_skin_ok b1 p1) as H2.
  destruct (Bird.load_current_skin b1 p1) as [b2 p2]. simpl in *.
  apply H2. split; [assumption|]. rewrite Hc. assumption.
Qed.

(** [set_skin] equips [skin_name] exactly when it is in the catalogue and
    owned, and otherwise does nothing. *)
Lemma set_skin_spec skin_name b p :
  (Bird.in_SKINS skin_name = true /\ skin_name ∈ Bird.owned_skins b
   /\ fst (Bird.set_skin skin_name b p)
      = Bird.with_skins b skin_name (Bird.owned_skins b))
  \/ ((Bird.in_SKINS skin_name = false \/ skin_name ∉ Bird.owned_skins b)
      /\ Bird.set_skin skin_name b p = (b, p)).
Proof.
  unfold Bird.set_skin.
  destruct (Bird.in_SKINS skin_name) eqn:Hin; simpl; [|right; auto].
  case_bool_decide; simpl; [left|right]; auto.
Qed.

Lemma set_skin_ok skin_name b p : skins_ok b -> skins_ok (fst (Bird.set_skin skin_name b p)).
Proof.
  intros [Hd Hc].
  destruct (set_skin_spec skin_name b p) as [(_ & Hin & ->)|[_ ->]];
    split; simpl; assumption.
Qed.

(** [purchase_skin] succeeds exactly when the skin is in the catalogue,
    not owned and affordable; it then only adds the skin to the owned set. *)
Lemma purchase_skin_spec skin_name (coins : Z) b p :
  (exists cost,
      Bird.price skin_name = Some cost /\ (skin_name ∉ Bird.owned_skins b)
      /\ cost <= coins
      /\ Bird.purchase_skin skin_name coins b p
         = (true,
            Bird.with_skins b (Bird.current_skin b) ({[skin_name]} ∪ Bird.owned_skins b),
            snd (Persistence.add_owned_skin skin_name p)))
  \/ ((Bird.price skin_name = None \/ skin_name ∈ Bird.owned_skins b
       \/ (exists cost, Bird.price skin_name = Some cost /\ coins < cost))
      /\ Bird.purchase_skin skin_name coins b p = (false, b, p)).
Proof.
  unfold Bird.purchase_skin.
  destruct (Bird.price skin_name) as [cost|] eqn:Hp; [|right; auto].
  case_bool_decide; simpl; [right; auto|].
  destruct (Z.leb_spec cost coins); [left|right]; eauto 8.
Qed.

Lemma purchase_skin_ok skin_name (coins : Z) b p :
  skins_ok b -> skins_ok (snd (fst (Bird.purchase_skin skin_name coins b p))).
Proof.
  intros [Hd Hc].
  destruct (purchase_skin_spec skin_name coins b p) as [(c & _ & _ & _ & ->)|[_ ->]];
    split; simpl; set_solver.
Qed.

Lemma step_skins (bp : Bird.t * Persistence.t) (op : bird_op) :
  skins_ok (fst bp) -> skins_ok (fst (bird_step bp op)).
Proof.
  destruct bp as [b p]. cbn [fst]. intros Hb.
  destruct op as [| |name|name coins]; cbn [bird_step fst].
  - exact Hb.
  - exact Hb.
  - now apply set_skin_ok.
  - pose proof (purchase_skin_ok name coins b p Hb) as H.
    destruct (Bird.purchase_skin name coins b p) as [[ok b'] p']. exact H.
Qed.

(** C9.  After construction (which loads the owned skins and the
    equipped skin from the store) and after any sequence of operations
    on the bird, the owned set contains the default skin and the
    equipped skin is owned. *)
Theorem skins_invariant (p : Persistence.t) (ops : list bird_op) :
  "default"%string ∈ Bird.owned_skins (fst (bird_run p ops))
  /\ Bird.current_skin (fst (bird_run p ops)) ∈ Bird.owned_skins (fst (bird_run p ops)).
Proof.
  change (skins_ok (fst (bird_run p ops))).
  induction ops as [|op ops IH] using rev_ind.
  - apply init_skins_ok.
  - rewrite bird_run_snoc. now apply step_skins.
Qed.

End Skins.

Section ShopTransaction.

Implicit Types (b : Bird.t) (p : Persistence.t) (s : Shop.t) (skin_name : string).





(** Whatever button is clicked, the bird keeps the default skin and owns
    the skin it wears. *)
Lemma click_button_skins_ok (item : string * Z) s b p :
  skins_ok b -> skins_ok (snd (fst (Shop.click_button item s b p))).
Proof.
  intros Hb. destruct item as [skin_name cost]. unfold Shop.click_button.
  case_bool_decide.
  - pose proof (set_skin_ok skin_name b p Hb) as H1.
    now destruct (Bird.set_skin skin_name b p) as [b1 p1].
  - destruct (cost <=? Shop.coins s); [|exact Hb].
    pose proof (purchase_skin_ok skin_name (Shop.coins s) b p Hb) as H1.
    destruct (Bird.purchase_skin skin_name (Shop.coins s) b p) as [[[|] b1] p1];
      cbn [fst snd] in *; [|exact H1].
    pose proof (set_skin_ok skin_name b1 p1 H1) as H2.
    now destruct (Bird.set_skin skin_name b1 p1) as [b2 p2].
Qed.

(** A click inside the [k]-th button of the open shop runs [click_button]
    on the [k]-th entry of the catalogue and is reported consumed. *)
Lemma click_buttons_hit (items : list (string * Z)) :
  forall (y_pos : Z) (k : nat) (item : string * Z) (pos : Z * Z) s b p,
    nth_error items k = Some item ->
    100 <= fst pos < 300 ->
    y_pos + 60 * Z.of_nat k - Shop.scroll_offset s + 100 <= snd pos
    < y_pos + 60 * Z.of_nat k - Shop.scroll_offset s + 150 ->
    Shop.click_buttons items y_pos pos s b p = Some (Shop.click_button item s b p).
Proof.
  induction items as [|item0 items IH]; intros y_pos k item pos s b p Hk Hx Hy.
  - destruct k; discriminate.
  - cbn [Shop.click_buttons]. unfold pygame.collidepoint.
    cbn [pygame.left pygame.top pygame.width pygame.height].
    change ((WINDOW_WIDTH - Shop.button_width) / 2) with 100.
    unfold Shop.button_width, Shop.button_height, Shop.margin.
    destruct k as [|k].
    + injection Hk as ->.
      replace (100 <=? fst pos) with true by (symmetry; apply Z.leb_le; lia).
      replace (fst pos <? 100 + 200) with true by (symmetry; apply Z.ltb_lt; lia).
      replace (y_pos - Shop.scroll_offset s + 100 <=? snd pos) with true
        by (symmetry; apply Z.leb_le; lia).
      replace (snd pos <? y_pos - Shop.scroll_offset s + 100 + 50) with true
        by (symmetry; apply Z.ltb_lt; lia).
      reflexivity.
    + replace (snd pos <? y_pos - Shop.scroll_offset s + 100 + 50) with false
        by (symmetry; apply Z.ltb_ge; lia).
      rewrite andb_false_r.
      apply (IH (y_pos + (50 + 10)) k); [exact Hk | exact Hx | lia].
Qed.

Lemma handle_click_button (k : nat) (item : string * Z) (pos : Z * Z)
      (click_rect : pygame.Rect) s b p :
  Shop.active s = true ->
  nth_error Bird.SKINS k = Some item ->
  100 <= fst pos < 300 ->
  60 * Z.of_nat k - Shop.scroll_offset s + 100 <= snd pos
  < 60 * Z.of_nat k - Shop.scroll_offset s + 150 ->
  Shop.handle_click pos click_rect s b p = (true, Shop.click_button item s b p).
Proof.
  intros Ha Hk Hx Hy. unfold Shop.handle_click. rewrite Ha. cbn [negb].
  rewrite (click_buttons_hit Bird.SKINS 0 k item pos s b p Hk Hx) by lia.
  reflexivity.
Qed.


End ShopTransaction.


(** * The tick *)

Section Tick.

Implicit Types (g : Game.t) (p : Persistence.t) (e : Env) (sin : float -> float).

(** [save_high_score] raises the stored high score to the score when the
    score is strictly greater, and then writes it to the store; otherwise
    it does nothing. *)
Lemma save_high_score_spec g p :
  (Game.high_score g < Game.score g
   /\ Game.save_high_score g p
      = (Game.set_high_score g (Game.score g),
         snd (Persistence.set_state "high_score" (py_str (Game.score g)) p)))
  \/ (Game.score g <= Game.high_score g /\ Game.save_high_score g p = (g, p)).
Proof.
  unfold Game.save_high_score.
  destruct (Z.ltb_spec (Game.high_score g) (Game.score g)); [left|right]; auto.
Qed.

Lemma keeps_mode_refl g : keeps_mode g g.
Proof. unfold keeps_mode. auto. Qed.

Lemma keeps_mode_trans g1 g2 g3 : keeps_mode g1 g2 -> keeps_mode g2 g3 -> keeps_mode g1 g3.
Proof.
  unfold keeps_mode. intros (Hb & Hs & Ho) (Hb' & Hs' & Ho').
  repeat split; [congruence|congruence|auto].
Qed.

Lemma save_high_score_keeps g p : keeps_mode g (fst (Game.save_high_score g p)).
Proof.
  destruct (save_high_score_spec g p) as [[_ ->]|[_ ->]]; unfold keeps_mode; simpl; auto.
Qed.

Lemma game_over_keeps g p :
  keeps_mode g (fst (Game.save_high_score (Game.set_game_over g true) p))
  /\ Game.game_over (fst (Game.save_high_score (Game.set_game_over g true) p)) = true.
Proof.
  destruct (save_high_score_spec (Game.set_game_over g true) p) as [[_ ->]|[_ ->]];
    unfold keeps_mode; simpl; auto.
Qed.

Lemma create_pipes_keeps e g : keeps_mode g (Game.create_pipes e g).
Proof.
  unfold Game.create_pipes. destruct (_ <? _); unfold keeps_mode; simpl; auto.
Qed.

Lemma create_coins_keeps e g : keeps_mode g (Game.create_coins e g).
Proof.
  unfold Game.create_coins. destruct (_ <? _); [|apply keeps_mode_refl].
  destruct (match Game.rightmost_pipe (Game.pipes g) with Some _ => _ | None => _ end).
  unfold keeps_mode; simpl; auto.
Qed.

Lemma score_pass_keeps (pipe : Pipe.t) g : keeps_mode g (snd (Game.score_pass pipe g)).
Proof.
  unfold Game.score_pass. destruct (_ && _); unfold keeps_mode; simpl; auto.
Qed.

Lemma pipe_step_keeps (sv : list Pipe.t) g p (pipe : Pipe.t) :
  keeps_mode g (snd (fst (Game.pipe_step (sv, g, p) pipe))).
Proof.
  unfold Game.pipe_step. destruct (Pipe.update pipe) as [pipe1 on_screen].
  destruct on_screen; [|apply keeps_mode_refl].
  pose proof (score_pass_keeps pipe1 g) as H1.
  destruct (Game.score_pass pipe1 g) as [pipe2 g1]. cbn [snd] in H1.
  destruct (Pipe.check_collision pipe2 (Game.bird g1)).
  - pose proof (game_over_keeps g1 p) as [H2 _].
    destruct (Game.save_high_score _ p) as [g2 p2]. cbn [fst snd] in *.
    eapply keeps_mode_trans; eassumption.
  - exact H1.
Qed.

Lemma fold_pipe_step_keeps (ps : list Pipe.t) :
  forall (sv : list Pipe.t) g p,
    keeps_mode g (snd (fst (fold_left Game.pipe_step ps (sv, g, p)))).
Proof.
  induction ps as [|pipe ps IH]; intros sv g p; cbn [fold_left].
  - apply keeps_mode_refl.
  - pose proof (pipe_step_keeps sv g p pipe) as H.
    destruct (Game.pipe_step (sv, g, p) pipe) as [[sv1 g1] p1]. cbn [fst snd] in H.
    eapply keeps_mode_trans; [exact H | apply IH].
Qed.

Lemma update_pipes_keeps g p : keeps_mode g (fst (Game.update_pipes g p)).
Proof.
  unfold Game.update_pipes.
  pose proof (fold_pipe_step_keeps (Game.pipes g) [] g p) as H.
  destruct (fold_left _ _ _) as [[sv g1] p1]. cbn [fst snd] in *.
  eapply keeps_mode_trans; [exact H|]. unfold keeps_mode; simpl; auto.
Qed.

Lemma coin_step_keeps sin (sv : list Coin.t) g p (coin : Coin.t) :
  keeps_mode g (snd (fst (snd (Game.coin_step sin (sv, g, p) coin)))).
Proof.
  unfold Game.coin_step. destruct (Coin.collected coin); [apply keeps_mode_refl|].
  destruct (Coin.update sin coin) as [coin1 on_screen].
  destruct on_screen; [|apply keeps_mode_refl].
  destruct (Coin.check_collision coin1 (Game.bird g)); [|apply keeps_mode_refl].
  unfold keeps_mode; simpl; auto.
Qed.

Lemma fold_coin_step_keeps sin (cs : list Coin.t) :
  forall (sv : list Coin.t) g p,
    keeps_mode g
      (snd (fst (fold_left (fun acc coin => snd (Game.coin_step sin acc coin)) cs (sv, g, p)))).
Proof.
  induction cs as [|coin cs IH]; intros sv g p; cbn [fold_left].
  - apply keeps_mode_refl.
  - pose proof (coin_step_keeps sin sv g p coin) as H.
    destruct (Game.coin_step sin (sv, g, p) coin) as [coin1 [[sv1 g1] p1]].
    cbn [fst snd] in *.
    eapply keeps_mode_trans; [exact H | apply IH].
Qed.

Lemma update_coins_keeps sin g p : keeps_mode g (fst (Game.update_coins sin g p)).
Proof.
  unfold Game.update_coins.
  pose proof (fold_coin_step_keeps sin (Game.coins g) [] g p) as H.
  destruct (fold_left _ _ _) as [[sv g1] p1]. cbn [fst snd] in *.
  eapply keeps_mode_trans; [exact H|]. unfold keeps_mode; simpl; auto.
Qed.

Lemma spawn_and_move_keeps sin e g p : keeps_mode g (fst (Game.spawn_and_move sin e g p)).
Proof.
  unfold Game.spawn_and_move.
  pose proof (update_pipes_keeps (Game.create_coins e (Game.create_pipes e g)) p) as H3.
  destruct (Game.update_pipes _ p) as [g3 p3]. cbn [fst] in H3.
  eapply keeps_mode_trans; [apply create_pipes_keeps|].
  eapply keeps_mode_trans; [apply create_coins_keeps|].
  eapply keeps_mode_trans; [exact H3|].
  apply update_coins_keeps.
Qed.

(** Once the flag is set a tick does nothing. *)
Lemma update_game_over sin e g p :
  Game.game_over g = true -> Game.update sin e g p = (g, p).
Proof. intros H. unfold Game.update. now rewrite H. Qed.

Lemma check_screen_edges_hit g p :
  Game.hits_screen_edge (Game.bird g) = true ->
  Game.check_screen_edges g p = Game.save_high_score (Game.set_game_over g true) p.
Proof. intros H. unfold Game.check_screen_edges. now rewrite H. Qed.

(** On the tick the bird touches the top or the bottom of the screen the
    game is over at the end of the tick. *)
Lemma update_hits_edge sin e g p :
  Game.game_over g = false -> Shop.active (Game.shop g) = false ->
  Game.hits_screen_edge (Bird.update (Game.bird g)) = true ->
  Game.update sin e g p
  = (let gp := Game.save_high_score
                 (Game.set_game_over (Game.set_bird g (Bird.update (Game.bird g))) true) p in
     Game.spawn_and_move sin e (fst gp) (snd gp))
  /\ Game.game_over (fst (Game.update sin e g p)) = true.
Proof.
  intros Hrun Hshop Hhit. unfold Game.update. rewrite Hrun, Hshop. cbn [negb andb].
  rewrite check_screen_edges_hit by exact Hhit.
  pose proof (game_over_keeps (Game.set_bird g (Bird.update (Game.bird g))) p) as [_ Hover].
  destruct (Game.save_high_score _ p) as [g1 p1]. cbn [fst snd] in *.
  split; [reflexivity|].
  now apply (spawn_and_move_keeps sin e g1 p1).
Qed.

End Tick.

Section Store.

(** A write that does not raise is visible in the store. *)
Lemma set_state_written (key value : string) (p : Persistence.t) :
  hd false (Persistence.faults p) = false ->
  Persistence.state (snd (Persistence.set_state key value p)) !! key = Some value.
Proof.
  unfold Persistence.set_state, Persistence.call.
  destruct (Persistence.faults p) as [|[|] fs]; simpl; try discriminate;
    intros _; apply lookup_insert_eq.
Qed.

(** A write that raises changes no table. *)
Lemma set_state_raised (key value : string) (p : Persistence.t) :
  hd false (Persistence.faults p) = true ->
  Persistence.state (snd (Persistence.set_state key value p)) = Persistence.state p
  /\ Persistence.owned_skins (snd (Persistence.set_state key value p))
     = Persistence.owned_skins p.
Proof.
  unfold Persistence.set_state, Persistence.call.
  destruct (Persistence.faults p) as [|[|] fs]; simpl; try discriminate; auto.
Qed.

End Store.

Section ScreenEdge.

Implicit Types (g : Game.t) (p : Persistence.t) (e : Env) (sin : float -> float).

Lemma leb_of_eqb (a b : float) : F.eqb a b = true -> (a <=? b)%F = true.
Proof.
  unfold F.eqb, F.leb, SFeqb, SFleb. now destruct (SFcompare a b) as [[| |]|].
Qed.

(** C1 as the code has it.  When the screen-edge check of a tick ends
    the game, the rest of that tick still runs on the state the check
    leaves (pipes and coins may be created and moved, score and coins
    may change); the flag stays set, and every later tick changes
    nothing at all. *)
Theorem edge_tick_runs_then_freezes sin e g p :
  Game.game_over g = false -> Shop.active (Game.shop g) = false ->
  Game.hits_screen_edge (Bird.update (Game.bird g)) = true ->
  let r := Game.update sin e g p in
  r = (let gp := Game.save_high_score
                   (Game.set_game_over (Game.set_bird g (Bird.update (Game.bird g))) true) p in
       Game.spawn_and_move sin e (fst gp) (snd gp))
  /\ Game.game_over (fst r) = true
  /\ forall sin' e', Game.update sin' e' (fst r) (snd r) = r.
Proof.
  intros Hrun Hshop Hhit r.
  destruct (update_hits_edge sin e g p Hrun Hshop Hhit) as [Heq Hover].
  fold r in Heq, Hover. repeat split; [exact Heq | exact Hover |].
  intros sin' e'. rewrite update_game_over by exact Hover. now destruct r.
Qed.

(** C7.  While running (not over, shop closed), a tick on which the
    bird's top edge is at or above 0 ([y <= 0], equality included) or
    its bottom edge at or below the screen height ends the game; at that
    transition the high score becomes the score and is written to the
    store exactly when the score is strictly greater than the stored
    high score, and is otherwise left alone. *)
Theorem screen_edge_ends_game sin e g p :
  Game.game_over g = false -> Shop.active (Game.shop g) = false ->
  let b := Bird.update (Game.bird g) in
  (Bird.y b <=? F.of_Z 0)%F = true
  \/ (F.of_Z WINDOW_HEIGHT <=? Bird.y b + F.of_Z (Bird.size b))%F = true
  \/ F.eqb (Bird.y b) (F.of_Z 0) = true ->
  Game.game_over (fst (Game.update sin e g p)) = true
  /\ (let gp := Game.check_screen_edges (Game.set_bird g b) p in
      Game.game_over (fst gp) = true
      /\ Game.score (fst gp) = Game.score g
      /\ (Game.high_score g < Game.score g ->
          Game.high_score (fst gp) = Game.score g
          /\ snd gp = snd (Persistence.set_state "high_score" (py_str (Game.score g)) p)
          /\ (hd false (Persistence.faults p) = false ->
              Persistence.state (snd gp) !! "high_score"%string
              = Some (py_str (Game.score g))))
      /\ (Game.score g <= Game.high_score g ->
          Game.high_score (fst gp) = Game.high_score g /\ snd gp = p)).
Proof.
  intros Hrun Hshop b Hedge.
  assert (Hhit : Game.hits_screen_edge b = true).
  { unfold Game.hits_screen_edge. apply orb_true_iff.
    destruct Hedge as [H|[H|H]]; auto. left. now apply leb_of_eqb. }
  split; [now apply update_hits_edge|].
  rewrite check_screen_edges_hit by exact Hhit.
  destruct (save_high_score_spec (Game.set_game_over (Game.set_bird g b) true) p)
    as [[Hlt ->]|[Hle ->]]; cbn [fst snd] in *; simpl in *.
  - split; [reflexivity|]. split; [reflexivity|]. split; [|lia].
    intros _. split; [reflexivity|]. split; [reflexivity|].
    intros Hok. now apply set_state_written.
  - split; [reflexivity|]. split; [reflexivity|]. split; [lia|].
    intros _. split; reflexivity.
Qed.

End ScreenEdge.

Lemma edge_tick_runs_then_freezes_witness :
  let r := Game.update no_sin edge_env edge_game fresh_store in
  Game.game_over (fst r) = true
  /\ forall sin' e', Game.update sin' e' (fst r) (snd r) = r.
Proof.
  intros r.
  apply (edge_tick_runs_then_freezes no_sin edge_env edge_game fresh_store);
    vm_compute; reflexivity.
Defined.

(** On that tick the steps after the screen-edge check are not skipped:
    once the check has ended the game, a pipe is still created and moved
    from x = 400 to x = 397, and the pipe timer is reset. *)
Lemma edge_tick_not_skipped :
  Game.game_over edge_game = false
  /\ Shop.active (Game.shop edge_game) = false
  /\ Game.hits_screen_edge (Bird.update (Game.bird edge_game)) = true
  /\ Game.pipes edge_game = []
  /\ (let g' := fst (Game.update no_sin edge_env edge_game fresh_store) in
      Game.game_over g' = true
      /\ Game.pipes g' = [Pipe.mk 250 397 80 false]
      /\ Game.last_pipe g' = 1600).
Proof. vm_compute. repeat split; reflexivity. Qed.

Lemma screen_edge_ends_game_witness :
  Game.game_over (fst (Game.update no_sin edge_env edge_game fresh_store)) = true.
Proof.
  apply (screen_edge_ends_game no_sin edge_env edge_game fresh_store);
    [reflexivity | reflexivity | left; vm_compute; reflexivity].
Defined.

(** * Pass-scoring *)

Section PassScoring.

Implicit Types (g : Game.t) (p : Persistence.t) (pipe : Pipe.t).



(** One iteration of the loop of a tick is one tick of [pipe_life]: the
    score moves by what the pipe earns, and the pipe joins the surviving
    pipes, flag included, when it is still on screen. *)
Lemma pipe_step_life (sv : list Pipe.t) g p pipe :
  let r := Game.pipe_step (sv, g, p) pipe in
  Game.score (snd (fst r)) = Game.score g + fst (pipe_life [g] pipe)
  /\ fst (fst r)
     = if snd (Pipe.update pipe) then sv ++ [snd (pipe_life [g] pipe)] else sv.
Proof.
  unfold Game.pipe_step. cbn [pipe_life].
  destruct (Pipe.update pipe) as [pipe1 on_screen].
  destruct on_screen; [|simpl; split; [lia | reflexivity]].
  destruct (Game.score_pass pipe1 g) as [pipe2 g1].
  destruct (Pipe.check_collision pipe2 (Game.bird g1)); cbn [fst snd];
    [|split; [lia | reflexivity]].
  destruct (save_high_score_spec (Game.set_game_over g1 true) p) as [[_ ->]|[_ ->]];
    simpl; split; try lia; reflexivity.
Qed.




End PassScoring.


(** A pipe followed from its creation: at its 90th tick it is behind the
    bird and earns its point; 60 more ticks add nothing. *)
Example fresh_pipe_scores_once :
  fst (pipe_life (repeat edge_game 89) (Pipe.init 300)) = 0
  /\ fst (pipe_life (repeat edge_game 90) (Pipe.init 300)) = 1
  /\ fst (pipe_life (repeat edge_game 150) (Pipe.init 300)) = 1.
Proof. vm_compute. repeat split; reflexivity. Qed.

(** * Coins *)

Section Coins.

Implicit Types (g : Game.t) (p : Persistence.t) (c coin : Coin.t) (b : Bird.t).

Lemma ltb_of_eqb (a b' : float) : F.eqb a b' = true -> (a <? b')%F = false.
Proof.
  unfold F.eqb, F.ltb, SFeqb, SFltb. now destruct (SFcompare a b') as [[| |]|].
Qed.

(** C8.  [check_collision] holds exactly when the distance between the
    two centres is strictly below [radius] plus half the bird's size; at a
    distance equal to that bound the coin is not collected.  A coin is
    worth 10 when its special draw fell below 0.1 and 5 otherwise. *)
Theorem coin_collision_strict c b :
  (Coin.check_collision c b = true
   <-> (center_distance c b <? F.of_Z (Coin.radius c + Bird.size b / 2))%F = true)
  /\ (F.eqb (center_distance c b) (F.of_Z (Coin.radius c + Bird.size b / 2)) = true ->
      Coin.check_collision c b = false)
  /\ (forall (x y : Z) (special_draw phase_draw : float),
        let coin := Coin.init x y special_draw phase_draw in
        Coin.is_special coin = (special_draw <? F.decimal 1 10)%F
        /\ Coin.value coin = (if Coin.is_special coin then 10 else 5)).
Proof.
  split; [reflexivity|]. split; [|intros; split; reflexivity].
  intros H. now apply ltb_of_eqb.
Qed.

(** [update_coins] runs [coin_loop] over the live coins, from an empty
    list of survivors. *)
Lemma update_coins_loop sin g p :
  Game.update_coins sin g p
  = (let '(surviving_coins, g', p') := coin_loop sin (Game.coins g) ([], g, p) in
     (Game.set_coins g' surviving_coins, p')).
Proof. reflexivity. Qed.

Lemma coin_update_keeps sin coin :
  Coin.value (fst (Coin.update sin coin)) = Coin.value coin
  /\ Coin.collected (fst (Coin.update sin coin)) = Coin.collected coin.
Proof. split; reflexivity. Qed.

(** C4.  In the loop over the coins, a coin whose [collected] flag goes
    from unset to set adds exactly its value to the balance of the shop
    and the new balance is written to the store at once ([save_coins]
    is the last thing the iteration does, and the write is visible
    unless the store raises); the coins after it are handled on the state
    so saved.  An iteration that does not collect leaves balance and
    store alone. *)
Theorem collected_coin_pays sin (sv : list Coin.t) g p coin :
  let r := Game.coin_step sin (sv, g, p) coin in
  let g' := snd (fst (snd r)) in
  let p' := snd (snd r) in
  let balance := Shop.coins (Game.shop g) + Coin.value coin in
  (Coin.collected coin = false -> Coin.collected (fst r) = true ->
   Shop.coins (Game.shop g') = balance
   /\ p' = snd (Persistence.set_state "coins" (py_str balance) p)
   /\ (hd false (Persistence.faults p) = false ->
       Persistence.state p' !! "coins"%string = Some (py_str balance))
   /\ fst (fst (snd r)) = sv)
  /\ (Coin.collected (fst r) = Coin.collected coin ->
      Game.shop g' = Game.shop g /\ p' = p)
  /\ (forall rest, coin_loop sin (coin :: rest) (sv, g, p) = coin_loop sin rest (snd r)).
Proof.
  intros r g' p' balance. subst r g' p' balance.
  split; [|split; [|reflexivity]]; unfold Game.coin_step.
  - intros Hc. rewrite Hc.
    destruct (Coin.update sin coin) as [coin1 on_screen] eqn:Hu.
    pose proof (coin_update_keeps sin coin) as [Hv Hk]. rewrite Hu in Hv, Hk.
    cbn [fst] in Hv, Hk.
    destruct on_screen; [|cbn [fst]; congruence].
    destruct (Coin.check_collision coin1 (Game.bird g)); [|cbn [fst]; congruence].
    intros _. cbn [fst snd Game.shop Game.set_shop Shop.coins Coin.value Coin.set_collected].
    rewrite Hv. unfold Game.save_coins. cbn [Game.shop Game.set_shop Shop.coins].
    repeat split. intros Hok. now apply set_state_written.
  - destruct (Coin.collected coin) eqn:Hc; [auto|].
    destruct (Coin.update sin coin) as [coin1 on_screen] eqn:Hu.
    pose proof (coin_update_keeps sin coin) as [Hv Hk]. rewrite Hu in Hv, Hk.
    cbn [fst] in Hv, Hk.
    destruct on_screen; [|auto].
    destruct (Coin.check_collision coin1 (Game.bird g)); [|auto].
    cbn [fst Coin.collected Coin.set_collected]. discriminate.
Qed.

End Coins.

Lemma coin_collision_strict_witness :
  Coin.check_collision (coin_at 133) bird_at_280 = false
  /\ Coin.check_collision (coin_at 134) bird_at_280 = true.
Proof.
  assert (H1 : F.eqb (center_distance (coin_at 133) bird_at_280)
                     (F.of_Z (Coin.radius (coin_at 133) + Bird.size bird_at_280 / 2))
               = true) by (vm_compute; reflexivity).
  assert (H2 : (center_distance (coin_at 134) bird_at_280
                <? F.of_Z (Coin.radius (coin_at 134) + Bird.size bird_at_280 / 2))%F
               = true) by (vm_compute; reflexivity).
  exact (conj (proj1 (proj2 (coin_collision_strict (coin_at 133) bird_at_280)) H1)
              (proj2 (proj1 (coin_collision_strict (coin_at 134) bird_at_280)) H2)).
Defined.

Lemma collected_coin_pays_witness :
  let r := Game.coin_step no_sin ([], coin_game, fresh_store) (coin_at 151) in
  Shop.coins (Game.shop (snd (fst (snd r)))) = 7 + 5
  /\ Persistence.state (snd (snd r)) !! "coins"%string = Some (py_str (7 + 5)).
Proof.
  intros r.
  assert (H1 : Coin.collected (coin_at 151) = false) by reflexivity.
  assert (H2 : Coin.collected (fst r) = true) by (vm_compute; reflexivity).
  assert (H3 : hd false (Persistence.faults fresh_store) = false) by reflexivity.
  pose proof (proj1 (collected_coin_pays no_sin [] coin_game fresh_store (coin_at 151))
                H1 H2) as (Hb & _ & Hs & _).
  exact (conj Hb (Hs H3)).
Defined.

(** * Further properties of the program *)

Section StoreCalls.

Lemma call_ok {A : Type} (run : Persistence.t -> A * Persistence.t) (p : Persistence.t) :
  hd false (Persistence.faults p) = false ->
  Persistence.call run p = (let '(a, p') := run (after_call p) in (Some a, p')).
Proof.
  unfold Persistence.call, after_call. destruct p as [st ow [|[|] fs]]; simpl;
    try discriminate; reflexivity.
Qed.

Lemma call_raises {A : Type} (run : Persistence.t -> A * Persistence.t) (p : Persistence.t) :
  hd false (Persistence.faults p) = true ->
  Persistence.call run p = (None, after_call p).
Proof.
  unfold Persistence.call, after_call. destruct p as [st ow [|[|] fs]]; simpl;
    try discriminate; reflexivity.
Qed.

Lemma after_call_healthy (p : Persistence.t) : healthy p -> after_call p = p.
Proof. unfold healthy, after_call. destruct p as [st ow fs]; simpl. now intros ->. Qed.

Lemma healthy_hd (p : Persistence.t) : healthy p -> hd false (Persistence.faults p) = false.
Proof. unfold healthy. now intros ->. Qed.

Lemma get_state_healthy (key : string) (p : Persistence.t) :
  healthy p -> Persistence.get_state key p = (Some (Persistence.state p !! key), p).
Proof.
  intros H. unfold Persistence.get_state. rewrite call_ok by now apply healthy_hd.
  now rewrite after_call_healthy.
Qed.

Lemma set_state_healthy (key value : string) (p : Persistence.t) :
  healthy p ->
  Persistence.set_state key value p
  = (Some tt, Persistence.mk (<[key := value]> (Persistence.state p))
                             (Persistence.owned_skins p) []).
Proof.
  intros H. unfold Persistence.set_state. rewrite call_ok by now apply healthy_hd.
  rewrite after_call_healthy by exact H. now rewrite H.
Qed.

Lemma add_owned_skin_healthy (skin_name : string) (p : Persistence.t) :
  healthy p ->
  Persistence.add_owned_skin skin_name p
  = (Some tt, Persistence.mk (Persistence.state p)
                             ({[skin_name]} ∪ Persistence.owned_skins p) []).
Proof.
  intros H. unfold Persistence.add_owned_skin. rewrite call_ok by now apply healthy_hd.
  rewrite after_call_healthy by exact H. now rewrite H.
Qed.

Lemma get_owned_skins_healthy (p : Persistence.t) :
  healthy p -> Persistence.get_owned_skins p = (Some (Persistence.owned_skins p), p).
Proof.
  intros H. unfold Persistence.get_owned_skins. rewrite call_ok by now apply healthy_hd.
  now rewrite after_call_healthy.
Qed.


End StoreCalls.

Section Reads.

Lemma get_state_spec (key : string) (p : Persistence.t) :
  Persistence.get_state key p
  = (if hd false (Persistence.faults p) then None else Some (Persistence.state p !! key),
     after_call p).
Proof.
  unfold Persistence.get_state, Persistence.call, after_call.
  destruct p as [st ow [|[|] fs]]; reflexivity.
Qed.

Lemma get_owned_skins_spec (p : Persistence.t) :
  Persistence.get_owned_skins p
  = (if hd false (Persistence.faults p) then None else Some (Persistence.owned_skins p),
     after_call p).
Proof.
  unfold Persistence.get_owned_skins, Persistence.call, after_call.
  destruct p as [st ow [|[|] fs]]; reflexivity.
Qed.

Lemma hd_after_call (p : Persistence.t) :
  hd false (Persistence.faults (after_call p)) = nth 1 (Persistence.faults p) false.
Proof. destruct p as [st ow [|f [|f' fs]]]; reflexivity. Qed.

Lemma hd_nth (p : Persistence.t) :
  hd false (Persistence.faults p) = nth 0 (Persistence.faults p) false.
Proof. destruct p as [st ow [|f fs]]; reflexivity. Qed.

Lemma with_skins_same (b : Bird.t) :
  Bird.with_skins b (Bird.current_skin b) (Bird.owned_skins b) = b.
Proof. now destruct b. Qed.

Lemma load_owned_skins_spec (b : Bird.t) (p : Persistence.t) :
  Bird.load_owned_skins b p
  = (Bird.with_skins b (Bird.current_skin b)
       (if hd false (Persistence.faults p) then {["default"%string]}
        else (if decide (Persistence.owned_skins p = ∅) then Bird.owned_skins b
              else Persistence.owned_skins p) ∪ {["default"%string]}),
     after_call p).
Proof.
  unfold Bird.load_owned_skins. rewrite get_owned_skins_spec.
  now destruct (hd false (Persistence.faults p)).
Qed.

Lemma load_current_skin_spec (b : Bird.t) (p : Persistence.t) :
  Bird.load_current_skin b p
  = (Bird.with_skins b
       (if hd false (Persistence.faults p) then "default"%string
        else match Persistence.state p !! "current_skin"%string with
             | Some skin =>
                 if negb (String.eqb skin EmptyString) && Bird.in_SKINS skin
                    && bool_decide (skin ∈ Bird.owned_skins b)
                 then skin else Bird.current_skin b
             | None => Bird.current_skin b
             end)
       (Bird.owned_skins b),
     after_call p).
Proof.
  unfold Bird.load_current_skin. rewrite get_state_spec.
  destruct (hd false (Persistence.faults p)); [reflexivity|].
  destruct (Persistence.state p !! "current_skin"%string) as [skin|];
    [destruct (negb _ && _ && _)|]; now rewrite ?with_skins_same.
Qed.

(** What [Bird()] makes of the store. *)
Lemma bird_init_spec (p : Persistence.t) :
  let b := fst (Bird.init p) in
  Bird.owned_skins b
  = (if nth 0 (Persistence.faults p) false then {["default"%string]}
     else Persistence.owned_skins p ∪ {["default"%string]})
  /\ Bird.current_skin b
     = (if nth 1 (Persistence.faults p) false then "default"%string
        else stored_skin p (Bird.owned_skins b))
  /\ (Bird.x b, Bird.y b, Bird.velocity b, Bird.size b, Bird.angle b)
     = (133, F.of_Z 300, F.of_Z 0, 30, 0)
  /\ snd (Bird.init p) = after_call (after_call p).
Proof.
  intros b. subst b. unfold Bird.init.
  rewrite load_owned_skins_spec, load_current_skin_spec, hd_after_call, <- hd_nth.
  unfold Bird.apply_skin, stored_skin.
  cbn [fst snd Bird.owned_skins Bird.current_skin Bird.with_skins Bird.x Bird.y
       Bird.velocity Bird.size Bird.angle after_call Persistence.state].
  split; [|split; [|split; reflexivity]].
  - destruct (hd false (Persistence.faults p)); [reflexivity|].
    destruct (decide (Persistence.owned_skins p = ∅)) as [->|He]; [set_solver | reflexivity].
  - destruct (nth 1 (Persistence.faults p) false); [reflexivity|].
    destruct (Persistence.state p !! "current_skin"%string) as [skin|]; [|reflexivity].
    now destruct (negb _ && _ && _).
Qed.

End Reads.

Section Decimal.

Lemma digit_of_pretty (d : N) : (d < 10)%N -> digit_of (pretty_N_char d) = Some d.
Proof.
  intros H.
  assert (d = 0 \/ d = 1 \/ d = 2 \/ d = 3 \/ d = 4 \/ d = 5 \/ d = 6 \/ d = 7
          \/ d = 8 \/ d = 9)%N as Hd by lia.
  repeat (destruct Hd as [->|Hd]; [reflexivity|]). now subst d.
Qed.

Lemma parse_digits_pretty (x : N) :
  forall (s : string) (acc : N),
    exists k : N, parse_digits (pretty_N_go x s) acc = parse_digits s (acc * k + x)%N.
Proof.
  induction (N.lt_wf_0 x) as [x _ IH]. intros s acc.
  destruct (N.eq_dec x 0%N) as [->|Hx].
  - exists 1%N. rewrite pretty_N_go_0. f_equal. lia.
  - rewrite pretty_N_go_step by lia.
    destruct (IH (x `div` 10)%N ltac:(apply N.div_lt; lia)
                 (String (pretty_N_char (x `mod` 10)) s) acc) as [k Hk].
    exists (10 * k)%N. rewrite Hk. cbn [parse_digits].
    rewrite digit_of_pretty by (apply N.mod_lt; lia).
    f_equal. pose proof (N.div_mod x 10%N ltac:(lia)). lia.
Qed.

Lemma parse_natural_pretty (x : positive) :
  parse_natural (pretty_N_go (Npos x) EmptyString) = Some (Npos x).
Proof.
  destruct (parse_digits_pretty (Npos x) EmptyString 0%N) as [k Hk]. cbn [parse_digits] in Hk.
  unfold parse_natural. destruct (pretty_N_go (N.pos x) EmptyString) eqn:E.
  - cbn [parse_digits] in Hk. injection Hk as Hk. lia.
  - rewrite Hk. f_equal.
Qed.

(** What [py_str] writes, [parse_decimal] reads back. *)
Lemma parse_decimal_py_str (n : Z) : parse_decimal (py_str n) = Some n.
Proof.
  unfold py_str, pretty, pretty_Z. destruct n as [|x|x].
  - reflexivity.
  - unfold pretty, pretty_positive, pretty, pretty_N.
    destruct (decide (N.pos x = 0%N)) as [|_]; [discriminate|].
    pose proof (parse_natural_pretty x) as H.
    unfold parse_decimal.
    destruct (pretty_N_go (N.pos x) EmptyString) as [|c s] eqn:E; [discriminate|].
    destruct (Ascii.eqb_spec c "-"%char) as [->|Hc].
    + exfalso. apply (pretty_N_go_ne_dash (N.pos x) EmptyString s); [discriminate | exact E].
    + assert (Hr : option_map Z.of_N (parse_natural (String c s)) = Some (Z.pos x))
        by now rewrite H.
      destruct c as [[|] [|] [|] [|] [|] [|] [|] [|]]; try exact Hr.
      now contradiction Hc.
  - unfold pretty, pretty_positive, pretty, pretty_N.
    destruct (decide (N.pos x = 0%N)) as [|_]; [discriminate|].
    change ("-" +:+ pretty_N_go (N.pos x) EmptyString)
      with (String "-"%char (pretty_N_go (N.pos x) EmptyString)).
    cbn [parse_decimal]. now rewrite parse_natural_pretty.
Qed.

End Decimal.

(** ** A new game *)

Section NewGame.

Variable py_int : string -> option Z.

Lemma nth_after_call (i : nat) (p : Persistence.t) :
  nth i (Persistence.faults (after_call p)) false = nth (S i) (Persistence.faults p) false.
Proof. destruct p as [st ow [|f fs]]; simpl; [now destruct i | reflexivity]. Qed.

Lemma stored_int_after_call (key : string) (p : Persistence.t) :
  stored_int py_int key (after_call p) = stored_int py_int key p.
Proof. reflexivity. Qed.

Lemma load_high_score_spec (p : Persistence.t) :
  Game.load_high_score py_int p
  = (if hd false (Persistence.faults p) then 0 else stored_int py_int "high_score" p,
     after_call p).
Proof.
  unfold Game.load_high_score, stored_int. rewrite get_state_spec.
  destruct (hd false (Persistence.faults p)); [reflexivity|].
  destruct (Persistence.state p !! "high_score"%string) as [text|]; [|reflexivity].
  now destruct (py_int text).
Qed.

Lemma load_coins_spec (s : Shop.t) (p : Persistence.t) :
  Shop.load_coins py_int s p
  = (Shop.mk (Shop.active s)
             (if hd false (Persistence.faults p) then 0 else stored_int py_int "coins" p)
             (Shop.scroll_offset s),
     after_call p).
Proof.
  unfold Shop.load_coins, stored_int. rewrite get_state_spec.
  destruct (hd false (Persistence.faults p)); [reflexivity|].
  destruct (Persistence.state p !! "coins"%string) as [text|]; [|reflexivity].
  now destruct (py_int text).
Qed.

Lemma load_saved_coins_spec (g : Game.t) (p : Persistence.t) :
  Game.load_saved_coins py_int g p
  = (Game.set_shop g
       (Shop.mk (Shop.active (Game.shop g))
                (if hd false (Persistence.faults p) then 0 else stored_int py_int "coins" p)
                (Shop.scroll_offset (Game.shop g))),
     after_call p).
Proof.
  unfold Game.load_saved_coins, stored_int. rewrite get_state_spec.
  destruct (hd false (Persistence.faults p)); [reflexivity|].
  destruct (Persistence.state p !! "coins"%string) as [text|]; [|reflexivity].
  now destruct (py_int text).
Qed.

(** [Game()] starts a session with no pipe, no coin, score 0, the
    game running and the shop closed, over the bird [Bird()] makes.  It
    reads the store five times and writes nothing; the high score is what
    the third read gives and the balance what the fifth gives: the stored
    number, or 0 when the key is absent, the text is no number, or the
    read raises. *)
Lemma game_init_spec (ticks : Z * Z) (p : Persistence.t) :
  let faulty := fun i => nth i (Persistence.faults p) false in
  Game.init py_int ticks p
  = (Game.mk (fst (Bird.init p)) [] [] 0
             (if faulty 2%nat then 0 else stored_int py_int "high_score" p)
             (fst ticks) (snd ticks) false
             (Shop.mk false (if faulty 4%nat then 0 else stored_int py_int "coins" p) 0),
     after_call (after_call (after_call (after_call (after_call p))))).
Proof.
  intros faulty. subst faulty. unfold Game.init.
  pose proof (bird_init_spec p) as (_ & _ & _ & Hp).
  destruct (Bird.init p) as [b p1]. cbn [fst snd] in *. subst p1.
  rewrite load_high_score_spec. unfold Shop.init. rewrite load_coins_spec.
  rewrite load_saved_coins_spec.
  rewrite !hd_nth, !nth_after_call, !stored_int_after_call. reflexivity.
Qed.

End NewGame.

Section Pipes.

Implicit Types (g : Game.t) (p : Persistence.t) (q pipe : Pipe.t) (b : Bird.t).

(** X4.  For a pipe and a bird of positive sizes and a gap that leaves
    room for both halves of the pipe, [check_collision] holds exactly when
    the bird's box, with its top truncated to an integer, overlaps the
    pipe's column sideways and reaches above the gap (while below the top
    of the screen) or below it (while above the bottom of the screen);
    boxes that only touch do not collide. *)
Theorem pipe_collision_iff pipe b :
  0 < Bird.size b -> 0 < Pipe.width pipe ->
  PIPE_GAP / 2 < Pipe.gap_y pipe < WINDOW_HEIGHT - PIPE_GAP / 2 ->
  let top := F.trunc (Bird.y b) in
  Pipe.check_collision pipe b = true
  <-> (Bird.x b < Pipe.x pipe + Pipe.width pipe /\ Pipe.x pipe < Bird.x b + Bird.size b)
      /\ ((top < Pipe.gap_y pipe - PIPE_GAP / 2 /\ 0 < top + Bird.size b)
          \/ (Pipe.gap_y pipe + PIPE_GAP / 2 < top + Bird.size b /\ top < WINDOW_HEIGHT)).
Proof.
  intros Hs Hw Hg top. subst top.
  unfold Pipe.check_collision, pygame.colliderect.
  cbn [pygame.left pygame.top pygame.width pygame.height].
  change (PIPE_GAP / 2) with 75 in *. unfold WINDOW_HEIGHT in *.
  set (t := F.trunc (Bird.y b)).
  replace (Bird.size b =? 0) with false by (symmetry; apply Z.eqb_neq; lia).
  replace (Pipe.width pipe =? 0) with false by (symmetry; apply Z.eqb_neq; lia).
  replace (Pipe.gap_y pipe - 75 =? 0) with false by (symmetry; apply Z.eqb_neq; lia).
  replace (600 - (Pipe.gap_y pipe + 75) =? 0) with false by (symmetry; apply Z.eqb_neq; lia).
  cbn [orb]. rewrite orb_true_iff, !andb_true_iff, !Z.ltb_lt. lia.
Qed.

Lemma rightmost_fold (ps : list Pipe.t) :
  forall (r : Pipe.t),
    exists r',
      fold_left
        (fun rightmost pipe =>
           match rightmost with
           | None => Some pipe
           | Some r => if Pipe.x r <? Pipe.x pipe then Some pipe else Some r
           end) ps (Some r) = Some r'
      /\ In r' (r :: ps) /\ Pipe.x r <= Pipe.x r'
      /\ forall q, In q ps -> Pipe.x q <= Pipe.x r'.
Proof.
  induction ps as [|pipe ps IH]; intros r; cbn [fold_left].
  - exists r. repeat split; [now left | lia | intros q []].
  - destruct (Z.ltb_spec (Pipe.x r) (Pipe.x pipe)) as [Hlt|Hge].
    + destruct (IH pipe) as (r' & -> & Hin & Hle & Hall). exists r'.
      repeat split; [now right | lia |].
      intros q [<-|Hq]; [exact Hle | now apply Hall].
    + destruct (IH r) as (r' & -> & Hin & Hle & Hall). exists r'.
      repeat split; [destruct Hin; [now left | now right; right] | exact Hle |].
      intros q [<-|Hq]; [lia | now apply Hall].
Qed.

(** [rightmost_pipe] finds a pipe of the list that no pipe of the
    list lies to the right of, and finds none exactly when the list is
    empty. *)
Lemma rightmost_pipe_spec (ps : list Pipe.t) :
  match Game.rightmost_pipe ps with
  | Some r => In r ps /\ forall q, In q ps -> Pipe.x q <= Pipe.x r
  | None => ps = []
  end.
Proof.
  unfold Game.rightmost_pipe. destruct ps as [|pipe ps]; [reflexivity|].
  cbn [fold_left].
  destruct (rightmost_fold ps pipe) as (r' & -> & Hin & Hle & Hall).
  split; [exact Hin|]. intros q [<-|Hq]; [exact Hle | now apply Hall].
Qed.

Lemma moved_times_spec (n : nat) q :
  moved_times n q
  = Pipe.mk (Pipe.gap_y q) (Pipe.x q - PIPE_SPEED * Z.of_nat n) (Pipe.width q) (Pipe.passed q).
Proof.
  induction n as [|n IH].
  - destruct q as [gy x w ps]. cbn. f_equal. lia.
  - change (moved_times (S n) q) with (moved (moved_times n q)).
    rewrite IH. unfold moved, Pipe.update.
    cbn [fst Pipe.gap_y Pipe.x Pipe.width Pipe.passed]. f_equal. lia.
Qed.

(** X6.  A pipe moves 3 to the left at each [update], whatever else
    happens, so a pipe created at the right edge is at [400 - 3 n] after
    [n] updates; [update] reports it on screen for its first 159 updates
    and off screen from the 160th on. *)
Theorem pipe_lifetime (gap_y_draw : Z) (n : nat) :
  let pipe := moved_times n (Pipe.init gap_y_draw) in
  Pipe.x pipe = WINDOW_WIDTH - 3 * Z.of_nat n
  /\ Pipe.gap_y pipe = gap_y_draw
  /\ (snd (Pipe.update pipe) = true <-> (n < 159)%nat).
Proof.
  intros pipe. subst pipe. rewrite moved_times_spec. unfold Pipe.update, Pipe.init.
  cbn [fst snd Pipe.gap_y Pipe.x Pipe.width Pipe.passed].
  unfold PIPE_SPEED, WINDOW_WIDTH. rewrite Z.ltb_lt. repeat split; lia.
Qed.

End Pipes.

Section PipeLoop.

Implicit Types (g : Game.t) (p : Persistence.t) (q pipe : Pipe.t) (b : Bird.t).

Lemma save_high_score_max g p :
  fst (Game.save_high_score g p)
  = Game.set_high_score g (Z.max (Game.high_score g) (Game.score g)).
Proof.
  unfold Game.save_high_score.
  destruct (Z.ltb_spec (Game.high_score g) (Game.score g)); cbn [fst].
  - f_equal. lia.
  - destruct g. unfold Game.set_high_score. cbn in *. f_equal. lia.
Qed.

Lemma pipe_step_spec (sv : list Pipe.t) g p pipe :
  let q := moved pipe in
  let bx := Bird.x (Game.bird g) in
  Game.pipe_step (sv, g, p) pipe
  = if on_screen q then
      let g1 := if newly_passed bx q then Game.set_score g (Game.score g + 1) else g in
      if Pipe.check_collision (mark bx q) (Game.bird g)
      then (sv ++ [mark bx q],
            fst (Game.save_high_score (Game.set_game_over g1 true) p),
            snd (Game.save_high_score (Game.set_game_over g1 true) p))
      else (sv ++ [mark bx q], g1, p)
    else (sv, g, p).
Proof.
  intros q bx. subst q bx. unfold Game.pipe_step, moved, on_screen, mark, newly_passed.
  unfold Pipe.update. cbn [fst snd].
  set (q := Pipe.mk _ _ _ _).
  destruct (- Pipe.width q <? Pipe.x q); [|reflexivity].
  unfold Game.score_pass.
  destruct (negb (Pipe.passed q) && (Pipe.x q <? Bird.x (Game.bird g)));
    cbn [Game.bird Game.set_score];
    destruct (Pipe.check_collision _ (Game.bird g)); try reflexivity;
    now destruct (Game.save_high_score _ p).
Qed.

Lemma pipe_step_changes (sv : list Pipe.t) g p pipe :
  let q := moved pipe in
  let bx := Bird.x (Game.bird g) in
  let r := Game.pipe_step (sv, g, p) pipe in
  fst (fst r) = sv ++ surviving_pipes bx [pipe]
  /\ pipe_loop_changes
       (if on_screen q && newly_passed bx q then 1 else 0)
       (on_screen q && Pipe.check_collision (mark bx q) (Game.bird g))
       g (snd (fst r)).
Proof.
  intros q bx r. subst r. rewrite pipe_step_spec. fold q bx.
  unfold surviving_pipes. cbn [map List.filter]. fold q.
  destruct (on_screen q); cbn [andb map fst snd app].
  2:{ unfold pipe_loop_changes. rewrite app_nil_r, orb_false_r.
      repeat split; try reflexivity; lia. }
  destruct (Pipe.check_collision (mark bx q) (Game.bird g)); cbn [fst snd].
  - split; [reflexivity|]. rewrite save_high_score_max.
    unfold pipe_loop_changes. rewrite orb_true_r.
    destruct (newly_passed bx q); cbn; repeat split; lia.
  - split; [reflexivity|]. unfold pipe_loop_changes. rewrite orb_false_r.
    destruct (newly_passed bx q); cbn; repeat split; lia.
Qed.

Lemma pipe_loop_changes_trans (n m : Z) (h k : bool) g1 g2 g3 :
  0 <= m ->
  pipe_loop_changes n h g1 g2 -> pipe_loop_changes m k g2 g3 ->
  pipe_loop_changes (n + m) (h || k) g1 g3.
Proof.
  unfold pipe_loop_changes.
  intros Hm (Hb & Hp & Hc & Hs & Hlp & Hlc & Hsc & Ho & Hh)
         (Hb' & Hp' & Hc' & Hs' & Hlp' & Hlc' & Hsc' & Ho' & Hh').
  repeat split; try congruence; try lia.
  rewrite Ho', Ho. now rewrite orb_assoc.
Qed.

Lemma points_cons (bx : Z) pipe (ps : list Pipe.t) :
  points bx (pipe :: ps)
  = (if on_screen (moved pipe) && newly_passed bx (moved pipe) then 1 else 0) + points bx ps.
Proof.
  unfold points. cbn [map List.filter].
  destruct (on_screen (moved pipe)); cbn [andb List.filter]; [|lia].
  destruct (newly_passed bx (moved pipe)); cbn [length]; lia.
Qed.

Lemma points_nonneg (bx : Z) (ps : list Pipe.t) : 0 <= points bx ps.
Proof. unfold points. lia. Qed.

Lemma surviving_pipes_cons (bx : Z) pipe (ps : list Pipe.t) :
  surviving_pipes bx (pipe :: ps) = surviving_pipes bx [pipe] ++ surviving_pipes bx ps.
Proof.
  unfold surviving_pipes. cbn [map List.filter].
  now destruct (on_screen (moved pipe)).
Qed.

Lemma surviving_pipes_single_hit (bx : Z) pipe b :
  existsb (fun q => Pipe.check_collision q b) (surviving_pipes bx [pipe])
  = on_screen (moved pipe) && Pipe.check_collision (mark bx (moved pipe)) b.
Proof.
  unfold surviving_pipes. cbn [map List.filter].
  destruct (on_screen (moved pipe)); cbn; [now rewrite orb_false_r | reflexivity].
Qed.

Lemma fold_pipe_step_spec (ps : list Pipe.t) :
  forall (sv : list Pipe.t) g p,
    let bx := Bird.x (Game.bird g) in
    let r := fold_left Game.pipe_step ps (sv, g, p) in
    fst (fst r) = sv ++ surviving_pipes bx ps
    /\ pipe_loop_changes
         (points bx ps)
         (existsb (fun q => Pipe.check_collision q (Game.bird g)) (surviving_pipes bx ps))
         g (snd (fst r)).
Proof.
  induction ps as [|pipe ps IH]; intros sv g p bx r; subst r bx.
  - cbn [fold_left fst snd]. unfold surviving_pipes, points. cbn [map List.filter existsb length].
    rewrite app_nil_r. split; [reflexivity|].
    unfold pipe_loop_changes. rewrite orb_false_r. repeat split; lia.
  - cbn [fold_left].
    pose proof (pipe_step_changes sv g p pipe) as [Hsv Hch].
    destruct (Game.pipe_step (sv, g, p) pipe) as [[sv1 g1] p1]. cbn [fst snd] in *.
    specialize (IH sv1 g1 p1). cbn zeta in IH. destruct IH as [Hsv' Hch'].
    assert (Hb : Game.bird g1 = Game.bird g) by apply Hch.
    rewrite Hb in *. split.
    + rewrite Hsv', Hsv, (surviving_pipes_cons _ pipe ps). now rewrite app_assoc.
    + rewrite points_cons, (surviving_pipes_cons _ pipe ps), existsb_app,
        surviving_pipes_single_hit.
      eapply pipe_loop_changes_trans; [apply points_nonneg | exact Hch | exact Hch'].
Qed.

End PipeLoop.

Section CoinLoop.

Implicit Types (g : Game.t) (p : Persistence.t) (c coin : Coin.t) (b : Bird.t).
Variable sin : float -> float.

Lemma coin_loop_changes_refl g : coin_loop_changes 0 g g.
Proof. unfold coin_loop_changes. repeat split; lia. Qed.

Lemma coin_loop_changes_trans (n m : Z) g1 g2 g3 :
  coin_loop_changes n g1 g2 -> coin_loop_changes m g2 g3 ->
  coin_loop_changes (n + m) g1 g3.
Proof.
  unfold coin_loop_changes.
  intros (Hb & Hp & Hc & Hs & Hh & Hlp & Hlc & Ho & Ha & Hso & Hco)
         (Hb' & Hp' & Hc' & Hs' & Hh' & Hlp' & Hlc' & Ho' & Ha' & Hso' & Hco').
  repeat split; try congruence; lia.
Qed.

Lemma coin_step_changes (sv : list Coin.t) g p coin :
  let r := snd (Game.coin_step sin (sv, g, p) coin) in
  fst (fst r) = sv ++ surviving_coins sin (Game.bird g) [coin]
  /\ coin_loop_changes (total_value (touched_coins sin (Game.bird g) [coin])) g (snd (fst r)).
Proof.
  intros r. subst r.
  unfold Game.coin_step, surviving_coins, touched_coins, live_coins, total_value.
  cbn [List.filter map].
  destruct (Coin.collected coin); cbn [negb List.filter map fold_right snd fst].
  { rewrite app_nil_r. split; [reflexivity | apply coin_loop_changes_refl]. }
  unfold coin_moved, coin_on_screen.
  destruct (Coin.update sin coin) as [c on] eqn:Hu.
  assert (Hon : on = (- Coin.radius c * 2 <? Coin.x c)).
  { unfold Coin.update in Hu. injection Hu as <- <-. reflexivity. }
  cbn [fst]. rewrite <- Hon.
  destruct on; cbn [List.filter map fold_right snd fst].
  2:{ rewrite app_nil_r. split; [reflexivity | apply coin_loop_changes_refl]. }
  destruct (Coin.check_collision c (Game.bird g));
    cbn [negb List.filter map fold_right snd fst].
  - rewrite app_nil_r. split; [reflexivity|].
    unfold coin_loop_changes. cbn. repeat split; lia.
  - split; [reflexivity | apply coin_loop_changes_refl].
Qed.

Lemma live_coins_cons coin (cs : list Coin.t) :
  live_coins sin (coin :: cs) = live_coins sin [coin] ++ live_coins sin cs.
Proof.
  unfold live_coins. cbn [List.filter].
  destruct (negb (Coin.collected coin)); cbn [map List.filter]; [|reflexivity].
  now destruct (coin_on_screen (coin_moved sin coin)).
Qed.

Lemma total_value_app (cs cs' : list Coin.t) :
  total_value (cs ++ cs') = total_value cs + total_value cs'.
Proof.
  unfold total_value. induction cs as [|c cs IH]; cbn [app map fold_right]; lia.
Qed.

Lemma fold_coin_step_spec (cs : list Coin.t) :
  forall (sv : list Coin.t) g p,
    let r := coin_loop sin cs (sv, g, p) in
    fst (fst r) = sv ++ surviving_coins sin (Game.bird g) cs
    /\ coin_loop_changes (total_value (touched_coins sin (Game.bird g) cs)) g (snd (fst r)).
Proof.
  induction cs as [|coin cs IH]; intros sv g p r; subst r; unfold coin_loop in *.
  - cbn [fold_left fst snd]. unfold surviving_coins, touched_coins, live_coins, total_value.
    cbn [List.filter map fold_right]. rewrite app_nil_r.
    split; [reflexivity | apply coin_loop_changes_refl].
  - cbn [fold_left].
    pose proof (coin_step_changes sv g p coin) as [Hsv Hch].
    destruct (snd (Game.coin_step sin (sv, g, p) coin)) as [[sv1 g1] p1]. cbn [fst snd] in *.
    specialize (IH sv1 g1 p1). cbn zeta in IH. destruct IH as [Hsv' Hch'].
    assert (Hb : Game.bird g1 = Game.bird g) by apply Hch.
    rewrite Hb in *. unfold surviving_coins, touched_coins in *.
    rewrite (live_coins_cons coin cs), !List.filter_app, total_value_app. split.
    + rewrite Hsv', Hsv. now rewrite app_assoc.
    + eapply coin_loop_changes_trans; eassumption.
Qed.

End CoinLoop.

Section Loops.

Implicit Types (g : Game.t) (p : Persistence.t).

(** The pipe loop of a tick keeps, in their order, the pipes that
    are on screen after their move; it marks as passed those whose left
    edge is now left of the bird's and adds one point for each pipe newly
    marked; the game is over afterwards exactly when it was before or one
    of the kept pipes collides with the bird.  Bird, coins, shop and
    timers are not touched, and the high score never falls and never
    exceeds the greater of its old value and the new score. *)
Lemma update_pipes_changes g p :
  let bx := Bird.x (Game.bird g) in
  let g' := fst (Game.update_pipes g p) in
  Game.pipes g' = surviving_pipes bx (Game.pipes g)
  /\ Game.score g' = Game.score g + points bx (Game.pipes g)
  /\ Game.game_over g'
     = Game.game_over g
       || existsb (fun q => Pipe.check_collision q (Game.bird g)) (Game.pipes g')
  /\ Game.high_score g <= Game.high_score g' <= Z.max (Game.high_score g) (Game.score g')
  /\ Game.bird g' = Game.bird g /\ Game.coins g' = Game.coins g
  /\ Game.shop g' = Game.shop g
  /\ Game.last_pipe g' = Game.last_pipe g /\ Game.last_coin g' = Game.last_coin g.
Proof.
  intros bx g'. subst bx g'. unfold Game.update_pipes.
  pose proof (fold_pipe_step_spec (Game.pipes g) [] g p) as H. cbn zeta in H.
  destruct (fold_left Game.pipe_step (Game.pipes g) ([], g, p)) as [[sv g1] p1].
  cbn [fst snd app] in *. destruct H as [-> H]. unfold pipe_loop_changes in H.
  destruct H as (Hb & _ & Hc & Hs & Hlp & Hlc & Hsc & Ho & Hh).
  destruct g1; cbn in *. repeat split; try assumption; lia.
Qed.

(** The coin loop of a tick drops the coins already collected, moves
    the others and drops those that left the screen; of the rest, the
    coins the bird touches are collected, each adding its value to the
    balance, and the others are kept in their order.  Nothing else of the
    game changes. *)
Lemma update_coins_changes sin g p :
  let g' := fst (Game.update_coins sin g p) in
  Game.coins g' = surviving_coins sin (Game.bird g) (Game.coins g)
  /\ Shop.coins (Game.shop g')
     = Shop.coins (Game.shop g) + total_value (touched_coins sin (Game.bird g) (Game.coins g))
  /\ Shop.active (Game.shop g') = Shop.active (Game.shop g)
  /\ Shop.scroll_offset (Game.shop g') = Shop.scroll_offset (Game.shop g)
  /\ Game.bird g' = Game.bird g /\ Game.pipes g' = Game.pipes g
  /\ Game.score g' = Game.score g /\ Game.high_score g' = Game.high_score g
  /\ Game.game_over g' = Game.game_over g
  /\ Game.last_pipe g' = Game.last_pipe g /\ Game.last_coin g' = Game.last_coin g.
Proof.
  intros g'. subst g'. rewrite update_coins_loop.
  pose proof (fold_coin_step_spec sin (Game.coins g) [] g p) as H. cbn zeta in H.
  destruct (coin_loop sin (Game.coins g) ([], g, p)) as [[sv g1] p1].
  cbn [fst snd app] in *. destruct H as [-> H]. unfold coin_loop_changes in H.
  destruct H as (Hb & Hp & _ & Hs & Hh & Hlp & Hlc & Ho & Ha & Hso & Hco).
  destruct g1; cbn in *. repeat split; assumption.
Qed.

End Loops.

Section BirdInvariant.

Implicit Types (b : Bird.t) (p : Persistence.t) (v : float).

Lemma rising_next (k : Z) :
  -12 <= k < 0 ->
  (F.of_Z 0 <? F.decimal k 2)%F = false
  /\ (F.decimal k 2 + GRAVITY)%F = F.decimal (k + 1) 2.
Proof.
  intros H.
  assert (k = -12 \/ k = -11 \/ k = -10 \/ k = -9 \/ k = -8 \/ k = -7 \/ k = -6
          \/ k = -5 \/ k = -4 \/ k = -3 \/ k = -2 \/ k = -1) as Hk by lia.
  repeat (destruct Hk as [->|Hk]); try subst k; split; vm_compute; reflexivity.
Qed.

Lemma rising_bounds (k : Z) :
  -12 <= k <= 0 ->
  (F.of_Z FLAP_STRENGTH <=? F.decimal k 2)%F = true
  /\ (F.decimal k 2 <=? F.of_Z 0)%F = true.
Proof.
  intros H.
  assert (k = -12 \/ k = -11 \/ k = -10 \/ k = -9 \/ k = -8 \/ k = -7 \/ k = -6
          \/ k = -5 \/ k = -4 \/ k = -3 \/ k = -2 \/ k = -1 \/ k = 0) as Hk by lia.
  repeat (destruct Hk as [->|Hk]); try subst k; split; vm_compute; reflexivity.
Qed.

Lemma py_min_signed (a : float) :
  signed false a -> signed false (F.py_min a (F.of_Z MAX_VELOCITY)).
Proof.
  intros Ha. unfold F.py_min. destruct (F.of_Z MAX_VELOCITY <? a)%F; [reflexivity | exact Ha].
Qed.

Lemma update_velocity_ok b :
  velocity_ok (Bird.velocity b) -> velocity_ok (Bird.velocity (Bird.update b)).
Proof.
  intros [(k & Hk & Hv)|[Hs Hle]].
  - unfold Bird.update. cbn [Bird.velocity]. rewrite Hv.
    destruct (Z.eq_dec k 0) as [->|Hne].
    + right. split; vm_compute; reflexivity.
    + destruct (rising_next k ltac:(lia)) as [-> ->]. left. exists (k + 1). split; [lia|reflexivity].
  - right. split.
    + unfold Bird.update. cbn [Bird.velocity].
      destruct (F.of_Z 0 <? Bird.velocity b)%F eqn:Hpos.
      * apply py_min_signed. now apply falling_velocity_signed.
      * destruct (not_positive_cases _ Hpos (signed_not_nan _ _ Hs))
          as [[s Hz]|[Hz|(m & e & Hz)]]; rewrite Hz in *; simpl in Hs; try discriminate.
        subst s. vm_compute. reflexivity.
    + apply update_velocity_le. now apply (signed_not_nan false).
Qed.

Lemma flap_velocity_ok b : velocity_ok (Bird.velocity (Bird.flap b)).
Proof. left. exists (-12). split; [lia|]. vm_compute. reflexivity. Qed.

(** The bounds the invariant gives. *)
Lemma velocity_ok_bounds v :
  velocity_ok v ->
  (F.of_Z FLAP_STRENGTH <=? v)%F = true /\ (v <=? F.of_Z MAX_VELOCITY)%F = true.
Proof.
  intros [(k & Hk & ->)|[Hs Hle]].
  - destruct (rising_bounds k Hk) as [Hlo _]. split; [exact Hlo|].
    assert (k = -12 \/ k = -11 \/ k = -10 \/ k = -9 \/ k = -8 \/ k = -7 \/ k = -6
            \/ k = -5 \/ k = -4 \/ k = -3 \/ k = -2 \/ k = -1 \/ k = 0) as Hc by lia.
    repeat (destruct Hc as [->|Hc]); try subst k; vm_compute; reflexivity.
  - split; [|exact Hle].
    destruct v as [s|s| |s m e]; simpl in Hs; try contradiction; subst s; reflexivity.
Qed.

Lemma update_angle_ok b : angle_ok b -> angle_ok (Bird.update b).
Proof.
  unfold angle_ok, Bird.update. cbn [Bird.angle]. intros H.
  match goal with |- context [if ?c then 20 else _] => destruct c end; lia.
Qed.

Lemma update_bird_ok b : bird_ok b -> bird_ok (Bird.update b).
Proof.
  intros (Hx & Hs & Ha & Hk & Hc & Hv).
  repeat split; try assumption; try apply Hk.
  - now apply update_angle_ok.
  - now apply update_angle_ok.
  - now apply update_velocity_ok.
Qed.

Lemma flap_bird_ok b : bird_ok b -> bird_ok (Bird.flap b).
Proof.
  intros (Hx & Hs & Ha & Hk & Hc & Hv).
  repeat split; try assumption; try apply Hk; try (cbn; lia).
  apply flap_velocity_ok.
Qed.

Lemma same_body_refl b : same_body b b.
Proof. repeat split. Qed.

Lemma same_body_trans b1 b2 b3 : same_body b1 b2 -> same_body b2 b3 -> same_body b1 b3.
Proof. unfold same_body. intuition congruence. Qed.

Lemma set_skin_body skin_name b p : same_body b (fst (Bird.set_skin skin_name b p)).
Proof. unfold Bird.set_skin. destruct (_ && _); repeat split. Qed.

Lemma purchase_skin_body skin_name (coins : Z) b p :
  same_body b (snd (fst (Bird.purchase_skin skin_name coins b p))).
Proof.
  unfold Bird.purchase_skin. destruct (Bird.price _); [destruct (_ && _)|]; repeat split.
Qed.

Lemma set_skin_in_SKINS skin_name b p :
  Bird.in_SKINS (Bird.current_skin b) = true ->
  Bird.in_SKINS (Bird.current_skin (fst (Bird.set_skin skin_name b p))) = true.
Proof.
  intros H. unfold Bird.set_skin.
  destruct (Bird.in_SKINS skin_name) eqn:Hin; cbn [andb]; [|exact H].
  destruct (bool_decide _); [exact Hin | exact H].
Qed.

Lemma purchase_skin_current skin_name (coins : Z) b p :
  Bird.current_skin (snd (fst (Bird.purchase_skin skin_name coins b p))) = Bird.current_skin b.
Proof.
  unfold Bird.purchase_skin. destruct (Bird.price _); [destruct (_ && _)|]; reflexivity.
Qed.

Lemma bird_ok_body b b' :
  same_body b b' -> skins_ok b' -> Bird.in_SKINS (Bird.current_skin b') = true ->
  bird_ok b -> bird_ok b'.
Proof.
  intros (Hx & Hy & Hv & Hs & Ha) Hk Hc (Hx' & Hs' & Ha' & _ & _ & Hv').
  unfold bird_ok, angle_ok in *. rewrite Hx, Hs, Ha, Hv. repeat split; try assumption; try apply Hk; lia.
Qed.

Lemma init_bird_ok p : bird_ok (fst (Bird.init p)).
Proof.
  pose proof (bird_init_spec p) as (_ & Hcur & Hphys & _).
  pose proof (init_skins_ok p) as Hk.
  destruct (Bird.init p) as [b p']. cbn [fst snd] in *.
  injection Hphys as Hx Hy Hv Hs Ha.
  repeat split; try apply Hk.
  - exact Hx.
  - exact Hs.
  - rewrite Ha. lia.
  - rewrite Ha. lia.
  - rewrite Hcur. destruct (nth 1 _ _); [reflexivity|].
    unfold stored_skin. destruct (_ !! _) as [skin|]; [|reflexivity].
    destruct (negb _ && Bird.in_SKINS skin && _) eqn:E; [|reflexivity].
    apply andb_prop in E as [E _]. now apply andb_prop in E as [_ E].
  - rewrite Hv. left. exists 0. split; [lia|]. vm_compute. reflexivity.
Qed.

End BirdInvariant.

Section TickShape.

Implicit Types (g : Game.t) (p : Persistence.t) (e : Env) (b : Bird.t).
Variable sin : float -> float.

Lemma create_pipes_spec e g :
  let g' := Game.create_pipes e g in
  Game.pipes g' = Game.pipes g ++ new_pipes e g
  /\ Game.bird g' = Game.bird g /\ Game.coins g' = Game.coins g
  /\ Game.score g' = Game.score g /\ Game.high_score g' = Game.high_score g
  /\ Game.game_over g' = Game.game_over g /\ Game.shop g' = Game.shop g
  /\ Game.last_coin g' = Game.last_coin g.
Proof.
  unfold Game.create_pipes, new_pipes.
  destruct (PIPE_FREQUENCY <? _); cbn; rewrite ?app_nil_r; repeat split.
Qed.

Lemma create_coins_spec e g :
  let g' := Game.create_coins e g in
  Game.coins g' = Game.coins g ++ coins_due e (Game.last_coin g) (Game.pipes g)
  /\ Game.bird g' = Game.bird g /\ Game.pipes g' = Game.pipes g
  /\ Game.score g' = Game.score g /\ Game.high_score g' = Game.high_score g
  /\ Game.game_over g' = Game.game_over g /\ Game.shop g' = Game.shop g
  /\ Game.last_pipe g' = Game.last_pipe g.
Proof.
  unfold Game.create_coins, coins_due, coin_spot.
  destruct (COIN_FREQUENCY <? _); cbn; rewrite ?app_nil_r; [|repeat split].
  destruct (Game.rightmost_pipe (Game.pipes g)) as [r|]; [destruct (Pipe.x r <? _)|];
    cbn; repeat split.
Qed.

(** A tick of a running game, step by step. *)
Lemma update_running e g p :
  Game.game_over g = false -> Shop.active (Game.shop g) = false ->
  let b := Bird.update (Game.bird g) in
  let g' := fst (Game.update sin e g p) in
  Game.bird g' = b
  /\ Game.pipes g' = surviving_pipes (Bird.x b) (Game.pipes g ++ new_pipes e g)
  /\ Game.coins g' = surviving_coins sin b (Game.coins g ++ new_coins e g)
  /\ Game.game_over g'
     = Game.hits_screen_edge b
       || existsb (fun q => Pipe.check_collision q b) (Game.pipes g')
  /\ Game.score g' = Game.score g + points (Bird.x b) (Game.pipes g ++ new_pipes e g)
  /\ Shop.active (Game.shop g') = false
  /\ Shop.scroll_offset (Game.shop g') = Shop.scroll_offset (Game.shop g)
  /\ Shop.coins (Game.shop g')
     = Shop.coins (Game.shop g)
       + total_value (touched_coins sin b (Game.coins g ++ new_coins e g))
  /\ Game.high_score g <= Game.high_score g' <= Z.max (Game.high_score g) (Game.score g').
Proof.
  intros Ho Ha b g'. subst g'. unfold Game.update. rewrite Ho, Ha. cbn [negb andb].
  set (g1 := Game.set_bird g (Bird.update (Game.bird g))).
  assert (H2 : let g2 := fst (Game.check_screen_edges g1 p) in
               Game.bird g2 = b /\ Game.pipes g2 = Game.pipes g
               /\ Game.coins g2 = Game.coins g /\ Game.shop g2 = Game.shop g
               /\ Game.score g2 = Game.score g
               /\ Game.last_pipe g2 = Game.last_pipe g
               /\ Game.last_coin g2 = Game.last_coin g
               /\ Game.game_over g2 = Game.hits_screen_edge b
               /\ Game.high_score g <= Game.high_score g2
                  <= Z.max (Game.high_score g) (Game.score g)).
  { unfold Game.check_screen_edges. cbn [Game.bird g1 Game.set_bird]. fold b.
    destruct (Game.hits_screen_edge b).
    - rewrite save_high_score_max. cbn. repeat split; lia.
    - cbn. repeat split; try assumption; lia. }
  destruct (Game.check_screen_edges g1 p) as [g2 p2]. cbn [fst] in H2.
  destruct H2 as (Hb2 & Hp2 & Hc2 & Hs2 & Hsc2 & Hlp2 & Hlc2 & Ho2 & Hh2).
  unfold Game.spawn_and_move.
  pose proof (create_pipes_spec e g2) as (Hp3 & Hb3 & Hc3 & Hsc3 & Hh3 & Ho3 & Hs3 & Hlc3).
  assert (Hnp : new_pipes e g2 = new_pipes e g) by (unfold new_pipes; now rewrite Hlp2).
  set (g3 := Game.create_pipes e g2) in *.
  pose proof (create_coins_spec e g3) as (Hc4 & Hb4 & Hp4 & Hsc4 & Hh4 & Ho4 & Hs4 & Hlp4).
  assert (Hnc : coins_due e (Game.last_coin g3) (Game.pipes g3) = new_coins e g).
  { unfold new_coins. now rewrite Hlc3, Hlc2, Hp3, Hp2, Hnp. }
  rewrite Hnc in Hc4.
  set (g4 := Game.create_coins e g3) in *.
  pose proof (update_pipes_changes g4 p2) as (Hp5 & Hsc5 & Ho5 & Hh5 & Hb5 & Hc5 & Hs5 & _).
  destruct (Game.update_pipes g4 p2) as [g5 p5]. cbn [fst] in *.
  pose proof (update_coins_changes sin g5 p5)
    as (Hc6 & Hco6 & Ha6 & Hso6 & Hb6 & Hp6 & Hsc6 & Hh6 & Ho6 & _).
  destruct (Game.update_coins sin g5 p5) as [g6 p6]. cbn [fst] in *.
  assert (Hb : Game.bird g4 = b) by congruence.
  assert (Hps : Game.pipes g4 = Game.pipes g ++ new_pipes e g) by congruence.
  assert (Hcs : Game.coins g5 = Game.coins g ++ new_coins e g) by congruence.
  rewrite Hb, Hps in *. rewrite Hb5, Hcs in *.
  pose proof (points_nonneg (Bird.x b) (Game.pipes g ++ new_pipes e g)).
  repeat split; try congruence; lia.
Qed.

Lemma update_idle e g p :
  Game.game_over g = true \/ Shop.active (Game.shop g) = true ->
  Game.update sin e g p = (g, p).
Proof. unfold Game.update. intros [-> | ->]; cbn; [|rewrite andb_false_r]; reflexivity. Qed.

End TickShape.

Section World.

Implicit Types (g : Game.t) (p : Persistence.t) (e : Env) (b : Bird.t)
         (q pipe : Pipe.t) (c coin : Coin.t).
Variable sin : float -> float.

Lemma surviving_pipes_In (bx : Z) (ps : list Pipe.t) q' :
  In q' (surviving_pipes bx ps)
  <-> exists q, In q ps /\ on_screen (moved q) = true /\ q' = mark bx (moved q).
Proof.
  unfold surviving_pipes. rewrite List.in_map_iff. split.
  - intros (q1 & <- & Hin). apply List.filter_In in Hin as [Hin Hon].
    apply List.in_map_iff in Hin as (q & <- & Hin). eauto.
  - intros (q & Hin & Hon & ->). exists (moved q). split; [reflexivity|].
    apply List.filter_In. split; [|exact Hon]. now apply List.in_map.
Qed.

Lemma mark_x (bx : Z) q : Pipe.x (mark bx q) = Pipe.x q.
Proof. unfold mark. now destruct (newly_passed bx q). Qed.

Lemma mark_width (bx : Z) q : Pipe.width (mark bx q) = Pipe.width q.
Proof. unfold mark. now destruct (newly_passed bx q). Qed.

Lemma mark_collision (bx : Z) q b :
  Pipe.check_collision (mark bx q) b = Pipe.check_collision q b.
Proof. unfold mark. now destruct (newly_passed bx q). Qed.

Lemma moved_x q : Pipe.x (moved q) = Pipe.x q - PIPE_SPEED.
Proof. reflexivity. Qed.

(** A pipe as the tick finds it: an old one, or the one just made. *)
Lemma pipes_before_move (bx : Z) e g :
  bx <= WINDOW_WIDTH ->
  Forall (pipe_ok bx) (Game.pipes g) ->
  Forall (fun q => Pipe.width q = 80 /\ Pipe.x q <= WINDOW_WIDTH
                   /\ Pipe.passed q = (Pipe.x q <? bx))
         (Game.pipes g ++ new_pipes e g).
Proof.
  intros Hbx H. apply List.Forall_app. split.
  - eapply List.Forall_impl; [|exact H]. unfold pipe_ok, WINDOW_WIDTH, PIPE_SPEED.
    intros q (Hw & Hx & Hp). repeat split; [exact Hw | lia | exact Hp].
  - unfold new_pipes. destruct (PIPE_FREQUENCY <? _); constructor; [|constructor].
    cbn. repeat split; [reflexivity|]. symmetry. apply Z.ltb_ge. exact Hbx.
Qed.

Lemma surviving_pipes_ok (bx : Z) (ps : list Pipe.t) :
  Forall (fun q => Pipe.width q = 80 /\ Pipe.x q <= WINDOW_WIDTH
                   /\ Pipe.passed q = (Pipe.x q <? bx)) ps ->
  Forall (pipe_ok bx) (surviving_pipes bx ps).
Proof.
  intros H. apply List.Forall_forall. intros q' Hin.
  apply surviving_pipes_In in Hin as (q & Hin & Hon & ->).
  rewrite List.Forall_forall in H. destruct (H q Hin) as (Hw & Hx & Hp).
  unfold on_screen in Hon. apply Z.ltb_lt in Hon.
  unfold pipe_ok. rewrite mark_x, mark_width.
  change (Pipe.width (moved q)) with (Pipe.width q) in *.
  rewrite moved_x in *. unfold WINDOW_WIDTH, PIPE_SPEED in *.
  repeat split; try lia.
  unfold mark, newly_passed. change (Pipe.passed (moved q)) with (Pipe.passed q).
  rewrite moved_x, Hp. unfold PIPE_SPEED.
  destruct (Z.ltb_spec (Pipe.x q) bx), (Z.ltb_spec (Pipe.x q - 3) bx);
    cbn; first [reflexivity | assumption | lia].
Qed.

Lemma sorted_snoc (ps : list Pipe.t) q :
  StronglySorted left_of ps -> Forall (fun a => left_of a q) ps ->
  StronglySorted left_of (ps ++ [q]).
Proof.
  induction 1 as [|a l Hs IH Ha]; intros Hq; cbn [app].
  - repeat constructor.
  - inversion Hq as [|? ? Haq Hlq]; subst. constructor; [now apply IH|].
    apply List.Forall_app. split; [exact Ha | now repeat constructor].
Qed.

Lemma pipes_sorted_before_move (bx : Z) e g :
  Forall (pipe_ok bx) (Game.pipes g) -> StronglySorted left_of (Game.pipes g) ->
  StronglySorted left_of (Game.pipes g ++ new_pipes e g).
Proof.
  intros Hok Hs. unfold new_pipes. destruct (PIPE_FREQUENCY <? _).
  - apply sorted_snoc; [exact Hs|]. eapply List.Forall_impl; [|exact Hok].
    unfold pipe_ok, left_of. cbn. unfold WINDOW_WIDTH, PIPE_SPEED. intros q (_ & Hx & _). lia.
  - now rewrite app_nil_r.
Qed.

Lemma surviving_pipes_sorted (bx : Z) (ps : list Pipe.t) :
  StronglySorted left_of ps -> StronglySorted left_of (surviving_pipes bx ps).
Proof.
  induction 1 as [|a l Hs IH Ha].
  - constructor.
  - rewrite (surviving_pipes_cons bx a l).
    assert (Hall : Forall (left_of (mark bx (moved a))) (surviving_pipes bx l)).
    { apply List.Forall_forall. intros q' Hin.
      apply surviving_pipes_In in Hin as (q & Hin & _ & ->).
      rewrite List.Forall_forall in Ha. specialize (Ha q Hin).
      unfold left_of in *. rewrite !mark_x, !moved_x. lia. }
    unfold surviving_pipes at 1. cbn [map List.filter].
    destruct (on_screen (moved a)); cbn [map app]; [|exact IH].
    constructor; assumption.
Qed.

Lemma surviving_coins_In b (cs : list Coin.t) c' :
  In c' (surviving_coins sin b cs)
  <-> exists c, In c cs /\ Coin.collected c = false /\ c' = coin_moved sin c
                /\ coin_on_screen c' = true /\ Coin.check_collision c' b = false.
Proof.
  unfold surviving_coins, live_coins. rewrite List.filter_In, List.filter_In, List.in_map_iff.
  split.
  - intros [[(c & <- & Hin) Hon] Hc]. apply List.filter_In in Hin as [Hin Hcol].
    exists c. repeat split; try assumption.
    + now destruct (Coin.collected c).
    + now destruct (Coin.check_collision _ b).
  - intros (c & Hin & Hcol & -> & Hon & Hc). repeat split.
    + exists c. split; [reflexivity|]. apply List.filter_In. now rewrite Hcol.
    + exact Hon.
    + now rewrite Hc.
Qed.

Lemma coin_spot_x e (ps : list Pipe.t) :
  Forall (fun q => Pipe.width q = 80) ps -> fst (coin_spot e ps) < WINDOW_WIDTH + 30.
Proof.
  intros Hw. unfold coin_spot. pose proof (rightmost_pipe_spec ps) as Hr.
  destruct (Game.rightmost_pipe ps) as [r|]; [|cbn; unfold WINDOW_WIDTH; lia].
  destruct Hr as [Hin _]. rewrite List.Forall_forall in Hw. specialize (Hw r Hin).
  destruct (Z.ltb_spec (Pipe.x r) (WINDOW_WIDTH - 100)); cbn; unfold WINDOW_WIDTH in *; lia.
Qed.

Lemma coins_before_move b e g :
  Forall (pipe_ok (Bird.x b)) (Game.pipes g) ->
  Forall (coin_ok b) (Game.coins g) ->
  Forall (fun c => Coin.radius c = 10
                   /\ Coin.value c = (if Coin.is_special c then 10 else 5)
                   /\ Coin.x c < WINDOW_WIDTH + 30)
         (Game.coins g ++ new_coins e g).
Proof.
  intros Hp Hc. apply List.Forall_app. split.
  - eapply List.Forall_impl; [|exact Hc]. unfold coin_ok. intros c (_ & Hr & Hv & Hx & _).
    repeat split; [exact Hr | exact Hv | lia].
  - unfold new_coins, coins_due. destruct (COIN_FREQUENCY <? _); constructor; [|constructor].
    unfold Coin.init. cbn [Coin.radius Coin.value Coin.is_special Coin.x].
    repeat split.
    apply coin_spot_x. apply List.Forall_app. split.
    + eapply List.Forall_impl; [|exact Hp]. now intros q (Hw & _).
    + unfold new_pipes. destruct (PIPE_FREQUENCY <? _); repeat constructor.
Qed.

Lemma surviving_coins_ok b (cs : list Coin.t) :
  Forall (fun c => Coin.radius c = 10
                   /\ Coin.value c = (if Coin.is_special c then 10 else 5)
                   /\ Coin.x c < WINDOW_WIDTH + 30) cs ->
  Forall (coin_ok b) (surviving_coins sin b cs).
Proof.
  intros H. apply List.Forall_forall. intros c' Hin.
  apply surviving_coins_In in Hin as (c & Hin & Hcol & -> & Hon & Hc).
  rewrite List.Forall_forall in H. destruct (H c Hin) as (Hr & Hv & Hx).
  unfold coin_on_screen in Hon. apply Z.ltb_lt in Hon.
  unfold coin_ok. unfold coin_moved, Coin.update in *.
  cbn [fst Coin.collected Coin.radius Coin.value Coin.is_special Coin.x] in *.
  rewrite Hr in *. unfold PIPE_SPEED, WINDOW_WIDTH in *. repeat split; try assumption; lia.
Qed.

Lemma update_sound e g p : sound g -> sound (fst (Game.update sin e g p)).
Proof.
  intros Hg.
  destruct (Game.game_over g) eqn:Ho; [now rewrite update_idle by now left|].
  destruct (Shop.active (Game.shop g)) eqn:Ha; [now rewrite update_idle by now right|].
  destruct Hg as (_ & Hb & Hps & Hsorted & Hcs & Hscroll & Hscore & _).
  pose proof (update_running sin e g p Ho Ha)
    as (Hb' & Hps' & Hcs' & Ho' & Hsc' & Ha' & Hso' & _ & _).
  cbn zeta in *. set (g' := fst (Game.update sin e g p)) in *.
  assert (Hbok : bird_ok (Bird.update (Game.bird g))) by now apply update_bird_ok.
  assert (Hx : Bird.x (Bird.update (Game.bird g)) = Bird.x (Game.bird g)) by reflexivity.
  assert (Hbx : Bird.x (Game.bird g) <= WINDOW_WIDTH).
  { destruct Hb as (-> & _). vm_compute. discriminate. }
  assert (Hplay : in_play g').
  { unfold in_play. rewrite Ho', Hb'. intros Hrun.
    apply orb_false_elim in Hrun as [Hedge Hhit]. split; [exact Hedge|].
    apply List.Forall_forall. intros q Hq.
    destruct (Pipe.check_collision q _) eqn:Hc; [|reflexivity].
    assert (existsb (fun q => Pipe.check_collision q (Bird.update (Game.bird g)))
                    (Game.pipes g') = true) as Hex by (apply List.existsb_exists; eauto).
    congruence. }
  unfold sound. split; [rewrite Ha'; apply andb_false_r|].
  split; [now rewrite Hb'|]. refine (conj _ (conj _ (conj _ (conj _ (conj _ Hplay))))).
  all: rewrite ?Hb', ?Hps', ?Hcs', ?Hso', ?Hsc', ?Hx; try apply Hscroll.
  - apply surviving_pipes_ok. now apply pipes_before_move.
  - apply surviving_pipes_sorted. now apply (pipes_sorted_before_move (Bird.x (Game.bird g))).
  - apply surviving_coins_ok. now apply (coins_before_move (Game.bird g)).
  - pose proof (points_nonneg (Bird.x (Game.bird g)) (Game.pipes g ++ new_pipes e g)). lia.
Qed.

End World.

Section ShopEvents.

Implicit Types (g : Game.t) (p : Persistence.t) (b : Bird.t) (s : Shop.t).

Lemma shop_changes_intro s b s' b' :
  same_body b b' -> (skins_ok b -> skins_ok b') ->
  (Bird.in_SKINS (Bird.current_skin b) = true ->
   Bird.in_SKINS (Bird.current_skin b') = true) ->
  Shop.active s' = Shop.active s \/ Shop.active s' = false ->
  Shop.scroll_offset s' = Shop.scroll_offset s
  \/ Shop.scroll_offset s' = Z.max 0 (Shop.scroll_offset s - Shop.scroll_speed)
  \/ Shop.scroll_offset s' = Z.min 90 (Shop.scroll_offset s + Shop.scroll_speed) ->
  shop_changes s b s' b'.
Proof.
  intros Hb Hk Hc Ha Hs. unfold shop_changes, Shop.scroll_speed in *.
  refine (conj Hb (conj Hk (conj Hc (conj _ _)))).
  - destruct Ha as [-> | ->]; [auto | discriminate].
  - lia.
Qed.

Lemma shop_changes_refl s b : shop_changes s b s b.
Proof. apply shop_changes_intro; auto. apply same_body_refl. Qed.

Lemma click_button_changes (item : string * Z) s b p :
  let r := Shop.click_button item s b p in
  shop_changes s b (fst (fst r)) (snd (fst r)).
Proof.
  intros r. subst r.
  pose proof (click_button_skins_ok item s b p) as Hk.
  destruct item as [skin_name cost]. unfold Shop.click_button in *.
  case_bool_decide.
  - pose proof (set_skin_body skin_name b p) as H1.
    pose proof (set_skin_in_SKINS skin_name b p) as H2.
    destruct (Bird.set_skin skin_name b p) as [b1 p1]. cbn [fst snd] in *.
    apply shop_changes_intro; auto.
  - destruct (cost <=? Shop.coins s); [|apply shop_changes_refl].
    pose proof (purchase_skin_body skin_name (Shop.coins s) b p) as H1.
    pose proof (purchase_skin_current skin_name (Shop.coins s) b p) as H2.
    destruct (Bird.purchase_skin skin_name (Shop.coins s) b p) as [[[|] b1] p1];
      cbn [fst snd] in *.
    + pose proof (set_skin_body skin_name b1 p1) as H3.
      pose proof (set_skin_in_SKINS skin_name b1 p1) as H4.
      destruct (Bird.set_skin skin_name b1 p1) as [b2 p2]. cbn [fst snd] in *.
      apply shop_changes_intro; cbn [Shop.active Shop.scroll_offset]; auto.
      * eapply same_body_trans; eassumption.
      * intros Hc. apply H4. now rewrite H2.
    + apply shop_changes_intro; auto. intros Hc. now rewrite H2.
Qed.

Lemma click_button_active (item : string * Z) s b p :
  Shop.active (fst (fst (Shop.click_button item s b p))) = Shop.active s.
Proof.
  destruct item as [skin_name cost]. unfold Shop.click_button.
  case_bool_decide.
  - now destruct (Bird.set_skin skin_name b p).
  - destruct (cost <=? Shop.coins s); [|reflexivity].
    destruct (Bird.purchase_skin skin_name (Shop.coins s) b p) as [[[|] b1] p1];
      [|reflexivity].
    now destruct (Bird.set_skin skin_name b1 p1).
Qed.

Lemma click_buttons_changes (items : list (string * Z)) :
  forall (y_pos : Z) (pos : Z * Z) s b p r,
    Shop.click_buttons items y_pos pos s b p = Some r ->
    shop_changes s b (fst (fst r)) (snd (fst r)).
Proof.
  induction items as [|item items IH]; intros y_pos pos s b p r; cbn [Shop.click_buttons].
  - discriminate.
  - destruct (pygame.collidepoint _ pos).
    + intros [= <-]. apply click_button_changes.
    + apply IH.
Qed.

Lemma handle_click_changes (pos : Z * Z) (click_rect : pygame.Rect) s b p :
  let r := snd (Shop.handle_click pos click_rect s b p) in
  shop_changes s b (fst (fst r)) (snd (fst r)).
Proof.
  intros r. subst r. unfold Shop.handle_click.
  destruct (negb (Shop.active s)); [apply shop_changes_refl|].
  destruct (Shop.click_buttons Bird.SKINS 0 pos s b p) as [r|] eqn:Hr.
  - cbn [snd]. eapply click_buttons_changes. exact Hr.
  - destruct (pygame.collidepoint click_rect pos); cbn [fst snd];
      [|apply shop_changes_refl].
    apply shop_changes_intro; cbn [Shop.active Shop.scroll_offset]; auto.
    apply same_body_refl.
Qed.

Lemma shop_handle_events_changes (event : pygame.Event) (click_rect : pygame.Rect) s b p :
  let r := snd (Shop.handle_events event click_rect s b p) in
  shop_changes s b (fst (fst r)) (snd (fst r)).
Proof.
  intros r. subst r. unfold Shop.handle_events.
  destruct (negb (Shop.active s)); [apply shop_changes_refl|].
  destruct event as [|key|button pos| |]; try apply shop_changes_refl.
  destruct (button =? 4); [|destruct (button =? 5); [|destruct (button =? 1)]];
    cbn [fst snd]; try apply shop_changes_refl; try apply handle_click_changes.
  - apply shop_changes_intro; cbn [Shop.active Shop.scroll_offset]; auto.
    apply same_body_refl.
  - apply shop_changes_intro; cbn [Shop.active Shop.scroll_offset]; auto.
    apply same_body_refl.
Qed.

End ShopEvents.

Section GameEvents.

Implicit Types (g : Game.t) (p : Persistence.t) (b : Bird.t) (s : Shop.t).
Variable py_int : string -> option Z.
Variable click_rect : pygame.Rect.

(** The bird's box decides every collision. *)
Lemma same_body_box b b' : same_body b b' -> same_box b b'.
Proof. intros (Hx & Hy & _ & Hs & _). repeat split; assumption. Qed.

Lemma same_box_refl b : same_box b b.
Proof. repeat split. Qed.

Lemma hits_screen_edge_body b b' :
  same_box b b' -> Game.hits_screen_edge b' = Game.hits_screen_edge b.
Proof.
  intros (_ & Hy & Hs). unfold Game.hits_screen_edge. now rewrite Hy, Hs.
Qed.

Lemma pipe_collision_body (q : Pipe.t) b b' :
  same_box b b' -> Pipe.check_collision q b' = Pipe.check_collision q b.
Proof.
  intros (Hx & Hy & Hs). unfold Pipe.check_collision. now rewrite Hx, Hy, Hs.
Qed.

Lemma coin_collision_body (c : Coin.t) b b' :
  same_box b b' -> Coin.check_collision c b' = Coin.check_collision c b.
Proof.
  intros (Hx & Hy & Hs). unfold Coin.check_collision. now rewrite Hx, Hy, Hs.
Qed.

Lemma init_sound (ticks : Z * Z) p : sound (fst (Game.init py_int ticks p)).
Proof.
  rewrite game_init_spec. cbn [fst]. unfold sound, in_play. cbn.
  pose proof (init_bird_ok p) as Hb.
  pose proof (bird_init_spec p) as (_ & _ & Hphys & _). cbn zeta in Hphys.
  injection Hphys as Hx Hy Hv Hs Ha.
  repeat split; try apply Hb; try constructor; try lia.
  unfold Game.hits_screen_edge. rewrite Hy, Hs. vm_compute. reflexivity.
Qed.

(** A change of the bird that keeps its box, and of the shop that keeps
    the mode, keeps the invariant. *)
Lemma sound_body g b' s' :
  sound g -> same_box (Game.bird g) b' -> bird_ok b' ->
  Game.game_over g && Shop.active s' = false ->
  0 <= Shop.scroll_offset s' <= 90 ->
  sound (Game.set_shop (Game.set_bird g b') s').
Proof.
  intros (Hm & Hb & Hps & Hsorted & Hcs & Hscroll & Hscore & Hplay) Hbody Hb' Hm' Hscroll'.
  unfold sound, in_play. cbn.
  assert (Hx : Bird.x b' = Bird.x (Game.bird g)) by apply Hbody.
  rewrite Hx. refine (conj Hm' (conj Hb' (conj Hps (conj Hsorted (conj _ (conj Hscroll' (conj Hscore _))))))).
  - eapply List.Forall_impl; [|exact Hcs]. unfold coin_ok. intros c (H1 & H2 & H3 & H4 & H5).
    rewrite (coin_collision_body c _ _ Hbody). auto.
  - intros Ho. destruct (Hplay Ho) as [He Hp].
    rewrite (hits_screen_edge_body _ _ Hbody). split; [exact He|].
    eapply List.Forall_impl; [|exact Hp]. intros q Hq.
    now rewrite (pipe_collision_body q _ _ Hbody).
Qed.

Lemma sound_set_bird g b' :
  sound g -> same_box (Game.bird g) b' -> bird_ok b' -> sound (Game.set_bird g b').
Proof.
  intros Hg Hbody Hb'.
  replace (Game.set_bird g b') with (Game.set_shop (Game.set_bird g b') (Game.shop g))
    by now destruct g.
  apply sound_body; try assumption; apply Hg.
Qed.

Lemma sound_set_shop g s' :
  sound g -> Game.game_over g && Shop.active s' = false ->
  0 <= Shop.scroll_offset s' <= 90 -> sound (Game.set_shop g s').
Proof.
  intros Hg Hm Hs.
  replace (Game.set_shop g s') with (Game.set_shop (Game.set_bird g (Game.bird g)) s')
    by now destruct g.
  apply sound_body; try assumption; [apply same_box_refl | apply Hg].
Qed.

Lemma mouse_event_sound (event : pygame.Event) g p :
  sound g ->
  sound (snd (fst (if Shop.active (Game.shop g) then
                     let '(_, (s, b, p)) :=
                       Shop.handle_events event click_rect (Game.shop g) (Game.bird g) p in
                     (true, Game.set_shop (Game.set_bird g b) s, p)
                   else (true, g, p)))).
Proof.
  intros Hg. pose proof Hg as (Hm & Hb & _ & _ & _ & Hscroll & _).
  destruct (Shop.active (Game.shop g)); cbn [fst snd]; [|exact Hg].
  pose proof (shop_handle_events_changes event click_rect (Game.shop g) (Game.bird g) p) as H.
  destruct (Shop.handle_events event click_rect (Game.shop g) (Game.bird g) p)
    as [consumed [[s' b'] p']].
  cbn [fst snd] in *. destruct H as (Hbody & Hk & Hc & Hact & Hsc).
  apply sound_body; try assumption; [now apply same_body_box| | |auto].
  - eapply bird_ok_body; [exact Hbody | apply Hk, Hb | apply Hc, Hb | exact Hb].
  - destruct (Game.game_over g); [discriminate Hm | reflexivity].
Qed.

Lemma handle_event_sound (ticks : Z * Z) (event : pygame.Event) g p :
  sound g -> sound (snd (fst (Game.handle_event py_int ticks click_rect event g p))).
Proof.
  intros Hg. pose proof Hg as (Hm & Hb & _ & _ & _ & Hscroll & _).
  destruct event as [|[| | |]|button pos| |]; cbn [Game.handle_event fst snd]; try exact Hg.
  - (* space *)
    destruct (Game.game_over g) eqn:Ho.
    + pose proof (init_sound ticks p) as Hi.
      now destruct (Game.init py_int ticks p) as [g' p'].
    + destruct (negb (Shop.active (Game.shop g))); cbn [fst snd]; [|exact Hg].
      apply sound_set_bird; [exact Hg | repeat split | now apply flap_bird_ok].
  - (* s *)
    destruct (Game.game_over g) eqn:Ho; cbn [negb fst snd]; [exact Hg|].
    apply sound_set_shop; [exact Hg | now rewrite Ho | exact Hscroll].
  - apply mouse_event_sound; assumption.
  - apply mouse_event_sound; assumption.
Qed.

Lemma handle_events_sound (ticks : Z * Z) (events : list pygame.Event) :
  forall g p,
    sound g -> sound (snd (fst (Game.handle_events py_int ticks click_rect events g p))).
Proof.
  induction events as [|event events IH]; intros g p Hg; cbn [Game.handle_events];
    [exact Hg|].
  pose proof (handle_event_sound ticks event g p Hg) as H.
  destruct (Game.handle_event py_int ticks click_rect event g p) as [[[|] g1] p1];
    cbn [fst snd] in *; [now apply IH | exact H].
Qed.

Variable sin : float -> float.

Lemma main_pass_sound (f : Frame) g p :
  sound g -> sound (snd (fst (main_pass py_int sin click_rect f g p))).
Proof.
  intros Hg. unfold main_pass.
  pose proof (handle_events_sound (reset_ticks f) (events f) g p Hg) as H.
  destruct (Game.handle_events py_int (reset_ticks f) click_rect (events f) g p)
    as [[running g1] p1]. cbn [fst snd] in H.
  pose proof (update_sound sin (frame_env f) g1 p1 H) as H'.
  now destruct (Game.update sin (frame_env f) g1 p1) as [g2 p2].
Qed.

Lemma main_loop_sound (frames : list Frame) :
  forall g p, sound g -> sound (snd (fst (main_loop py_int sin click_rect frames g p))).
Proof.
  induction frames as [|f frames IH]; intros g p Hg; cbn [main_loop]; [exact Hg|].
  pose proof (main_pass_sound f g p Hg) as H.
  destruct (main_pass py_int sin click_rect f g p) as [[[|] g1] p1];
    cbn [fst snd] in *; [now apply IH | exact H].
Qed.

Lemma main_sound (ticks : Z * Z) (frames : list Frame) p :
  sound (snd (fst (main py_int sin click_rect ticks frames p))).
Proof.
  unfold main. pose proof (init_sound ticks p) as H.
  destruct (Game.init py_int ticks p) as [g p']. now apply main_loop_sound.
Qed.

End GameEvents.

Section Mirror.

Implicit Types (g : Game.t) (p : Persistence.t) (b : Bird.t) (s : Shop.t).
Variable py_int : string -> option Z.
Hypothesis py_int_str : forall n : Z, py_int (py_str n) = Some n.

Lemma stored_int_written (key : string) (n : Z) p :
  healthy p ->
  stored_int py_int key (snd (Persistence.set_state key (py_str n) p)) = n.
Proof.
  intros H. rewrite set_state_healthy by exact H. unfold stored_int. cbn.
  now rewrite lookup_insert_eq, py_int_str.
Qed.

Lemma stored_int_other (key key' value : string) p :
  healthy p -> key <> key' ->
  stored_int py_int key' (snd (Persistence.set_state key value p)) = stored_int py_int key' p.
Proof.
  intros H Hne. rewrite set_state_healthy by exact H. unfold stored_int. cbn.
  now rewrite lookup_insert_ne.
Qed.

Lemma stored_skin_other (key value : string) p (owned : gset string) :
  healthy p -> key <> "current_skin"%string ->
  stored_skin (snd (Persistence.set_state key value p)) owned = stored_skin p owned.
Proof.
  intros H Hne. rewrite set_state_healthy by exact H. unfold stored_skin. cbn.
  now rewrite lookup_insert_ne.
Qed.

Lemma set_state_keeps (key value : string) p :
  healthy p ->
  healthy (snd (Persistence.set_state key value p))
  /\ Persistence.owned_skins (snd (Persistence.set_state key value p))
     = Persistence.owned_skins p.
Proof. intros H. rewrite set_state_healthy by exact H. split; reflexivity. Qed.

Lemma mirrors_save_coins (coins coins' high_score : Z) b p :
  mirrors_of py_int coins high_score b p ->
  mirrors_of py_int coins' high_score b
             (snd (Persistence.set_state "coins" (py_str coins') p)).
Proof.
  intros (Hh & Hc & Hs & Ho & Hk). destruct (set_state_keeps "coins" (py_str coins') p Hh).
  unfold mirrors_of. rewrite stored_int_written, stored_int_other, stored_skin_other
    by (assumption || discriminate).
  repeat split; try assumption; congruence.
Qed.

Lemma mirrors_save_high_score (coins high_score high_score' : Z) b p :
  mirrors_of py_int coins high_score b p ->
  mirrors_of py_int coins high_score' b
             (snd (Persistence.set_state "high_score" (py_str high_score') p)).
Proof.
  intros (Hh & Hc & Hs & Ho & Hk).
  destruct (set_state_keeps "high_score" (py_str high_score') p Hh).
  unfold mirrors_of. rewrite stored_int_written, stored_int_other, stored_skin_other
    by (assumption || discriminate).
  repeat split; try assumption; congruence.
Qed.

Lemma in_SKINS_not_empty (skin_name : string) :
  Bird.in_SKINS skin_name = true -> String.eqb skin_name EmptyString = false.
Proof. destruct skin_name; [discriminate | reflexivity]. Qed.

Lemma mirrors_set_skin (skin_name : string) (coins high_score : Z) b p :
  mirrors_of py_int coins high_score b p ->
  mirrors_of py_int coins high_score (fst (Bird.set_skin skin_name b p))
             (snd (Bird.set_skin skin_name b p)).
Proof.
  intros (Hh & Hc & Hs & Ho & Hk).
  destruct (set_skin_spec skin_name b p) as [(Hin & Hown & Hb)|[_ ->]];
    [|repeat split; assumption].
  rewrite Hb. unfold Bird.set_skin. rewrite Hin. rewrite bool_decide_eq_true_2 by exact Hown.
  cbn [andb snd]. unfold Bird.save_current_skin, Bird.apply_skin.
  cbn [Bird.current_skin Bird.with_skins Bird.owned_skins].
  destruct (set_state_keeps "current_skin" skin_name p Hh) as [Hh' Ho'].
  unfold mirrors_of. rewrite !stored_int_other by (assumption || discriminate).
  cbn [Bird.current_skin Bird.with_skins Bird.owned_skins].
  rewrite Ho'. repeat split; try assumption.
  rewrite set_state_healthy by exact Hh. unfold stored_skin. cbn.
  rewrite lookup_insert_eq, Hin, (in_SKINS_not_empty _ Hin).
  now rewrite bool_decide_eq_true_2 by exact Hown.
Qed.

Lemma price_in_SKINS (skin_name : string) (cost : Z) :
  Bird.price skin_name = Some cost -> Bird.in_SKINS skin_name = true.
Proof. unfold Bird.in_SKINS. now intros ->. Qed.

(** A purchase followed by the equipping of the skin bought. *)
Lemma mirrors_purchase (skin_name : string) (coins high_score : Z) b p :
  mirrors_of py_int coins high_score b p ->
  let r := Bird.purchase_skin skin_name coins b p in
  fst (fst r) = true ->
  mirrors_of py_int coins high_score
             (fst (Bird.set_skin skin_name (snd (fst r)) (snd r)))
             (snd (Bird.set_skin skin_name (snd (fst r)) (snd r))).
Proof.
  intros (Hh & Hc & Hs & Ho & Hk) r Hr. subst r.
  destruct (purchase_skin_spec skin_name coins b p)
    as [(cost & Hp & Hn & Hle & Hb)|[_ Hb]]; rewrite Hb in *; [|discriminate].
  cbn [fst snd]. rewrite add_owned_skin_healthy by exact Hh. cbn [snd].
  set (b1 := Bird.with_skins b _ _). set (p1 := Persistence.mk _ _ _).
  assert (Hh1 : healthy p1) by reflexivity.
  pose proof (price_in_SKINS _ _ Hp) as Hin.
  assert (Hown : skin_name ∈ Bird.owned_skins b1)
    by (cbn; apply elem_of_union_l, elem_of_singleton; reflexivity).
  unfold Bird.set_skin. rewrite Hin, bool_decide_eq_true_2 by exact Hown.
  cbn [andb fst snd]. unfold Bird.save_current_skin, Bird.apply_skin.
  cbn [Bird.current_skin Bird.with_skins Bird.owned_skins b1].
  destruct (set_state_keeps "current_skin" skin_name p1 Hh1) as [Hh' Ho'].
  unfold mirrors_of. rewrite !stored_int_other by (assumption || discriminate).
  cbn [Bird.current_skin Bird.with_skins Bird.owned_skins].
  rewrite Ho'. refine (conj Hh' (conj Hc (conj Hs (conj _ _)))).
  - cbn. rewrite Ho. apply (assoc_L (∪)).
  - rewrite set_state_healthy by exact Hh1. unfold stored_skin. cbn.
    rewrite lookup_insert_eq, Hin, (in_SKINS_not_empty _ Hin).
    rewrite bool_decide_eq_true_2; [reflexivity | exact Hown].
Qed.

Lemma click_button_mirrors (item : string * Z) (high_score : Z) s b p :
  mirrors_of py_int (Shop.coins s) high_score b p ->
  let r := Shop.click_button item s b p in
  mirrors_of py_int (Shop.coins (fst (fst r))) high_score (snd (fst r)) (snd r).
Proof.
  intros Hm r. subst r. destruct item as [skin_name cost]. unfold Shop.click_button.
  case_bool_decide.
  - pose proof (mirrors_set_skin skin_name _ _ _ _ Hm) as H1.
    now destruct (Bird.set_skin skin_name b p) as [b1 p1].
  - destruct (cost <=? Shop.coins s); [|exact Hm].
    pose proof (mirrors_purchase skin_name _ _ _ _ Hm) as H1. cbn zeta in H1.
    pose proof (purchase_skin_spec skin_name (Shop.coins s) b p) as Hspec.
    destruct (Bird.purchase_skin skin_name (Shop.coins s) b p) as [[[|] b1] p1];
      cbn [fst snd] in *.
    + specialize (H1 eq_refl).
      destruct (Bird.set_skin skin_name b1 p1) as [b2 p2]. cbn [fst snd] in *.
      unfold Shop.save_coins. cbn [Shop.coins].
      eapply mirrors_save_coins. exact H1.
    + destruct Hspec as [(c & _ & _ & _ & [=])|[_ [= <- <-]]]. exact Hm.
Qed.

Lemma click_buttons_mirrors (items : list (string * Z)) (high_score : Z) :
  forall (y_pos : Z) (pos : Z * Z) s b p r,
    mirrors_of py_int (Shop.coins s) high_score b p ->
    Shop.click_buttons items y_pos pos s b p = Some r ->
    mirrors_of py_int (Shop.coins (fst (fst r))) high_score (snd (fst r)) (snd r).
Proof.
  induction items as [|item items IH]; intros y_pos pos s b p r Hm;
    cbn [Shop.click_buttons].
  - discriminate.
  - destruct (pygame.collidepoint _ pos).
    + intros [= <-]. now apply click_button_mirrors.
    + now apply IH.
Qed.

Lemma shop_handle_events_mirrors (event : pygame.Event) (click_rect : pygame.Rect)
      (high_score : Z) s b p :
  mirrors_of py_int (Shop.coins s) high_score b p ->
  let r := snd (Shop.handle_events event click_rect s b p) in
  mirrors_of py_int (Shop.coins (fst (fst r))) high_score (snd (fst r)) (snd r).
Proof.
  intros Hm r. subst r. unfold Shop.handle_events.
  destruct (negb (Shop.active s)); [exact Hm|].
  destruct event as [|key|button pos| |]; try exact Hm.
  destruct (button =? 4); [exact Hm|]. destruct (button =? 5); [exact Hm|].
  destruct (button =? 1); [|exact Hm].
  unfold Shop.handle_click. destruct (negb (Shop.active s)); [exact Hm|].
  destruct (Shop.click_buttons Bird.SKINS 0 pos s b p) as [r|] eqn:Hr.
  - cbn [snd]. eapply click_buttons_mirrors; eassumption.
  - destruct (pygame.collidepoint click_rect pos); exact Hm.
Qed.

Lemma save_high_score_mirrors g p :
  mirrors py_int g p ->
  mirrors py_int (fst (Game.save_high_score g p)) (snd (Game.save_high_score g p)).
Proof.
  intros Hm. unfold Game.save_high_score.
  destruct (Game.high_score g <? Game.score g); [|exact Hm].
  cbn [fst snd]. unfold mirrors. cbn.
  eapply mirrors_save_high_score. exact Hm.
Qed.

Lemma pipe_step_mirrors (sv : list Pipe.t) g p (pipe : Pipe.t) :
  mirrors py_int g p ->
  let r := Game.pipe_step (sv, g, p) pipe in
  mirrors py_int (snd (fst r)) (snd r).
Proof.
  intros Hm r. subst r. rewrite pipe_step_spec. cbn zeta.
  destruct (on_screen (moved pipe)); [|exact Hm].
  set (g1 := if newly_passed _ _ then _ else g).
  assert (Hm1 : mirrors py_int g1 p) by (subst g1; now destruct (newly_passed _ _)).
  destruct (Pipe.check_collision _ _); [|exact Hm1].
  cbn [fst snd]. now apply save_high_score_mirrors.
Qed.

Lemma update_pipes_mirrors g p :
  mirrors py_int g p ->
  mirrors py_int (fst (Game.update_pipes g p)) (snd (Game.update_pipes g p)).
Proof.
  intros Hm. unfold Game.update_pipes.
  assert (H : forall ps sv g p,
             mirrors py_int g p ->
             let r := fold_left Game.pipe_step ps (sv, g, p) in
             mirrors py_int (snd (fst r)) (snd r)).
  { induction ps as [|pipe ps IH]; intros sv g0 p0 H0; cbn [fold_left]; [exact H0|].
    pose proof (pipe_step_mirrors sv g0 p0 pipe H0) as H1. cbn zeta in H1.
    destruct (Game.pipe_step (sv, g0, p0) pipe) as [[sv1 g1] p1]. now apply IH. }
  specialize (H (Game.pipes g) [] g p Hm). cbn zeta in H.
  now destruct (fold_left Game.pipe_step (Game.pipes g) ([], g, p)) as [[sv g1] p1].
Qed.

Lemma coin_step_mirrors sin (sv : list Coin.t) g p (coin : Coin.t) :
  mirrors py_int g p ->
  let r := snd (Game.coin_step sin (sv, g, p) coin) in
  mirrors py_int (snd (fst r)) (snd r).
Proof.
  intros Hm r. subst r. unfold Game.coin_step.
  destruct (Coin.collected coin); [exact Hm|].
  destruct (Coin.update sin coin) as [c [|]]; [|exact Hm].
  destruct (Coin.check_collision c (Game.bird g)); [|exact Hm].
  cbn [fst snd]. unfold Game.save_coins, mirrors. cbn.
  eapply mirrors_save_coins. exact Hm.
Qed.

Lemma update_coins_mirrors sin g p :
  mirrors py_int g p ->
  mirrors py_int (fst (Game.update_coins sin g p)) (snd (Game.update_coins sin g p)).
Proof.
  intros Hm. unfold Game.update_coins.
  assert (H : forall cs sv g p,
             mirrors py_int g p ->
             let r := fold_left (fun acc coin => snd (Game.coin_step sin acc coin)) cs
                                (sv, g, p) in
             mirrors py_int (snd (fst r)) (snd r)).
  { induction cs as [|coin cs IH]; intros sv g0 p0 H0; cbn [fold_left]; [exact H0|].
    pose proof (coin_step_mirrors sin sv g0 p0 coin H0) as H1. cbn zeta in H1.
    destruct (snd (Game.coin_step sin (sv, g0, p0) coin)) as [[sv1 g1] p1]. now apply IH. }
  specialize (H (Game.coins g) [] g p Hm). cbn zeta in H.
  now destruct (fold_left _ (Game.coins g) ([], g, p)) as [[sv g1] p1].
Qed.

Lemma update_mirrors sin e g p :
  mirrors py_int g p ->
  mirrors py_int (fst (Game.update sin e g p)) (snd (Game.update sin e g p)).
Proof.
  intros Hm. unfold Game.update.
  destruct (negb (Game.game_over g) && negb (Shop.active (Game.shop g))); [|exact Hm].
  set (g1 := Game.set_bird g (Bird.update (Game.bird g))).
  assert (H1 : mirrors py_int g1 p) by exact Hm.
  assert (H2 : mirrors py_int (fst (Game.check_screen_edges g1 p))
                       (snd (Game.check_screen_edges g1 p))).
  { unfold Game.check_screen_edges. destruct (Game.hits_screen_edge _); [|exact H1].
    now apply save_high_score_mirrors. }
  destruct (Game.check_screen_edges g1 p) as [g2 p2]. cbn [fst snd] in H2.
  unfold Game.spawn_and_move.
  assert (H4 : mirrors py_int (Game.create_coins e (Game.create_pipes e g2)) p2).
  { unfold mirrors.
    destruct (create_pipes_spec e g2) as (_ & Hb3 & _ & _ & Hh3 & _ & Hs3 & _).
    destruct (create_coins_spec e (Game.create_pipes e g2))
      as (_ & Hb4 & _ & _ & Hh4 & _ & Hs4 & _).
    rewrite Hs4, Hs3, Hh4, Hh3, Hb4, Hb3. exact H2. }
  pose proof (update_pipes_mirrors _ _ H4) as H5.
  destruct (Game.update_pipes _ p2) as [g5 p5]. cbn [fst snd] in H5.
  now apply update_coins_mirrors.
Qed.

Lemma init_mirrors (ticks : Z * Z) p :
  healthy p ->
  mirrors py_int (fst (Game.init py_int ticks p)) (snd (Game.init py_int ticks p)).
Proof.
  intros Hh. rewrite game_init_spec. rewrite !(after_call_healthy p Hh).
  pose proof (bird_init_spec p) as (Ho & Hc & _ & _). cbn zeta in *.
  rewrite Hh in *. cbn [nth fst snd] in *.
  unfold mirrors, mirrors_of. cbn. repeat split; assumption.
Qed.

Lemma mirrors_healthy g p : mirrors py_int g p -> healthy p.
Proof. now intros (H & _). Qed.

Lemma handle_event_mirrors (ticks : Z * Z) (click_rect : pygame.Rect)
      (event : pygame.Event) g p :
  mirrors py_int g p ->
  let r := Game.handle_event py_int ticks click_rect event g p in
  mirrors py_int (snd (fst r)) (snd r).
Proof.
  intros Hm r. subst r.
  assert (Hsave : mirrors py_int g (Game.save_coins g p)).
  { unfold Game.save_coins. eapply mirrors_save_coins. exact Hm. }
  assert (Hmouse : forall ev,
             mirrors py_int
               (snd (fst (if Shop.active (Game.shop g) then
                            let '(_, (s, b, p)) :=
                              Shop.handle_events ev click_rect (Game.shop g) (Game.bird g) p in
                            (true, Game.set_shop (Game.set_bird g b) s, p)
                          else (true, g, p))))
               (snd (if Shop.active (Game.shop g) then
                       let '(_, (s, b, p)) :=
                         Shop.handle_events ev click_rect (Game.shop g) (Game.bird g) p in
                       (true, Game.set_shop (Game.set_bird g b) s, p)
                     else (true, g, p)))).
  { intros ev. destruct (Shop.active (Game.shop g)); [|exact Hm].
    pose proof (shop_handle_events_mirrors ev click_rect _ _ _ _ Hm) as H. cbn zeta in H.
    now destruct (Shop.handle_events ev click_rect (Game.shop g) (Game.bird g) p)
      as [consumed [[s' b'] p']]. }
  destruct event as [|[| | |]|button pos| |]; cbn [Game.handle_event fst snd];
    try exact Hm; try exact Hsave; try apply Hmouse.
  - destruct (Game.game_over g).
    + pose proof (init_mirrors ticks p (mirrors_healthy _ _ Hm)) as Hi.
      now destruct (Game.init py_int ticks p) as [g' p'].
    + destruct (negb (Shop.active (Game.shop g))); exact Hm.
  - destruct (negb (Game.game_over g)); exact Hm.
Qed.

Lemma handle_events_mirrors (ticks : Z * Z) (click_rect : pygame.Rect)
      (events : list pygame.Event) :
  forall g p,
    mirrors py_int g p ->
    let r := Game.handle_events py_int ticks click_rect events g p in
    mirrors py_int (snd (fst r)) (snd r).
Proof.
  induction events as [|event events IH]; intros g p Hm; cbn [Game.handle_events];
    [exact Hm|].
  pose proof (handle_event_mirrors ticks click_rect event g p Hm) as H. cbn zeta in H.
  destruct (Game.handle_event py_int ticks click_rect event g p) as [[[|] g1] p1];
    cbn [fst snd] in *; [now apply IH | exact H].
Qed.

Lemma main_loop_mirrors sin (click_rect : pygame.Rect) (frames : list Frame) :
  forall g p,
    mirrors py_int g p ->
    let r := main_loop py_int sin click_rect frames g p in
    mirrors py_int (snd (fst r)) (snd r).
Proof.
  induction frames as [|f frames IH]; intros g p Hm; cbn [main_loop]; [exact Hm|].
  assert (H : let r := main_pass py_int sin click_rect f g p in
              mirrors py_int (snd (fst r)) (snd r)).
  { unfold main_pass.
    pose proof (handle_events_mirrors (reset_ticks f) click_rect (events f) g p Hm) as H.
    cbn zeta in H.
    destruct (Game.handle_events py_int (reset_ticks f) click_rect (events f) g p)
      as [[running g1] p1]. cbn [fst snd] in H.
    pose proof (update_mirrors sin (frame_env f) g1 p1 H) as H'.
    now destruct (Game.update sin (frame_env f) g1 p1) as [g2 p2]. }
  cbn zeta in H.
  destruct (main_pass py_int sin click_rect f g p) as [[[|] g1] p1];
    cbn [fst snd] in *; [now apply IH | exact H].
Qed.

Lemma main_mirrors sin (click_rect : pygame.Rect) (ticks : Z * Z) (frames : list Frame) p :
  healthy p ->
  let r := main py_int sin click_rect ticks frames p in
  mirrors py_int (snd (fst r)) (snd r).
Proof.
  intros Hh. unfold main. pose proof (init_mirrors ticks p Hh) as H.
  destruct (Game.init py_int ticks p) as [g p']. now apply main_loop_mirrors.
Qed.

End Mirror.

Section ShopClicks.

Implicit Types (p : Persistence.t) (b : Bird.t) (s : Shop.t).

Lemma click_buttons_miss (items : list (string * Z)) :
  forall (y_pos : Z) (pos : Z * Z) s b p,
    (forall k : nat,
        (k < length items)%nat ->
        ~ (100 <= fst pos < 300
           /\ y_pos + 60 * Z.of_nat k - Shop.scroll_offset s + 100 <= snd pos
              < y_pos + 60 * Z.of_nat k - Shop.scroll_offset s + 150)) ->
    Shop.click_buttons items y_pos pos s b p = None.
Proof.
  induction items as [|item items IH]; intros y_pos pos s b p Hmiss; [reflexivity|].
  cbn [Shop.click_buttons]. unfold pygame.collidepoint.
  cbn [pygame.left pygame.top pygame.width pygame.height].
  change ((WINDOW_WIDTH - Shop.button_width) / 2) with 100.
  unfold Shop.button_width, Shop.button_height, Shop.margin.
  pose proof (Hmiss 0%nat ltac:(cbn [length]; lia)) as H0.
  destruct (_ && _ && _ && _) eqn:Hhit.
  - exfalso. apply H0. rewrite !andb_true_iff, !Z.leb_le, !Z.ltb_lt in Hhit. lia.
  - apply IH. intros k Hk Hin. apply (Hmiss (S k)); [cbn [length]; lia|]. lia.
Qed.

Lemma bool_decide_add (n skin_name : string) (owned : gset string) :
  n <> skin_name ->
  bool_decide (n ∈ ({[skin_name]} ∪ owned : gset string)) = bool_decide (n ∈ owned).
Proof.
  intros Hne. apply bool_decide_ext. rewrite elem_of_union, elem_of_singleton. tauto.
Qed.

Lemma worth_of_add (items : list (string * Z)) (skin_name : string) (cost : Z)
      (owned : gset string) :
  List.NoDup (map fst items) -> In (skin_name, cost) items -> skin_name ∉ owned ->
  worth_of items ({[skin_name]} ∪ owned) = worth_of items owned + cost.
Proof.
  intros Hnd Hin Hn. induction items as [|[n c] items IH]; [destruct Hin|].
  cbn [map fst] in Hnd. apply List.NoDup_cons_iff in Hnd as [Hfresh Hnd].
  cbn [worth_of fold_right fst snd]. fold (worth_of items ({[skin_name]} ∪ owned)).
  fold (worth_of items owned).
  destruct Hin as [[= -> ->]|Hin].
  - rewrite bool_decide_eq_true_2
      by (apply elem_of_union_l, elem_of_singleton; reflexivity).
    rewrite (bool_decide_eq_false_2 (skin_name ∈ owned)) by exact Hn.
    assert (Hrest : worth_of items ({[skin_name]} ∪ owned) = worth_of items owned).
    { clear IH Hnd. induction items as [|[n c] items IH]; [reflexivity|].
      cbn [worth_of fold_right fst snd map] in *.
      fold (worth_of items ({[skin_name]} ∪ owned)). fold (worth_of items owned).
      rewrite IH by (intros H; apply Hfresh; now right).
      assert (n <> skin_name) by (intros ->; apply Hfresh; now left).
      now rewrite bool_decide_add. }
    lia.
  - rewrite (IH Hnd Hin).
    assert (n <> skin_name).
    { intros ->. apply Hfresh.
      change skin_name with (fst (skin_name, cost)). now apply List.in_map. }
    rewrite bool_decide_add by assumption. lia.
Qed.

Lemma SKINS_NoDup : List.NoDup (map fst Bird.SKINS).
Proof.
  unfold Bird.SKINS. cbn [map fst].
  repeat (constructor; [cbn [In]; intros H; repeat (destruct H as [H|H]; [discriminate H|]);
                        exact H|]).
  constructor.
Qed.

Lemma SKINS_prices_nonneg (item : string * Z) : In item Bird.SKINS -> 0 <= snd item.
Proof.
  unfold Bird.SKINS. cbn [In].
  intros H; repeat (destruct H as [<-|H]; [cbn; lia|]); destruct H.
Qed.

Lemma set_skin_owned (skin_name : string) b p :
  Bird.owned_skins (fst (Bird.set_skin skin_name b p)) = Bird.owned_skins b.
Proof. unfold Bird.set_skin. now destruct (_ && _). Qed.

(** What a click on a button of the catalogue does to the money: the
    balance and the worth of the owned skins add up as before. *)
Lemma click_button_worth (item : string * Z) s b p :
  In item Bird.SKINS ->
  let r := Shop.click_button item s b p in
  Shop.coins (fst (fst r)) + worth (Bird.owned_skins (snd (fst r)))
  = Shop.coins s + worth (Bird.owned_skins b)
  /\ Z.min 0 (Shop.coins s) <= Shop.coins (fst (fst r)) <= Shop.coins s
  /\ Bird.owned_skins b ⊆ Bird.owned_skins (snd (fst r)).
Proof.
  intros Hin r. subst r. pose proof (SKINS_prices_nonneg item Hin) as Hpos.
  destruct item as [skin_name cost]. cbn [snd] in Hpos. unfold Shop.click_button.
  case_bool_decide as Hown.
  - pose proof (set_skin_owned skin_name b p) as Ho.
    destruct (Bird.set_skin skin_name b p) as [b1 p1]. cbn [fst snd] in *.
    rewrite Ho. repeat split; try lia; reflexivity.
  - destruct (Z.leb_spec cost (Shop.coins s)) as [Hle|Hlt];
      [|cbn [fst snd]; repeat split; try lia; reflexivity].
    destruct (purchase_skin_spec skin_name (Shop.coins s) b p)
      as [(c & Hp & _ & _ & ->)|[_ ->]];
      [|cbn [fst snd]; repeat split; try lia; reflexivity].
    set (b1 := Bird.with_skins b _ _).
    pose proof (set_skin_owned skin_name b1 (snd (Persistence.add_owned_skin skin_name p)))
      as Ho.
    destruct (Bird.set_skin skin_name b1 _) as [b2 p2]. cbn [fst snd Shop.coins] in *.
    rewrite Ho. subst b1. cbn [Bird.owned_skins Bird.with_skins].
    unfold worth. rewrite (worth_of_add Bird.SKINS skin_name cost)
      by (exact SKINS_NoDup || assumption).
    repeat split; try lia. apply union_subseteq_r.
Qed.

End ShopClicks.

Section ShopMoney.

Implicit Types (p : Persistence.t) (b : Bird.t) (s : Shop.t).

Lemma money_kept_same s b s' :
  Shop.coins s' = Shop.coins s -> money_kept s b s' b.
Proof. intros H. unfold money_kept. rewrite H. repeat split; try lia; reflexivity. Qed.

Lemma money_kept_refl s b : money_kept s b s b.
Proof. now apply money_kept_same. Qed.

Lemma click_buttons_money (items : list (string * Z)) :
  forall (y_pos : Z) (pos : Z * Z) s b p r,
    (forall item, In item items -> In item Bird.SKINS) ->
    Shop.click_buttons items y_pos pos s b p = Some r ->
    money_kept s b (fst (fst r)) (snd (fst r)).
Proof.
  induction items as [|item items IH]; intros y_pos pos s b p r Hsub;
    cbn [Shop.click_buttons].
  - discriminate.
  - destruct (pygame.collidepoint _ pos).
    + intros [= <-]. apply click_button_worth. apply Hsub. now left.
    + apply IH. intros it Hit. apply Hsub. now right.
Qed.

Lemma shop_handle_events_money (event : pygame.Event) (click_rect : pygame.Rect) s b p :
  let r := snd (Shop.handle_events event click_rect s b p) in
  money_kept s b (fst (fst r)) (snd (fst r)).
Proof.
  intros r. subst r. unfold Shop.handle_events.
  destruct (negb (Shop.active s)); [apply money_kept_refl|].
  destruct event as [|key|button pos| |]; try apply money_kept_refl.
  destruct (button =? 4); [now apply money_kept_same|].
  destruct (button =? 5); [now apply money_kept_same|].
  destruct (button =? 1); [|apply money_kept_refl].
  unfold Shop.handle_click. destruct (negb (Shop.active s)); [apply money_kept_refl|].
  destruct (Shop.click_buttons Bird.SKINS 0 pos s b p) as [r|] eqn:Hr.
  - cbn [snd]. eapply click_buttons_money; [|exact Hr]. auto.
  - destruct (pygame.collidepoint click_rect pos); now apply money_kept_same.
Qed.

End ShopMoney.

Section Input.

Implicit Types (g : Game.t) (p : Persistence.t) (b : Bird.t) (s : Shop.t).
Variable py_int : string -> option Z.
Variable click_rect : pygame.Rect.

Lemma handle_event_flag (ticks : Z * Z) (event : pygame.Event) g p :
  fst (fst (Game.handle_event py_int ticks click_rect event g p)) = negb (is_quit event).
Proof.
  destruct event as [|[| | |]|button pos| |]; cbn [Game.handle_event is_quit negb];
    try reflexivity.
  - destruct (Game.game_over g); [now destruct (Game.init py_int ticks p)|].
    now destruct (negb (Shop.active (Game.shop g))).
  - now destruct (negb (Game.game_over g)).
  - destruct (Shop.active (Game.shop g)); [|reflexivity].
    now destruct (Shop.handle_events _ click_rect _ _ p) as [c [[s' b'] p']].
  - destruct (Shop.active (Game.shop g)); [|reflexivity].
    now destruct (Shop.handle_events _ click_rect _ _ p) as [c [[s' b'] p']].
Qed.

Lemma handle_event_quit (ticks : Z * Z) (event : pygame.Event) g p :
  is_quit event = true ->
  Game.handle_event py_int ticks click_rect event g p = (false, g, Game.save_coins g p).
Proof. destruct event as [|[| | |]|button pos| |]; try discriminate; reflexivity. Qed.

Lemma handle_events_app (ticks : Z * Z) (pre rest : list pygame.Event) :
  forall g p,
    Game.handle_events py_int ticks click_rect (pre ++ rest) g p
    = match Game.handle_events py_int ticks click_rect pre g p with
      | (true, g', p') => Game.handle_events py_int ticks click_rect rest g' p'
      | (false, g', p') => (false, g', p')
      end.
Proof.
  induction pre as [|event pre IH]; intros g p; cbn [app Game.handle_events];
    [reflexivity|].
  destruct (Game.handle_event py_int ticks click_rect event g p) as [[[|] g1] p1];
    [apply IH | reflexivity].
Qed.

Lemma handle_events_flag (ticks : Z * Z) (events : list pygame.Event) :
  forall g p,
    fst (fst (Game.handle_events py_int ticks click_rect events g p))
    = forallb (fun event => negb (is_quit event)) events.
Proof.
  induction events as [|event events IH]; intros g p; cbn [Game.handle_events forallb];
    [reflexivity|].
  pose proof (handle_event_flag ticks event g p) as H.
  destruct (Game.handle_event py_int ticks click_rect event g p) as [[[|] g1] p1];
    cbn [fst] in H; rewrite <- H; [apply IH | reflexivity].
Qed.

Lemma handle_events_quit (ticks : Z * Z) (pre rest : list pygame.Event)
      (event : pygame.Event) g p :
  forallb (fun event => negb (is_quit event)) pre = true -> is_quit event = true ->
  let r := Game.handle_events py_int ticks click_rect pre g p in
  Game.handle_events py_int ticks click_rect (pre ++ event :: rest) g p
  = (false, snd (fst r), Game.save_coins (snd (fst r)) (snd r)).
Proof.
  intros Hpre Hq r. subst r. rewrite handle_events_app.
  pose proof (handle_events_flag ticks pre g p) as Hf. rewrite Hpre in Hf.
  destruct (Game.handle_events py_int ticks click_rect pre g p) as [[running g1] p1].
  cbn [fst snd] in *. subst running. cbn [Game.handle_events].
  now rewrite handle_event_quit.
Qed.

Lemma handle_event_paused (ticks : Z * Z) (event : pygame.Event) g p :
  Game.game_over g = false -> Shop.active (Game.shop g) = true ->
  same_world g (snd (fst (Game.handle_event py_int ticks click_rect event g p))).
Proof.
  intros Ho Ha.
  assert (Hrefl : same_world g g) by (repeat split).
  destruct event as [|[| | |]|button pos| |]; cbn [Game.handle_event fst snd];
    rewrite ?Ho, ?Ha; cbn [negb fst snd]; try exact Hrefl.
  - pose proof (shop_handle_events_changes (pygame.MOUSEBUTTONDOWN button pos) click_rect
                  (Game.shop g) (Game.bird g) p) as (Hb & _).
    destruct (Shop.handle_events _ click_rect _ _ p) as [c [[s' b'] p']].
    cbn [fst snd] in *. unfold same_world. cbn. repeat split; try apply Hb; assumption.
  - pose proof (shop_handle_events_changes pygame.MOUSEWHEEL click_rect
                  (Game.shop g) (Game.bird g) p) as (Hb & _).
    destruct (Shop.handle_events _ click_rect _ _ p) as [c [[s' b'] p']].
    cbn [fst snd] in *. unfold same_world. cbn. repeat split; try apply Hb; assumption.
Qed.

End Input.

Section SortedPipes.

Lemma last_cons (l : list Pipe.t) : forall q r : Pipe.t, List.last (q :: l) r = List.last l q.
Proof.
  induction l as [|a l IH]; intros q r; [reflexivity|].
  change (List.last (q :: a :: l) r) with (List.last (a :: l) r).
  now rewrite (IH a r), (IH a q).
Qed.

Lemma rightmost_sorted_from (ps : list Pipe.t) :
  forall r : Pipe.t,
    Forall (left_of r) ps -> StronglySorted left_of ps ->
    fold_left
      (fun rightmost pipe =>
         match rightmost with
         | None => Some pipe
         | Some r => if Pipe.x r <? Pipe.x pipe then Some pipe else Some r
         end) ps (Some r)
    = Some (List.last ps r).
Proof.
  induction ps as [|q ps IH]; intros r Hr Hs; [reflexivity|].
  cbn [fold_left]. inversion Hr as [|? ? Hrq Hrps]; subst.
  inversion Hs as [|? ? Hs' Hq]; subst.
  unfold left_of in Hrq. apply Z.ltb_lt in Hrq. rewrite Hrq.
  rewrite (IH q Hq Hs'). now rewrite last_cons.
Qed.

Lemma rightmost_sorted (ps : list Pipe.t) :
  StronglySorted left_of ps ->
  Game.rightmost_pipe ps
  = match ps with [] => None | q :: ps' => Some (List.last ps' q) end.
Proof.
  intros Hs. unfold Game.rightmost_pipe. destruct ps as [|q ps]; [reflexivity|].
  cbn [fold_left]. inversion Hs; subst. now apply rightmost_sorted_from.
Qed.

End SortedPipes.

(** * Sessions *)

Section Sessions.

Implicit Types (g : Game.t) (p : Persistence.t) (b : Bird.t) (s : Shop.t).
Variable py_int : string -> option Z.
Variable sin : float -> float.
Variable click_rect : pygame.Rect.

(** X2.  What [Bird()] makes of the store.  The owned skins are those of
    the store together with the default skin, and the default skin alone
    when reading them raises; the equipped skin is the stored one when it
    is a skin of the catalogue that the bird owns, and the default skin
    otherwise or when reading it raises.  The bird starts at rest at
    (133, 300), and the tables are only read. *)
Theorem bird_init_loads p :
  let b := fst (Bird.init p) in
  Bird.owned_skins b
  = (if nth 0 (Persistence.faults p) false then {["default"%string]}
     else Persistence.owned_skins p ∪ {["default"%string]})
  /\ Bird.current_skin b
     = (if nth 1 (Persistence.faults p) false then "default"%string
        else stored_skin p (Bird.owned_skins b))
  /\ (Bird.x b, Bird.y b, Bird.velocity b, Bird.size b, Bird.angle b)
     = (133, F.of_Z 300, F.of_Z 0, 30, 0)
  /\ snd (Bird.init p) = after_call (after_call p).
Proof. exact (bird_init_spec p). Qed.

(** X3.  [Game()] starts a session with no pipe, no coin, score 0, the
    game running and the shop closed, over the bird [Bird()] makes.  It
    reads the store five times and writes nothing; the high score is what
    the third read gives and the balance what the fifth gives: the stored
    number, or 0 when the key is absent, the text is no number, or the
    read raises. *)
Theorem game_init_loads (ticks : Z * Z) p :
  let faulty := fun i => nth i (Persistence.faults p) false in
  Game.init py_int ticks p
  = (Game.mk (fst (Bird.init p)) [] [] 0
             (if faulty 2%nat then 0 else stored_int py_int "high_score" p)
             (fst ticks) (snd ticks) false
             (Shop.mk false (if faulty 4%nat then 0 else stored_int py_int "coins" p) 0),
     after_call (after_call (after_call (after_call (after_call p))))).
Proof. exact (game_init_spec py_int ticks p). Qed.

(** X11.  Between two passes of the main loop, whatever the events, the
    clock, the draws and the faults of the store: the game is never over
    with the shop open, the scroll offset of the shop lies between 0 and
    90, and the score is not negative. *)
Theorem shop_closed_when_over (ticks : Z * Z) (frames : list Frame) p :
  let g := snd (fst (main py_int sin click_rect ticks frames p)) in
  Game.game_over g && Shop.active (Game.shop g) = false
  /\ 0 <= Shop.scroll_offset (Game.shop g) <= 90
  /\ 0 <= Game.score g.
Proof.
  intros g. pose proof (main_sound py_int click_rect sin ticks frames p) as H.
  fold g in H. destruct H as (Hm & _ & _ & _ & _ & Hs & Hsc & _). auto.
Qed.

(** X12.  Between two passes of the main loop the bird is at x = 133 with
    size 30 and an angle in [-70, 20]; its velocity is one of the
    thirteen values -6, -5.5, ..., 0, or a number of positive sign that is
    at most [MAX_VELOCITY], so it always lies between [FLAP_STRENGTH] and
    [MAX_VELOCITY]; the bird owns the default skin and the skin it wears,
    which is a skin of the catalogue. *)
Theorem bird_stays_well_formed (ticks : Z * Z) (frames : list Frame) p :
  let b := Game.bird (snd (fst (main py_int sin click_rect ticks frames p))) in
  Bird.x b = WINDOW_WIDTH / 3 /\ Bird.size b = 30 /\ -70 <= Bird.angle b <= 20
  /\ velocity_ok (Bird.velocity b)
  /\ (F.of_Z FLAP_STRENGTH <=? Bird.velocity b)%F = true
  /\ (Bird.velocity b <=? F.of_Z MAX_VELOCITY)%F = true
  /\ "default"%string ∈ Bird.owned_skins b
  /\ Bird.current_skin b ∈ Bird.owned_skins b
  /\ Bird.in_SKINS (Bird.current_skin b) = true.
Proof.
  intros b. pose proof (main_sound py_int click_rect sin ticks frames p) as H.
  destruct H as (_ & (Hx & Hs & Ha & [Hd Hc] & Hin & Hv) & _). fold b in Hx, Hs, Ha, Hd, Hc, Hin, Hv.
  destruct (velocity_ok_bounds _ Hv) as [Hlo Hhi].
  repeat split; try assumption; apply Ha.
Qed.

(** X13.  Between two passes of the main loop every pipe of the list has
    width 80 and is on screen, with its left edge in (-80, 397]; it is
    marked as passed exactly when its left edge is left of the bird's; the
    pipes are listed from left to right without ties, so that the
    rightmost pipe the coin placement looks for is the last of the
    list. *)
Theorem pipes_stay_well_formed (ticks : Z * Z) (frames : list Frame) p :
  let g := snd (fst (main py_int sin click_rect ticks frames p)) in
  Forall (pipe_ok (WINDOW_WIDTH / 3)) (Game.pipes g)
  /\ StronglySorted left_of (Game.pipes g)
  /\ Game.rightmost_pipe (Game.pipes g)
     = match Game.pipes g with [] => None | q :: ps => Some (List.last ps q) end.
Proof.
  intros g. pose proof (main_sound py_int click_rect sin ticks frames p) as H.
  fold g in H. destruct H as (_ & (Hx & _) & Hp & Hs & _).
  rewrite Hx in Hp. repeat split; try assumption. now apply rightmost_sorted.
Qed.

(** X14.  Between two passes of the main loop every coin of the list is
    uncollected, has radius 10, is worth 5, or 10 when special, is on
    screen with its centre in (-20, 430), and does not touch the bird: a
    coin the bird touches is collected in the tick that finds it. *)
Theorem coins_stay_well_formed (ticks : Z * Z) (frames : list Frame) p :
  let g := snd (fst (main py_int sin click_rect ticks frames p)) in
  Forall (coin_ok (Game.bird g)) (Game.coins g).
Proof.
  intros g. pose proof (main_sound py_int click_rect sin ticks frames p) as H.
  fold g in H. now destruct H as (_ & _ & _ & _ & Hc & _).
Qed.


(** X16.  With a store that never raises, and [int] reading back what
    [str] writes, the store follows the session: between two passes of
    the main loop, a new [Game()] over the store as it is (a reset after
    a game over, or the next run of the program) only reads it and starts
    with the balance, the high score, the owned skins and the equipped
    skin of the session. *)
Theorem progress_survives_restart (ticks : Z * Z) (frames : list Frame) p :
  healthy p -> (forall n : Z, py_int (py_str n) = Some n) ->
  let r := main py_int sin click_rect ticks frames p in
  let g := snd (fst r) in
  healthy (snd r)
  /\ forall ticks' : Z * Z,
       let r' := Game.init py_int ticks' (snd r) in
       snd r' = snd r
       /\ Shop.coins (Game.shop (fst r')) = Shop.coins (Game.shop g)
       /\ Game.high_score (fst r') = Game.high_score g
       /\ Bird.owned_skins (Game.bird (fst r')) = Bird.owned_skins (Game.bird g)
       /\ Bird.current_skin (Game.bird (fst r')) = Bird.current_skin (Game.bird g).
Proof.
  intros Hh Hint r g.
  pose proof (main_mirrors py_int Hint sin click_rect ticks frames p Hh) as Hm.
  cbn zeta in Hm. fold r in Hm. fold g in Hm.
  pose proof Hm as (Hh' & Hc & Hs & Ho & Hk). split; [exact Hh'|].
  intros ticks' r'.
  pose proof (init_mirrors py_int ticks' (snd r) Hh') as (_ & Hc' & Hs' & Ho' & Hk').
  assert (Hp : snd r' = snd r).
  { subst r'. rewrite game_init_spec. cbn [snd]. now rewrite !(after_call_healthy _ Hh'). }
  fold r' in Hc', Hs', Ho', Hk'. rewrite Hp in *.
  repeat split; try congruence.
Qed.

End Sessions.

(** * The tick *)

Section TickProperties.

Implicit Types (g : Game.t) (p : Persistence.t) (b : Bird.t) (s : Shop.t).

(** X5.  [rightmost_pipe] finds none exactly when the list is empty, and
    otherwise a pipe of the list that no pipe of the list lies to the
    right of. *)
Theorem rightmost_pipe_max (ps : list Pipe.t) :
  (Game.rightmost_pipe ps = None <-> ps = [])
  /\ forall r, Game.rightmost_pipe ps = Some r ->
               In r ps /\ forall q, In q ps -> Pipe.x q <= Pipe.x r.
Proof.
  pose proof (rightmost_pipe_spec ps) as H.
  destruct (Game.rightmost_pipe ps) as [r|]; split.
  - split; [discriminate|]. intros ->. destruct H as [[] _].
  - now intros r' [= <-].
  - split; auto.
  - discriminate.
Qed.

(** X8.  The pipe loop of a tick keeps, in their order, the pipes that
    are on screen after their move; it marks as passed those whose left
    edge is now left of the bird's and adds one point for each pipe newly
    marked; the game is over afterwards exactly when it was before or one
    of the kept pipes collides with the bird.  Bird, coins, shop and
    timers are not touched, and the high score never falls and never
    exceeds the greater of its old value and the new score. *)
Theorem update_pipes_spec g p :
  let bx := Bird.x (Game.bird g) in
  let g' := fst (Game.update_pipes g p) in
  Game.pipes g' = surviving_pipes bx (Game.pipes g)
  /\ Game.score g' = Game.score g + points bx (Game.pipes g)
  /\ Game.game_over g'
     = Game.game_over g
       || existsb (fun q => Pipe.check_collision q (Game.bird g)) (Game.pipes g')
  /\ Game.high_score g <= Game.high_score g' <= Z.max (Game.high_score g) (Game.score g')
  /\ Game.bird g' = Game.bird g /\ Game.coins g' = Game.coins g
  /\ Game.shop g' = Game.shop g
  /\ Game.last_pipe g' = Game.last_pipe g /\ Game.last_coin g' = Game.last_coin g.
Proof. exact (update_pipes_changes g p). Qed.

(** X9.  The coin loop of a tick drops the coins already collected, moves
    the others and drops those that left the screen; of the rest, the
    coins the bird touches are collected, each adding its value to the
    balance, and the others are kept in their order.  Nothing else of the
    game changes. *)
Theorem update_coins_spec sin g p :
  let g' := fst (Game.update_coins sin g p) in
  Game.coins g' = surviving_coins sin (Game.bird g) (Game.coins g)
  /\ Shop.coins (Game.shop g')
     = Shop.coins (Game.shop g) + total_value (touched_coins sin (Game.bird g) (Game.coins g))
  /\ Shop.active (Game.shop g') = Shop.active (Game.shop g)
  /\ Shop.scroll_offset (Game.shop g') = Shop.scroll_offset (Game.shop g)
  /\ Game.bird g' = Game.bird g /\ Game.pipes g' = Game.pipes g
  /\ Game.score g' = Game.score g /\ Game.high_score g' = Game.high_score g
  /\ Game.game_over g' = Game.game_over g
  /\ Game.last_pipe g' = Game.last_pipe g /\ Game.last_coin g' = Game.last_coin g.
Proof. exact (update_coins_changes sin g p). Qed.

(** X10.  A tick of a running game, as a whole.  The bird is integrated
    once; a pipe is added when more than [PIPE_FREQUENCY] ms have passed
    since the last one and then a coin when more than [COIN_FREQUENCY] ms
    have passed since the last one, placed from the pipes that include
    the new one; the pipe loop and the coin loop then run on these lists
    with the integrated bird.  The game is over afterwards exactly when
    the bird touches an edge of the screen or a kept pipe; the shop stays
    closed, and the high score never falls and never exceeds the greater
    of its old value and the new score.  When the game is over or the
    shop open, the tick changes nothing. *)
Theorem running_tick_spec sin e g p :
  (Game.game_over g = false -> Shop.active (Game.shop g) = false ->
   let b := Bird.update (Game.bird g) in
   let g' := fst (Game.update sin e g p) in
   Game.bird g' = b
   /\ Game.pipes g' = surviving_pipes (Bird.x b) (Game.pipes g ++ new_pipes e g)
   /\ Game.coins g' = surviving_coins sin b (Game.coins g ++ new_coins e g)
   /\ Game.game_over g'
      = Game.hits_screen_edge b
        || existsb (fun q => Pipe.check_collision q b) (Game.pipes g')
   /\ Game.score g' = Game.score g + points (Bird.x b) (Game.pipes g ++ new_pipes e g)
   /\ Shop.active (Game.shop g') = false
   /\ Shop.scroll_offset (Game.shop g') = Shop.scroll_offset (Game.shop g)
   /\ Shop.coins (Game.shop g')
      = Shop.coins (Game.shop g)
        + total_value (touched_coins sin b (Game.coins g ++ new_coins e g))
   /\ Game.high_score g <= Game.high_score g' <= Z.max (Game.high_score g) (Game.score g'))
  /\ (Game.game_over g = true \/ Shop.active (Game.shop g) = true ->
      Game.update sin e g p = (g, p)).
Proof.
  split.
  - intros Ho Ha. exact (update_running sin e g p Ho Ha).
  - apply update_idle.
Qed.

Lemma coin_moved_times_keeps sin (n : nat) (c : Coin.t) :
  let c' := coin_moved_times sin n c in
  Coin.x c' = Coin.x c - PIPE_SPEED * Z.of_nat n
  /\ Coin.value c' = Coin.value c /\ Coin.collected c' = Coin.collected c
  /\ Coin.radius c' = Coin.radius c /\ Coin.start_y c' = Coin.start_y c.
Proof.
  induction n as [|n IH]; [cbn; repeat split; lia|].
  change (coin_moved_times sin (S n) c) with (coin_moved sin (coin_moved_times sin n c)).
  cbn zeta in *. destruct IH as (Hx & Hv & Hc & Hr & Hs).
  unfold coin_moved, Coin.update.
  cbn [fst Coin.x Coin.value Coin.collected Coin.radius Coin.start_y].
  rewrite Hx. repeat split; try assumption. lia.
Qed.

(** X7.  A coin moves 3 to the left at each [update], as a pipe does, so
    the distance between a coin and a pipe never changes; the bobbing
    touches neither the value nor the flag nor the radius of the coin.
    [update] reports the coin on screen as long as its centre is right
    of minus its diameter. *)
Theorem coin_keeps_pace sin (n : nat) (c : Coin.t) (q : Pipe.t) :
  let c' := coin_moved_times sin n c in
  Coin.x c' = Coin.x c - 3 * Z.of_nat n
  /\ Coin.x c' - Pipe.x (moved_times n q) = Coin.x c - Pipe.x q
  /\ Coin.value c' = Coin.value c /\ Coin.collected c' = Coin.collected c
  /\ Coin.radius c' = Coin.radius c
  /\ (snd (Coin.update sin c') = true
      <-> 3 * (Z.of_nat n + 1) < Coin.x c + 2 * Coin.radius c).
Proof.
  intros c'. destruct (coin_moved_times_keeps sin n c) as (Hx & Hv & Hc & Hr & _).
  fold c' in Hx, Hv, Hc, Hr. unfold PIPE_SPEED in Hx.
  rewrite moved_times_spec. cbn [Pipe.x]. unfold PIPE_SPEED.
  repeat split; try assumption; try lia.
  - unfold Coin.update. cbn [snd]. rewrite Z.ltb_lt, Hx, Hr. unfold PIPE_SPEED. lia.
  - unfold Coin.update. cbn [snd]. rewrite Z.ltb_lt, Hx, Hr. unfold PIPE_SPEED. lia.
Qed.

End TickProperties.

(** * The shop and the input *)

Section ShopProperties.

Implicit Types (g : Game.t) (p : Persistence.t) (b : Bird.t) (s : Shop.t).

(** X17.  Where a click goes.  A closed shop ignores it.  In the open
    shop a click on the [k]-th button, as scrolled, runs the purchase or
    the equipping of the [k]-th skin of the catalogue and is consumed,
    and the shop stays open, whether or not the click also falls on the
    exit button: the buttons are tested first.  A click on none of the
    nine buttons closes the shop when it falls on the exit button and is
    otherwise ignored, leaving shop, bird and store as they were. *)
Theorem shop_click_dispatch (pos : Z * Z) (click_rect : pygame.Rect) s b p :
  (Shop.active s = false -> Shop.handle_click pos click_rect s b p = (false, (s, b, p)))
  /\ (Shop.active s = true ->
      forall (k : nat) (item : string * Z),
        nth_error Bird.SKINS k = Some item -> in_button s k pos ->
        Shop.handle_click pos click_rect s b p = (true, Shop.click_button item s b p)
        /\ Shop.active (fst (fst (snd (Shop.handle_click pos click_rect s b p)))) = true)
  /\ (Shop.active s = true ->
      (forall k : nat, (k < length Bird.SKINS)%nat -> ~ in_button s k pos) ->
      Shop.handle_click pos click_rect s b p
      = if pygame.collidepoint click_rect pos
        then (true, (Shop.mk false (Shop.coins s) (Shop.scroll_offset s), b, p))
        else (false, (s, b, p))).
Proof.
  split; [|split].
  - intros Ha. unfold Shop.handle_click. now rewrite Ha.
  - intros Ha k item Hk [Hx Hy].
    rewrite (handle_click_button k item pos click_rect s b p Ha Hk Hx Hy). cbn [snd].
    now rewrite click_button_active.
  - intros Ha Hmiss. unfold Shop.handle_click. rewrite Ha. cbn [negb].
    rewrite click_buttons_miss; [reflexivity|].
    intros k Hk Hin. apply (Hmiss k Hk). unfold in_button. lia.
Qed.

(** X18.  Whatever event the shop handles, it neither makes nor loses
    money: the balance and the catalogue prices of the owned skins add up
    as before.  The balance does not grow and, when it was not negative,
    does not become negative; no owned skin is lost. *)
Theorem shop_keeps_money (event : pygame.Event) (click_rect : pygame.Rect) s b p :
  let r := snd (Shop.handle_events event click_rect s b p) in
  Shop.coins (fst (fst r)) + worth (Bird.owned_skins (snd (fst r)))
  = Shop.coins s + worth (Bird.owned_skins b)
  /\ Z.min 0 (Shop.coins s) <= Shop.coins (fst (fst r)) <= Shop.coins s
  /\ Bird.owned_skins b ⊆ Bird.owned_skins (snd (fst r)).
Proof.
  intros r. pose proof (shop_handle_events_money event click_rect s b p) as H.
  exact H.
Qed.

(** X19.  [handle_events] returns [False] exactly when the events hold a
    quit request (the window's close button or the key q).  The events
    before the first request are handled, the balance is then written to
    the store and the events after it are dropped; the loop of [main]
    runs the tick of that pass and stops, whatever frames would
    follow. *)
Theorem quit_saves_and_stops py_int sin (click_rect : pygame.Rect) (f : Frame)
        (frames : list Frame) (pre rest : list pygame.Event) (event : pygame.Event) g p :
  fst (fst (Game.handle_events py_int (reset_ticks f) click_rect (events f) g p))
  = forallb (fun event => negb (is_quit event)) (events f)
  /\ (events f = pre ++ event :: rest ->
      forallb (fun event => negb (is_quit event)) pre = true -> is_quit event = true ->
      let r := Game.handle_events py_int (reset_ticks f) click_rect pre g p in
      let g1 := snd (fst r) in
      let p1 := snd (Persistence.set_state "coins" (py_str (Shop.coins (Game.shop g1)))
                                           (snd r)) in
      Game.handle_events py_int (reset_ticks f) click_rect (events f) g p = (false, g1, p1)
      /\ main_loop py_int sin click_rect (f :: frames) g p
         = (false, fst (Game.update sin (frame_env f) g1 p1),
            snd (Game.update sin (frame_env f) g1 p1))).
Proof.
  split; [apply handle_events_flag|].
  intros Hev Hpre Hq r g1 p1.
  assert (H : Game.handle_events py_int (reset_ticks f) click_rect (events f) g p
              = (false, g1, p1)).
  { rewrite Hev. exact (handle_events_quit py_int click_rect (reset_ticks f) pre rest
                          event g p Hpre Hq). }
  split; [exact H|].
  cbn [main_loop]. unfold main_pass. rewrite H.
  now destruct (Game.update sin (frame_env f) g1 p1).
Qed.

(** X20.  While the shop is open (and the game therefore not over), the
    game is paused: no event, the space key included, touches the
    position, the velocity or the angle of the bird, the pipes, the coins,
    the score or the flags, and the tick changes nothing at all. *)
Theorem open_shop_pauses py_int sin (click_rect : pygame.Rect) (ticks : Z * Z)
        (event : pygame.Event) (e : Env) g p :
  Game.game_over g = false -> Shop.active (Game.shop g) = true ->
  same_world g (snd (fst (Game.handle_event py_int ticks click_rect event g p)))
  /\ Game.update sin e g p = (g, p).
Proof.
  intros Ho Ha. split.
  - now apply handle_event_paused.
  - apply update_idle. now right.
Qed.

End ShopProperties.

(** * Witnesses *)


Lemma pipe_collision_iff_witness :
  Pipe.check_collision (Pipe.mk 450 150 80 false) fresh_bird = true.
Proof.
  assert (H1 : 0 < Bird.size fresh_bird) by reflexivity.
  assert (H2 : 0 < Pipe.width (Pipe.mk 450 150 80 false)) by reflexivity.
  assert (H3 : PIPE_GAP / 2 < Pipe.gap_y (Pipe.mk 450 150 80 false)
               < WINDOW_HEIGHT - PIPE_GAP / 2) by (split; reflexivity).
  apply (proj2 (pipe_collision_iff (Pipe.mk 450 150 80 false) fresh_bird H1 H2 H3)).
  vm_compute. split; [split; reflexivity | left; split; reflexivity].
Defined.

Lemma rightmost_pipe_max_witness :
  In (Pipe.mk 250 370 80 false) two_pipes
  /\ forall q, In q two_pipes -> Pipe.x q <= 370.
Proof.
  exact (proj2 (rightmost_pipe_max two_pipes) (Pipe.mk 250 370 80 false) eq_refl).
Defined.

Lemma pipe_lifetime_witness :
  snd (Pipe.update (moved_times 158 (Pipe.init 300))) = true.
Proof.
  apply (proj2 (proj2 (pipe_lifetime 300 158))). apply Nat.ltb_lt. reflexivity.
Defined.

Lemma coin_keeps_pace_witness :
  snd (Coin.update no_sin (coin_moved_times no_sin 138 (coin_at 400))) = true.
Proof.
  apply (proj2 (proj2 (proj2 (proj2 (proj2
           (coin_keeps_pace no_sin 138 (coin_at 400) (Pipe.init 300))))))).
  reflexivity.
Defined.

Lemma running_tick_spec_witness :
  Game.score (fst (Game.update no_sin edge_env new_game fresh_store)) = 0
  /\ Game.update no_sin edge_env paused_game fresh_store = (paused_game, fresh_store).
Proof.
  pose proof (proj1 (running_tick_spec no_sin edge_env new_game fresh_store)
                eq_refl eq_refl) as (_ & _ & _ & _ & Hs & _).
  pose proof (proj2 (running_tick_spec no_sin edge_env paused_game fresh_store)
                (or_intror eq_refl)) as Hp.
  split; [|exact Hp]. rewrite Hs. vm_compute. reflexivity.
Defined.


Lemma progress_survives_restart_witness :
  let r := main parse_decimal no_sin exit_rect (0, 0) shopping_frames rich_store in
  healthy (snd r)
  /\ Shop.coins (Game.shop (fst (Game.init parse_decimal (0, 0) (snd r))))
     = Shop.coins (Game.shop (snd (fst r)))
  /\ Bird.current_skin (Game.bird (fst (Game.init parse_decimal (0, 0) (snd r))))
     = Bird.current_skin (Game.bird (snd (fst r))).
Proof.
  intros r.
  assert (Hh : healthy rich_store) by reflexivity.
  pose proof (progress_survives_restart parse_decimal no_sin exit_rect (0, 0)
                shopping_frames rich_store Hh parse_decimal_py_str) as [H1 H2].
  destruct (H2 (0, 0)) as (_ & Hc & _ & _ & Hk).
  exact (conj H1 (conj Hc Hk)).
Defined.

Lemma shop_click_dispatch_witness :
  Shop.handle_click (150, 170) exit_rect (Shop.mk false 500 0) fresh_bird fresh_store
  = (false, (Shop.mk false 500 0, fresh_bird, fresh_store))
  /\ Shop.handle_click (200, 550) exit_rect (Shop.mk true 500 0) fresh_bird fresh_store
     = (true, Shop.click_button ("emerald"%string, 150) (Shop.mk true 500 0)
                                fresh_bird fresh_store)
  /\ Shop.handle_click (200, 550) exit_rect (Shop.mk true 500 90) fresh_bird fresh_store
     = (true, (Shop.mk false 500 90, fresh_bird, fresh_store)).
Proof.
  split; [|split].
  - exact (proj1 (shop_click_dispatch (150, 170) exit_rect (Shop.mk false 500 0)
                    fresh_bird fresh_store) eq_refl).
  - apply (proj1 (proj2 (shop_click_dispatch (200, 550) exit_rect (Shop.mk true 500 0)
                           fresh_bird fresh_store)) eq_refl 7%nat).
    + reflexivity.
    + unfold in_button. cbn. lia.
  - apply (proj2 (proj2 (shop_click_dispatch (200, 550) exit_rect (Shop.mk true 500 90)
                           fresh_bird fresh_store)) eq_refl).
    intros k Hk. unfold in_button. cbn in *. lia.
Defined.

Lemma quit_saves_and_stops_witness :
  let g1 := Game.set_bird new_game (Bird.flap fresh_bird) in
  let p1 := snd (Persistence.set_state "coins" (py_str 0) fresh_store) in
  Game.handle_events parse_decimal (0, 0) exit_rect (events quit_frame) new_game fresh_store
  = (false, g1, p1)
  /\ main_loop parse_decimal no_sin exit_rect [quit_frame; quit_frame] new_game fresh_store
     = (false, fst (Game.update no_sin edge_env g1 p1),
        snd (Game.update no_sin edge_env g1 p1)).
Proof.
  exact (proj2 (quit_saves_and_stops parse_decimal no_sin exit_rect quit_frame [quit_frame]
                  [pygame.KEYDOWN pygame.K_SPACE] [pygame.KEYDOWN pygame.K_s] pygame.QUIT
                  new_game fresh_store)
               eq_refl eq_refl eq_refl).
Defined.

Lemma open_shop_pauses_witness :
  same_world paused_game
             (snd (fst (Game.handle_event parse_decimal (0, 0) exit_rect
                                          (pygame.KEYDOWN pygame.K_SPACE)
                                          paused_game fresh_store)))
  /\ Game.update no_sin edge_env paused_game fresh_store = (paused_game, fresh_store).
Proof.
  exact (open_shop_pauses parse_decimal no_sin exit_rect (0, 0)
           (pygame.KEYDOWN pygame.K_SPACE) edge_env paused_game fresh_store
           eq_refl eq_refl).
Defined.
